(** * Energy-Emissions Lakehouse: the warehouse loader

    A shallow embedding of [src/30_load/load_to_postgres.py] and of the
    GOLD step [src/20_gold/silver_to_gold.py] that writes the loader's
    inputs, together with their properties: append-only dimension
    registration, surrogate-key substitution, the fail-fast guard,
    last-write-wins fact merges, the single transaction around the whole
    load, and the shape of the marts.

    Conventions of the embedding.
    - A pandas float cell is an [option] of a binary64 value that is not
      NaN: [None] is NaN / [pd.NA] / SQL NULL, the one missing value pandas
      knows in a float column.  Values are the kernel's binary64 floats, so
      the one division of the GOLD step rounds as the script's does.
    - A Python [dict] is a [gmap]; a Python [set] is a duplicate-free list.
      The order in which CPython lists a set is the order of its hash table
      and is not modelled: the lists below come in an order of their own.
      The loader either sorts the set (dimension names), so that the order
      is gone, or inserts it as it comes (year-month pairs), so that the
      order decides which new pair gets which of the new ids and nothing
      else; no property of [main] below depends on which id a new pair
      gets.
    - A table is the list of its rows in insertion order.  An UPDATE keeps
      the row where it is.
    - Every statement of the load runs on one connection inside
      [with engine.begin() as conn]; a statement is a state transformer that
      may raise. *)

From stdpp Require Import base option list strings gmap sorting.
From Corelib Require Import PrimFloat.

Local Open Scope Z_scope.
Local Open Scope string_scope.
Local Open Scope list_scope.

(** ** Cells and Python helpers *)

(** A float64 value other than NaN. *)
Record f64 := F64 {
  f64_val : PrimFloat.float;
  f64_ok : PrimFloat.is_nan f64_val = false
}.

(** A float64 cell. *)
Definition float : Type := option f64.

(** The cell holding a binary64 value: NaN is the missing value. *)
Definition cell (x : PrimFloat.float) : float :=
  match PrimFloat.is_nan x as b return PrimFloat.is_nan x = b → float with
  | true => λ _, None
  | false => λ H, Some (F64 x H)
  end eq_refl.

(** [Series.isna()] on one cell. *)
Definition isna {A} (c : option A) : bool :=
  match c with None => true | Some _ => false end.

(** [Series.isna().any()] on one column. *)
Definition col_has_na {A} (col : list (option A)) : bool := existsb isna col.

(** Python's order on [str], as used by [sorted]: lexicographic on the
    code units. *)
Definition str_le (s1 s2 : string) : Prop := String.leb s1 s2 = true.

Global Instance str_le_dec (s1 s2 : string) : Decision (str_le s1 s2).
Proof. unfold str_le. apply _. Defined.

(** [set(values)]: the distinct values, in an order that carries no
    meaning. *)
Definition py_set {A} `{EqDecision A} (values : list A) : list A :=
  remove_dups values.

(** [sorted(xs)] on strings. *)
Definition sorted (xs : list string) : list string := merge_sort str_le xs.

(** [DataFrame.drop_duplicates()]: the first occurrence of every row is
    kept, later ones are dropped. *)
Fixpoint drop_duplicates {A} `{EqDecision A} (rows : list A) : list A :=
  match rows with
  | [] => []
  | r :: rest => r :: filter (λ r', r' ≠ r) (drop_duplicates rest)
  end.

(** [repr] of a list of column names, as an f-string prints it. *)
Fixpoint repr_items (cols : list string) : string :=
  match cols with
  | [] => EmptyString
  | [c] => "'" +:+ c +:+ "'"
  | c :: rest => "'" +:+ c +:+ "', " +:+ repr_items rest
  end.

Definition repr_list (cols : list string) : string :=
  "[" +:+ repr_items cols +:+ "]".

(** ** The GOLD marts (inputs of the loader) *)

Record energy_mart_row := EnergyMartRow {
  em_region : string;
  em_energy_source : string;
  em_year : Z;
  em_month : Z;
  em_avg_consumption_mwh : float;
  em_max_consumption_mwh : float;
  em_avg_temp_c : float;
  em_records : Z
}.

Record emissions_mart_row := EmissionsMartRow {
  xm_region : string;
  xm_sector : string;
  xm_year : Z;
  xm_month : Z;
  xm_avg_co2_tonnes : float;
  xm_total_co2_tonnes : float;
  xm_records : Z
}.

Record intensity_mart_row := IntensityMartRow {
  im_region : string;
  im_year : Z;
  im_month : Z;
  im_total_energy_mwh : float;
  im_total_co2_tonnes : float;
  im_co2_per_mwh : float
}.

Record marts := Marts {
  energy_m : list energy_mart_row;
  emis_m : list emissions_mart_row;
  intensity : list intensity_mart_row
}.

(** *** The carbon-intensity ratio of the GOLD step

    [total_co2_tonnes / total_energy_mwh.replace(0, pd.NA)] *)

(** [.replace(0, pd.NA)]: the cells equal to 0 ([0.0] and [-0.0] alike)
    become missing. *)
Definition replace_zero_with_na (x : float) : float :=
  match x with
  | Some q => if PrimFloat.eqb (f64_val q) 0 then None else Some q
  | None => None
  end.

(** [num / den] on two cells: the binary64 quotient; a missing operand
    gives a missing quotient. *)
Definition na_div (num den : float) : float :=
  match num, den with
  | Some a, Some b => cell (PrimFloat.div (f64_val a) (f64_val b))
  | _, _ => None
  end.

Definition co2_per_mwh (total_co2_tonnes total_energy_mwh : float) : float :=
  na_div total_co2_tonnes (replace_zero_with_na total_energy_mwh).

(** The row the GOLD step writes for one (region, year, month) group. *)
Definition carbon_intensity_row (region : string) (year month : Z)
    (total_energy_mwh total_co2_tonnes : float) : intensity_mart_row :=
  {| im_region := region; im_year := year; im_month := month;
     im_total_energy_mwh := total_energy_mwh;
     im_total_co2_tonnes := total_co2_tonnes;
     im_co2_per_mwh := co2_per_mwh total_co2_tonnes total_energy_mwh |}.

(** ** The warehouse

    The DDL of the star schema is not among the sources; the tables below
    follow section 6 of the specification. *)

(** Modelled from the spec: [dim_region(region_id PK, region_name unique)],
    and likewise [dim_energy_source] and [dim_sector]. *)
Record dim_row := DimRow { dim_id : Z; dim_name : string }.

(** Modelled from the spec:
    [dim_time(time_id PK, year, month; unique(year, month))]. *)
Record time_row := TimeRow { time_id : Z; t_year : Z; t_month : Z }.

(** Fact rows are a key tuple and the metric columns.  A key cell is
    nullable: the staging tables written by [to_sql] carry NaN as NULL. *)
Abbreviation energy_key := (option Z * option Z * option Z)%type.
Abbreviation energy_metrics := (float * float * float * Z)%type.
Abbreviation emissions_key := (option Z * option Z * option Z)%type.
Abbreviation emissions_metrics := (float * float * Z)%type.
Abbreviation intensity_key := (option Z * option Z)%type.
Abbreviation intensity_metrics := (float * float * float)%type.

(** What [to_sql] left in a staging table. *)
Inductive staged :=
  | StgNames (rows : list string)
  | StgPairs (rows : list (Z * Z))
  | StgEnergy (rows : list (energy_key * energy_metrics))
  | StgEmissions (rows : list (emissions_key * emissions_metrics))
  | StgIntensity (rows : list (intensity_key * intensity_metrics)).

(** Modelled from the spec: the seven tables of the star schema, and the
    staging tables that exist at the moment, by name. *)
Record tables := Tables {
  dim_region : list dim_row;
  dim_energy_source : list dim_row;
  dim_sector : list dim_row;
  dim_time : list time_row;
  fact_energy_monthly : list (energy_key * energy_metrics);
  fact_emissions_monthly : list (emissions_key * emissions_metrics);
  fact_carbon_intensity : list (intensity_key * intensity_metrics);
  staging : gmap string staged
}.

(** Modelled from the spec: the loader's [INSERT INTO dim (name)] leaves the
    surrogate id to the engine; it is taken from one ascending sequence per
    dimension.  A sequence is not rewound by a rollback. *)
Record sequences := Sequences {
  region_id_seq : Z;
  source_id_seq : Z;
  sector_id_seq : Z;
  time_id_seq : Z
}.

(** The state a connection works on. *)
Record warehouse := Warehouse { tbl : tables; seqs : sequences }.

Inductive dimension := Region | EnergySource | Sector.

Global Instance dimension_eq_dec : EqDecision dimension.
Proof. solve_decision. Defined.

Definition table_name (d : dimension) : string :=
  match d with
  | Region => "dim_region"
  | EnergySource => "dim_energy_source"
  | Sector => "dim_sector"
  end.

Definition get_dim (d : dimension) (t : tables) : list dim_row :=
  match d with
  | Region => dim_region t
  | EnergySource => dim_energy_source t
  | Sector => dim_sector t
  end.

Definition set_dim (d : dimension) (rows : list dim_row) (t : tables) : tables :=
  match d with
  | Region =>
      Tables rows (dim_energy_source t) (dim_sector t) (dim_time t)
        (fact_energy_monthly t) (fact_emissions_monthly t)
        (fact_carbon_intensity t) (staging t)
  | EnergySource =>
      Tables (dim_region t) rows (dim_sector t) (dim_time t)
        (fact_energy_monthly t) (fact_emissions_monthly t)
        (fact_carbon_intensity t) (staging t)
  | Sector =>
      Tables (dim_region t) (dim_energy_source t) rows (dim_time t)
        (fact_energy_monthly t) (fact_emissions_monthly t)
        (fact_carbon_intensity t) (staging t)
  end.

Definition set_dim_time (rows : list time_row) (t : tables) : tables :=
  Tables (dim_region t) (dim_energy_source t) (dim_sector t) rows
    (fact_energy_monthly t) (fact_emissions_monthly t)
    (fact_carbon_intensity t) (staging t).

Definition set_fact_energy rows (t : tables) : tables :=
  Tables (dim_region t) (dim_energy_source t) (dim_sector t) (dim_time t)
    rows (fact_emissions_monthly t) (fact_carbon_intensity t) (staging t).

Definition set_fact_emissions rows (t : tables) : tables :=
  Tables (dim_region t) (dim_energy_source t) (dim_sector t) (dim_time t)
    (fact_energy_monthly t) rows (fact_carbon_intensity t) (staging t).

Definition set_fact_intensity rows (t : tables) : tables :=
  Tables (dim_region t) (dim_energy_source t) (dim_sector t) (dim_time t)
    (fact_energy_monthly t) (fact_emissions_monthly t) rows (staging t).

Definition set_staging (s : gmap string staged) (t : tables) : tables :=
  Tables (dim_region t) (dim_energy_source t) (dim_sector t) (dim_time t)
    (fact_energy_monthly t) (fact_emissions_monthly t)
    (fact_carbon_intensity t) s.

Definition get_seq (d : dimension) (s : sequences) : Z :=
  match d with
  | Region => region_id_seq s
  | EnergySource => source_id_seq s
  | Sector => sector_id_seq s
  end.

Definition set_seq (d : dimension) (n : Z) (s : sequences) : sequences :=
  match d with
  | Region => Sequences n (source_id_seq s) (sector_id_seq s) (time_id_seq s)
  | EnergySource => Sequences (region_id_seq s) n (sector_id_seq s) (time_id_seq s)
  | Sector => Sequences (region_id_seq s) (source_id_seq s) n (time_id_seq s)
  end.

Definition set_time_seq (n : Z) (s : sequences) : sequences :=
  Sequences (region_id_seq s) (source_id_seq s) (sector_id_seq s) n.

(** ** Statements on a connection *)

Inductive error :=
  | ValueError (msg : string)
  | CardinalityViolation (table : string).

Inductive result (A : Type) :=
  | Ok (a : A)
  | Raise (e : error).
Arguments Ok {A} a.
Arguments Raise {A} e.

(** A statement: it may change what the connection sees and it may raise. *)
Definition Tx (A : Type) : Type := warehouse → result A * warehouse.

Definition ret {A} (a : A) : Tx A := λ w, (Ok a, w).
Definition raise {A} (e : error) : Tx A := λ w, (Raise e, w).
Definition bind {A B} (m : Tx A) (f : A → Tx B) : Tx B := λ w,
  match m w with
  | (Ok a, w') => f a w'
  | (Raise e, w') => (Raise e, w')
  end.
Definition modify_tables (f : tables → tables) : Tx unit := λ w,
  (Ok tt, Warehouse (f (tbl w)) (seqs w)).

Global Instance Tx_ret : MRet Tx := @ret.
Global Instance Tx_bind : MBind Tx := λ A B f m, bind m f.

(** [with engine.begin() as conn: body]: commit when the body returns,
    roll back when it raises.  The rollback restores every table (staging
    tables included, DDL being transactional); sequences keep the values
    they reached. *)
Definition engine_begin {A} (body : Tx A) : Tx A := λ w,
  match body w with
  | (Ok a, w') => (Ok a, w')
  | (Raise e, w') => (Raise e, Warehouse (tbl w) (seqs w'))
  end.

(** [df.to_sql(stg, conn, if_exists="replace", index=False)] *)
Definition to_sql (stg : string) (df : staged) : Tx unit :=
  modify_tables (λ t, set_staging (<[stg := df]> (staging t)) t).

(** [DROP TABLE IF EXISTS stg;] *)
Definition drop_table_if_exists (stg : string) : Tx unit :=
  modify_tables (λ t, set_staging (delete stg (staging t)) t).

(** ** 1) Dimension registration *)

Definition staging_name (table : string) : string := "stg_" +:+ table.

(** New rows take consecutive values of the table's sequence, in the order
    the SELECT produces them. *)
Definition new_dim_rows (seq : Z) (names : list string) : list dim_row :=
  imap (λ i n, DimRow (seq + Z.of_nat i) n) names.

(** [SELECT s.name FROM stg s LEFT JOIN dim d ON d.name = s.name
     WHERE d.name IS NULL]: the staged names no dimension row carries,
    in staging order. *)
Definition missing_names (rows : list dim_row) (stg : list string) : list string :=
  filter (λ n, n ∉ dim_name <$> rows) stg.

(** [INSERT INTO {table} ({name_col}) SELECT ...] *)
Definition insert_missing_names (table : dimension) (stg : list string) : Tx unit :=
  λ w,
    let new := missing_names (get_dim table (tbl w)) stg in
    (Ok tt,
     Warehouse
       (set_dim table
          (get_dim table (tbl w) ++ new_dim_rows (get_seq table (seqs w)) new)
          (tbl w))
       (set_seq table (get_seq table (seqs w) + Z.of_nat (length new)) (seqs w))).

Definition upsert_dim_table (table : dimension) (values : list string) : Tx unit :=
  let values := sorted (py_set values) in
  if decide (values = []) then mret tt
  else
    let stg := staging_name (table_name table) in
    to_sql stg (StgNames values);;
    insert_missing_names table values;;
    drop_table_if_exists stg.

(** ** 2) Time-dimension registration *)

Definition new_time_rows (seq : Z) (pairs : list (Z * Z)) : list time_row :=
  imap (λ i p, TimeRow (seq + Z.of_nat i) p.1 p.2) pairs.

Definition time_key (r : time_row) : Z * Z := (t_year r, t_month r).

(** [SELECT s.year, s.month FROM stg_dim_time s LEFT JOIN dim_time t
     ON t.year = s.year AND t.month = s.month WHERE t.time_id IS NULL] *)
Definition missing_pairs (rows : list time_row) (stg : list (Z * Z)) : list (Z * Z) :=
  filter (λ p, p ∉ time_key <$> rows) stg.

Definition insert_missing_pairs (stg : list (Z * Z)) : Tx unit :=
  λ w,
    let new := missing_pairs (dim_time (tbl w)) stg in
    (Ok tt,
     Warehouse
       (set_dim_time
          (dim_time (tbl w) ++ new_time_rows (time_id_seq (seqs w)) new)
          (tbl w))
       (set_time_seq (time_id_seq (seqs w) + Z.of_nat (length new)) (seqs w))).

Definition upsert_dim_time (year_month_pairs : list (Z * Z)) : Tx unit :=
  if decide (year_month_pairs = []) then mret tt
  else
    let df := drop_duplicates year_month_pairs in
    to_sql "stg_dim_time" (StgPairs df);;
    insert_missing_pairs df;;
    drop_table_if_exists "stg_dim_time".

(** ** 3) Id maps *)

(** [{r[1]: r[0] for r in rows}]: a later row overwrites an earlier one. *)
Definition dict_of_dim_rows (rows : list dim_row) : gmap string Z :=
  fold_left (λ m r, <[dim_name r := dim_id r]> m) rows ∅.

Definition fetch_dim_map (table : dimension) (w : warehouse) : gmap string Z :=
  dict_of_dim_rows (get_dim table (tbl w)).

(** [{(r[1], r[2]): r[0] for r in rows}] *)
Definition dict_of_time_rows (rows : list time_row) : gmap (Z * Z) Z :=
  fold_left (λ m r, <[time_key r := time_id r]> m) rows ∅.

Definition fetch_time_map (w : warehouse) : gmap (Z * Z) Z :=
  dict_of_time_rows (dim_time (tbl w)).

(** ** 4) Fact frames *)

(** [Series.map(d)] with a dict: a value the dict does not hold maps to
    NaN. *)
Definition series_map {K V} `{Countable K} (d : gmap K V) (col : list K)
  : list (option V) := (λ k, d !! k) <$> col.

Record energy_frame := EnergyFrame {
  ef_region_id : list (option Z);
  ef_source_id : list (option Z);
  ef_time_id : list (option Z);
  ef_avg_consumption_mwh : list float;
  ef_max_consumption_mwh : list float;
  ef_avg_temp_c : list float;
  ef_records : list Z
}.

Record emissions_frame := EmissionsFrame {
  xf_region_id : list (option Z);
  xf_sector_id : list (option Z);
  xf_time_id : list (option Z);
  xf_avg_co2_tonnes : list float;
  xf_total_co2_tonnes : list float;
  xf_records : list Z
}.

Record intensity_frame := IntensityFrame {
  if_region_id : list (option Z);
  if_time_id : list (option Z);
  if_total_energy_mwh : list float;
  if_total_co2_tonnes : list float;
  if_co2_per_mwh : list float
}.

Definition build_energy_fact (region_map source_map : gmap string Z)
    (time_map : gmap (Z * Z) Z) (m : list energy_mart_row) : energy_frame :=
  let time_id := zip (em_year <$> m) (em_month <$> m) in
  {| ef_region_id := series_map region_map (em_region <$> m);
     ef_source_id := series_map source_map (em_energy_source <$> m);
     ef_time_id := series_map time_map time_id;
     ef_avg_consumption_mwh := em_avg_consumption_mwh <$> m;
     ef_max_consumption_mwh := em_max_consumption_mwh <$> m;
     ef_avg_temp_c := em_avg_temp_c <$> m;
     ef_records := em_records <$> m |}.

Definition build_emissions_fact (region_map sector_map : gmap string Z)
    (time_map : gmap (Z * Z) Z) (m : list emissions_mart_row) : emissions_frame :=
  let time_id := zip (xm_year <$> m) (xm_month <$> m) in
  {| xf_region_id := series_map region_map (xm_region <$> m);
     xf_sector_id := series_map sector_map (xm_sector <$> m);
     xf_time_id := series_map time_map time_id;
     xf_avg_co2_tonnes := xm_avg_co2_tonnes <$> m;
     xf_total_co2_tonnes := xm_total_co2_tonnes <$> m;
     xf_records := xm_records <$> m |}.

Definition build_intensity_fact (region_map : gmap string Z)
    (time_map : gmap (Z * Z) Z) (m : list intensity_mart_row) : intensity_frame :=
  let time_id := zip (im_year <$> m) (im_month <$> m) in
  {| if_region_id := series_map region_map (im_region <$> m);
     if_time_id := series_map time_map time_id;
     if_total_energy_mwh := im_total_energy_mwh <$> m;
     if_total_co2_tonnes := im_total_co2_tonnes <$> m;
     if_co2_per_mwh := im_co2_per_mwh <$> m |}.

(** The rows of a frame, as [to_sql] writes them. *)
Definition energy_rows (df : energy_frame) : list (energy_key * energy_metrics) :=
  zip (zip (zip (ef_region_id df) (ef_source_id df)) (ef_time_id df))
      (zip (zip (zip (ef_avg_consumption_mwh df) (ef_max_consumption_mwh df))
                (ef_avg_temp_c df))
           (ef_records df)).

Definition emissions_rows (df : emissions_frame)
  : list (emissions_key * emissions_metrics) :=
  zip (zip (zip (xf_region_id df) (xf_sector_id df)) (xf_time_id df))
      (zip (zip (xf_avg_co2_tonnes df) (xf_total_co2_tonnes df)) (xf_records df)).

Definition intensity_rows (df : intensity_frame)
  : list (intensity_key * intensity_metrics) :=
  zip (zip (if_region_id df) (if_time_id df))
      (zip (zip (if_total_energy_mwh df) (if_total_co2_tonnes df))
           (if_co2_per_mwh df)).

(** ** 5) The fail-fast guard *)

(** [df.isna().any()]: per column, in column order, whether it holds a
    missing value.  An int64 column ([records]) cannot hold one. *)
Definition energy_isna_any (df : energy_frame) : list (string * bool) :=
  [("region_id", col_has_na (ef_region_id df));
   ("source_id", col_has_na (ef_source_id df));
   ("time_id", col_has_na (ef_time_id df));
   ("avg_consumption_mwh", col_has_na (ef_avg_consumption_mwh df));
   ("max_consumption_mwh", col_has_na (ef_max_consumption_mwh df));
   ("avg_temp_c", col_has_na (ef_avg_temp_c df));
   ("records", false)].

Definition emissions_isna_any (df : emissions_frame) : list (string * bool) :=
  [("region_id", col_has_na (xf_region_id df));
   ("sector_id", col_has_na (xf_sector_id df));
   ("time_id", col_has_na (xf_time_id df));
   ("avg_co2_tonnes", col_has_na (xf_avg_co2_tonnes df));
   ("total_co2_tonnes", col_has_na (xf_total_co2_tonnes df));
   ("records", false)].

Definition intensity_isna_any (df : intensity_frame) : list (string * bool) :=
  [("region_id", col_has_na (if_region_id df));
   ("time_id", col_has_na (if_time_id df));
   ("total_energy_mwh", col_has_na (if_total_energy_mwh df));
   ("total_co2_tonnes", col_has_na (if_total_co2_tonnes df));
   ("co2_per_mwh", col_has_na (if_co2_per_mwh df))].

(** [df.isna().any().any()] *)
Definition any_na (isna_any : list (string * bool)) : bool :=
  existsb snd isna_any.

(** [df.columns[df.isna().any()].tolist()] *)
Definition bad_columns (isna_any : list (string * bool)) : list string :=
  (filter (λ c, c.2 = true) isna_any).*1.

Definition nulls_message (name : string) (bad_cols : list string) : string :=
  name +:+ " has NULLs after ID mapping. Bad columns: " +:+ repr_list bad_cols.

(** [for name, df in [...]: if df.isna().any().any(): raise ValueError(...)] *)
Fixpoint fail_fast (frames : list (string * list (string * bool))) : Tx unit :=
  match frames with
  | [] => mret tt
  | (name, isna_any) :: rest =>
      if any_na isna_any
      then raise (ValueError (nulls_message name (bad_columns isna_any)))
      else fail_fast rest
  end.

(** ** 6) Fact upserts *)

Section insert_on_conflict.
Context {K V : Type} `{EqDecision K}.
(** Whether a key tuple holds a NULL. *)
Variable has_null : K → bool.

(** One staged row against the target: [ON CONFLICT (key) DO UPDATE SET
    metrics = EXCLUDED.metrics].  A key holding NULL conflicts with
    nothing (a unique index treats NULLs as distinct). *)
Definition upsert_row (tbl : list (K * V)) (r : K * V) : list (K * V) :=
  if has_null r.1 then tbl ++ [r]
  else if decide (r.1 ∈ tbl.*1)
  then (λ t, if decide (t.1 = r.1) then (t.1, r.2) else t) <$> tbl
  else tbl ++ [r].

(** [INSERT INTO target SELECT ... FROM stg ON CONFLICT ... DO UPDATE]:
    the staged rows are merged in staging order.  The engine refuses to
    touch one target row twice in a single statement; [seen] holds the
    keys the statement has written so far. *)
Fixpoint insert_on_conflict (seen : list K) (stg tbl : list (K * V))
  : option (list (K * V)) :=
  match stg with
  | [] => Some tbl
  | r :: rest =>
      if has_null r.1 then insert_on_conflict seen rest (upsert_row tbl r)
      else if decide (r.1 ∈ seen) then None
      else insert_on_conflict (r.1 :: seen) rest (upsert_row tbl r)
  end.
End insert_on_conflict.

Definition energy_key_has_null (k : energy_key) : bool :=
  isna k.1.1 || isna k.1.2 || isna k.2.
Definition emissions_key_has_null (k : emissions_key) : bool :=
  isna k.1.1 || isna k.1.2 || isna k.2.
Definition intensity_key_has_null (k : intensity_key) : bool :=
  isna k.1 || isna k.2.

Definition merge_fact_energy (stg : list (energy_key * energy_metrics)) : Tx unit :=
  λ w,
    match insert_on_conflict energy_key_has_null [] stg
            (fact_energy_monthly (tbl w)) with
    | Some rows => (Ok tt, Warehouse (set_fact_energy rows (tbl w)) (seqs w))
    | None => (Raise (CardinalityViolation "fact_energy_monthly"), w)
    end.

Definition merge_fact_emissions (stg : list (emissions_key * emissions_metrics))
  : Tx unit :=
  λ w,
    match insert_on_conflict emissions_key_has_null [] stg
            (fact_emissions_monthly (tbl w)) with
    | Some rows => (Ok tt, Warehouse (set_fact_emissions rows (tbl w)) (seqs w))
    | None => (Raise (CardinalityViolation "fact_emissions_monthly"), w)
    end.

Definition merge_fact_intensity (stg : list (intensity_key * intensity_metrics))
  : Tx unit :=
  λ w,
    match insert_on_conflict intensity_key_has_null [] stg
            (fact_carbon_intensity (tbl w)) with
    | Some rows => (Ok tt, Warehouse (set_fact_intensity rows (tbl w)) (seqs w))
    | None => (Raise (CardinalityViolation "fact_carbon_intensity"), w)
    end.

Definition upsert_fact_energy (df : energy_frame) : Tx unit :=
  to_sql "stg_fact_energy" (StgEnergy (energy_rows df));;
  merge_fact_energy (energy_rows df);;
  drop_table_if_exists "stg_fact_energy".

Definition upsert_fact_emissions (df : emissions_frame) : Tx unit :=
  to_sql "stg_fact_emissions" (StgEmissions (emissions_rows df));;
  merge_fact_emissions (emissions_rows df);;
  drop_table_if_exists "stg_fact_emissions".

Definition upsert_fact_intensity (df : intensity_frame) : Tx unit :=
  to_sql "stg_fact_intensity" (StgIntensity (intensity_rows df));;
  merge_fact_intensity (intensity_rows df);;
  drop_table_if_exists "stg_fact_intensity".

(** ** The load *)

Definition query {A} (f : warehouse → A) : Tx A := λ w, (Ok (f w), w).

(** [set(zip(energy_m.year, energy_m.month)) | set(zip(emis_m...)) |
     set(zip(intensity...))], as [list(ym)] lists it.  The list holds every
    pair of the three marts once.  Its order is the model's own: CPython
    lists a set in the order of its hash table, and may list the same pairs
    in another order.  [upsert_dim_time] inserts the pairs as they come, so
    the order decides which of the new ids a new pair gets, and nothing
    else. *)
Definition year_months (g : marts) : list (Z * Z) :=
  list_union
    (list_union (py_set (zip (em_year <$> energy_m g) (em_month <$> energy_m g)))
                (py_set (zip (xm_year <$> emis_m g) (xm_month <$> emis_m g))))
    (py_set (zip (im_year <$> intensity g) (im_month <$> intensity g))).

(** Steps 1 and 2 of [main]. *)
Definition register_dimensions (g : marts) : Tx unit :=
  upsert_dim_table Region (em_region <$> energy_m g);;
  upsert_dim_table EnergySource (em_energy_source <$> energy_m g);;
  upsert_dim_table Sector (xm_sector <$> emis_m g);;
  upsert_dim_time (year_months g).

Record fact_frames := FactFrames {
  energy_fact : energy_frame;
  emissions_fact : emissions_frame;
  intensity_fact : intensity_frame
}.

(** Steps 3 and 4 of [main]: fetch the id maps, build the three frames. *)
Definition build_facts (g : marts) (w : warehouse) : fact_frames :=
  let region_map := fetch_dim_map Region w in
  let source_map := fetch_dim_map EnergySource w in
  let sector_map := fetch_dim_map Sector w in
  let time_map := fetch_time_map w in
  {| energy_fact := build_energy_fact region_map source_map time_map (energy_m g);
     emissions_fact := build_emissions_fact region_map sector_map time_map (emis_m g);
     intensity_fact := build_intensity_fact region_map time_map (intensity g) |}.

Definition guard_input (f : fact_frames) : list (string * list (string * bool)) :=
  [("energy_fact", energy_isna_any (energy_fact f));
   ("emissions_fact", emissions_isna_any (emissions_fact f));
   ("intensity_fact", intensity_isna_any (intensity_fact f))].

(** Step 6 of [main]. *)
Definition upsert_facts (f : fact_frames) : Tx unit :=
  upsert_fact_energy (energy_fact f);;
  upsert_fact_emissions (emissions_fact f);;
  upsert_fact_intensity (intensity_fact f).

(** The body of [with engine.begin() as conn:]. *)
Definition load (g : marts) : Tx unit :=
  register_dimensions g;;
  f ← query (build_facts g);
  fail_fast (guard_input f);;
  upsert_facts f.

Definition main (g : marts) : Tx unit := engine_begin (load g).

(** * Vocabulary of the properties

    Nothing below is part of the loader: these are the states its steps
    leave, written out, the predicates the properties are stated with, and
    the data of the examples. *)

(** ** States left by the steps *)

(** The state after [upsert_dim_table]. *)
Definition dim_registered (table : dimension) (values : list string)
    (w : warehouse) : warehouse :=
  let stg := sorted (py_set values) in
  if decide (stg = []) then w
  else
    let new := missing_names (get_dim table (tbl w)) stg in
    Warehouse
      (set_staging (delete (staging_name (table_name table)) (staging (tbl w)))
         (set_dim table
            (get_dim table (tbl w) ++ new_dim_rows (get_seq table (seqs w)) new)
            (tbl w)))
      (set_seq table (get_seq table (seqs w) + Z.of_nat (length new)) (seqs w)).

(** The state after [upsert_dim_time]. *)
Definition time_registered (year_month_pairs : list (Z * Z)) (w : warehouse)
  : warehouse :=
  if decide (year_month_pairs = []) then w
  else
    let new := missing_pairs (dim_time (tbl w)) (drop_duplicates year_month_pairs) in
    Warehouse
      (set_staging (delete "stg_dim_time" (staging (tbl w)))
         (set_dim_time
            (dim_time (tbl w) ++ new_time_rows (time_id_seq (seqs w)) new)
            (tbl w)))
      (set_time_seq (time_id_seq (seqs w) + Z.of_nat (length new)) (seqs w)).

(** The state after steps 1 and 2 of [main]. *)
Definition registered (g : marts) (w : warehouse) : warehouse :=
  time_registered (year_months g)
    (dim_registered Sector (xm_sector <$> emis_m g)
       (dim_registered EnergySource (em_energy_source <$> energy_m g)
          (dim_registered Region (em_region <$> energy_m g) w))).

(** The state after a fact upsert whose merge wrote [rows]. *)
Definition energy_upserted rows (w : warehouse) : warehouse :=
  Warehouse
    (set_staging (delete "stg_fact_energy" (staging (tbl w)))
       (set_fact_energy rows (tbl w)))
    (seqs w).

Definition emissions_upserted rows (w : warehouse) : warehouse :=
  Warehouse
    (set_staging (delete "stg_fact_emissions" (staging (tbl w)))
       (set_fact_emissions rows (tbl w)))
    (seqs w).

Definition intensity_upserted rows (w : warehouse) : warehouse :=
  Warehouse
    (set_staging (delete "stg_fact_intensity" (staging (tbl w)))
       (set_fact_intensity rows (tbl w)))
    (seqs w).

(** The state in which a fact upsert is left when its merge raises: the
    staging table is still there. *)
Definition staged_only (stg : string) (df : staged) (w : warehouse) : warehouse :=
  Warehouse (set_staging (<[stg := df]> (staging (tbl w))) (tbl w)) (seqs w).

(** [w] with its three fact tables replaced. *)
Definition facts_replaced e x i (w : warehouse) : warehouse :=
  Warehouse
    (set_fact_intensity i (set_fact_emissions x (set_fact_energy e (tbl w))))
    (seqs w).

(** ** Rows, keys and merges *)

(** The fact row of one mart row, given the id maps. *)
Definition energy_fact_row (region_map source_map : gmap string Z)
    (time_map : gmap (Z * Z) Z) (r : energy_mart_row)
  : energy_key * energy_metrics :=
  ((region_map !! em_region r, source_map !! em_energy_source r,
    time_map !! (em_year r, em_month r)),
   (em_avg_consumption_mwh r, em_max_consumption_mwh r, em_avg_temp_c r,
    em_records r)).

Definition emissions_fact_row (region_map sector_map : gmap string Z)
    (time_map : gmap (Z * Z) Z) (r : emissions_mart_row)
  : emissions_key * emissions_metrics :=
  ((region_map !! xm_region r, sector_map !! xm_sector r,
    time_map !! (xm_year r, xm_month r)),
   (xm_avg_co2_tonnes r, xm_total_co2_tonnes r, xm_records r)).

Definition intensity_fact_row (region_map : gmap string Z)
    (time_map : gmap (Z * Z) Z) (r : intensity_mart_row)
  : intensity_key * intensity_metrics :=
  ((region_map !! im_region r, time_map !! (im_year r, im_month r)),
   (im_total_energy_mwh r, im_total_co2_tonnes r, im_co2_per_mwh r)).

Definition fact_staging_names : list string :=
  ["stg_fact_energy"; "stg_fact_emissions"; "stg_fact_intensity"].

Definition energy_natural_key (r : energy_mart_row) : string * string * Z * Z :=
  (em_region r, em_energy_source r, em_year r, em_month r).
Definition emissions_natural_key (r : emissions_mart_row) : string * string * Z * Z :=
  (xm_region r, xm_sector r, xm_year r, xm_month r).
Definition intensity_natural_key (r : intensity_mart_row) : string * Z * Z :=
  (im_region r, im_year r, im_month r).

(** [g'] has, row by row, the natural keys of [g]; the metrics may differ. *)
Definition same_natural_keys (g g' : marts) : Prop :=
  energy_natural_key <$> energy_m g' = energy_natural_key <$> energy_m g ∧
  emissions_natural_key <$> emis_m g' = emissions_natural_key <$> emis_m g ∧
  intensity_natural_key <$> intensity g' = intensity_natural_key <$> intensity g.

(** No metric cell of the marts is missing. *)
Definition metrics_defined (g : marts) : bool :=
  negb (col_has_na (em_avg_consumption_mwh <$> energy_m g)
        || col_has_na (em_max_consumption_mwh <$> energy_m g)
        || col_has_na (em_avg_temp_c <$> energy_m g)
        || col_has_na (xm_avg_co2_tonnes <$> emis_m g)
        || col_has_na (xm_total_co2_tonnes <$> emis_m g)
        || col_has_na (im_total_energy_mwh <$> intensity g)
        || col_has_na (im_total_co2_tonnes <$> intensity g)
        || col_has_na (im_co2_per_mwh <$> intensity g)).

Section merge_vocabulary.
Context {K V : Type}.
Variable has_null : K → bool.

(** No key of the staged rows holds a NULL. *)
Definition complete_keys (stg : list (K * V)) : Prop :=
  Forall (λ r, has_null r.1 = false) stg.

(** The target holds the staged row [r]: its key is there, and whatever
    row carries that key carries the metrics of [r]. *)
Definition holds (tbl : list (K * V)) (r : K * V) : Prop :=
  r.1 ∈ tbl.*1 ∧ ∀ t, t ∈ tbl → t.1 = r.1 → t.2 = r.2.
End merge_vocabulary.

(** ** Example data *)

Definition empty_warehouse : warehouse :=
  Warehouse (Tables [] [] [] [] [] [] [] ∅) (Sequences 1 1 1 1).

(** A warehouse holding the regions North and South. *)
Definition north_south : warehouse :=
  (upsert_dim_table Region ["North"; "South"] empty_warehouse).2.

(** An emissions row for a region the energy mart never registered. *)
Definition marts_unregistered_region : marts :=
  Marts
    [EnergyMartRow "North" "solar" 2024 1 (cell 40) (cell 55) (cell 3) 31]
    [EmissionsMartRow "West" "industry" 2024 1 (cell 7) (cell 217) 31]
    [IntensityMartRow "North" 2024 1 (cell 1240) (cell 217)
       (co2_per_mwh (cell 217) (cell 1240))].

(** The scenario of the specification: North, January 2024, no energy and
    120 tonnes of CO2. *)
Definition marts_zero_energy : marts :=
  Marts
    [EnergyMartRow "North" "solar" 2024 1 (cell 0) (cell 0) (cell 3) 31]
    [EmissionsMartRow "North" "industry" 2024 1 (cell 4) (cell 120) 30]
    [carbon_intensity_row "North" 2024 1 (cell 0) (cell 120)].

(** Two frames with a missing value: an emissions row for a region the
    energy mart never registered, and a carbon-intensity row without
    energy. *)
Definition marts_two_bad_frames : marts :=
  Marts
    [EnergyMartRow "North" "solar" 2024 1 (cell 0) (cell 0) (cell 3) 31]
    [EmissionsMartRow "West" "industry" 2024 1 (cell 4) (cell 120) 30]
    [carbon_intensity_row "North" 2024 1 (cell 0) (cell 120)].

(** Two emissions rows for one key: the emissions merge raises after the
    dimensions were registered and the energy facts merged. *)
Definition marts_duplicate_key : marts :=
  Marts
    [EnergyMartRow "North" "solar" 2024 1 (cell 40) (cell 55) (cell 3) 31]
    [EmissionsMartRow "North" "industry" 2024 1 (cell 7) (cell 217) 31;
     EmissionsMartRow "North" "industry" 2024 1 (cell 8) (cell 248) 31]
    [].

(** Two months of energy, emissions and carbon intensity for two regions. *)
Definition marts_january : marts :=
  Marts
    [EnergyMartRow "North" "solar" 2024 1 (cell 40) (cell 55) (cell 3) 31;
     EnergyMartRow "South" "wind" 2024 1 (cell 40.5) (cell 60) (cell 9) 31;
     EnergyMartRow "North" "wind" 2024 2 (cell 38) (cell 51) (cell 4) 29]
    [EmissionsMartRow "North" "industry" 2024 1 (cell 7) (cell 217) 31;
     EmissionsMartRow "South" "transport" 2024 2 (cell 5) (cell 145) 29]
    [IntensityMartRow "North" 2024 1 (cell 1240) (cell 217)
       (co2_per_mwh (cell 217) (cell 1240))].

(** The marts of [marts_january] with revised metrics. *)
Definition marts_january_revised : marts :=
  Marts
    [EnergyMartRow "North" "solar" 2024 1 (cell 42) (cell 56) (cell 3) 31;
     EnergyMartRow "South" "wind" 2024 1 (cell 41) (cell 61) (cell 9) 31;
     EnergyMartRow "North" "wind" 2024 2 (cell 37) (cell 50) (cell 4) 29]
    [EmissionsMartRow "North" "industry" 2024 1 (cell 8) (cell 248) 31;
     EmissionsMartRow "South" "transport" 2024 2 (cell 6) (cell 174) 29]
    [IntensityMartRow "North" 2024 1 (cell 1302) (cell 248)
       (co2_per_mwh (cell 248) (cell 1302))].

(** ** Well-formed dimensions *)

(** The unique constraints of the dimension tables: one row per name, one
    row per year-month pair. *)
Definition dimensions_unique (t : tables) : Prop :=
  (∀ d, NoDup (dim_name <$> get_dim d t)) ∧ NoDup (time_key <$> dim_time t).

(** The names [main] registers in a dimension. *)
Definition candidates (g : marts) (d : dimension) : list string :=
  match d with
  | Region => em_region <$> energy_m g
  | EnergySource => em_energy_source <$> energy_m g
  | Sector => xm_sector <$> emis_m g
  end.

(** ** Well-formed fact tables *)

(** The unique constraints of the fact tables: one row per key tuple. *)
Definition fact_keys_unique (t : tables) : Prop :=
  NoDup (fact_energy_monthly t).*1 ∧
  NoDup (fact_emissions_monthly t).*1 ∧
  NoDup (fact_carbon_intensity t).*1.

(** A foreign-key cell that holds an id holds the id of a row. *)
Definition ref_ok (ids : list Z) (cell : option Z) : Prop :=
  ∀ id, cell = Some id → id ∈ ids.

(** Every foreign key of every fact row is the id of a dimension row. *)
Definition references_resolve (t : tables) : Prop :=
  (∀ r, r ∈ fact_energy_monthly t →
     ref_ok (dim_id <$> dim_region t) r.1.1.1 ∧
     ref_ok (dim_id <$> dim_energy_source t) r.1.1.2 ∧
     ref_ok (time_id <$> dim_time t) r.1.2) ∧
  (∀ r, r ∈ fact_emissions_monthly t →
     ref_ok (dim_id <$> dim_region t) r.1.1.1 ∧
     ref_ok (dim_id <$> dim_sector t) r.1.1.2 ∧
     ref_ok (time_id <$> dim_time t) r.1.2) ∧
  (∀ r, r ∈ fact_carbon_intensity t →
     ref_ok (dim_id <$> dim_region t) r.1.1 ∧
     ref_ok (time_id <$> dim_time t) r.1.2).

(** * The GOLD step ([src/20_gold/silver_to_gold.py])

    The script reads the two SILVER tables and writes the three marts the
    loader reads.  The script names its reductions (["sum"], ["mean"],
    ["max"]) and leaves their float64 arithmetic to pandas; the marts are
    defined for any such reductions, and what is proved about them holds
    whatever the reductions round to. *)

(** A timestamp of the [date] column, as far as [.dt.year] and [.dt.month]
    see it.  The key columns of a SILVER row are never missing: the SILVER
    step ([src/10_silver/bronze_to_silver.py]) writes [region],
    [energy_source] and [sector] through [astype(str)] and drops the rows
    without a date, so [groupby] drops no row for a missing key. *)
Record date := Date { d_year : Z; d_month : Z; d_day : Z }.

Record energy_silver_row := EnergySilverRow {
  es_date : date;
  es_region : string;
  es_energy_source : string;
  es_consumption_mwh : float;
  es_temperature_c : float
}.

Record emissions_silver_row := EmissionsSilverRow {
  xs_date : date;
  xs_region : string;
  xs_sector : string;
  xs_co2_tonnes : float
}.

(** [df["year"] = df["date"].dt.year; df["month"] = df["date"].dt.month] *)
Definition es_year (r : energy_silver_row) : Z := d_year (es_date r).
Definition es_month (r : energy_silver_row) : Z := d_month (es_date r).
Definition xs_year (r : emissions_silver_row) : Z := d_year (xs_date r).
Definition xs_month (r : emissions_silver_row) : Z := d_month (xs_date r).

(** The order of group keys: tuples compare component by component. *)
Definition lex (c1 c2 : comparison) : comparison :=
  match c1 with Eq => c2 | _ => c1 end.

Definition key4_compare (a b : string * string * Z * Z) : comparison :=
  lex (String.compare a.1.1.1 b.1.1.1)
    (lex (String.compare a.1.1.2 b.1.1.2)
       (lex (Z.compare a.1.2 b.1.2) (Z.compare a.2 b.2))).

Definition key3_compare (a b : string * Z * Z) : comparison :=
  lex (String.compare a.1.1 b.1.1)
    (lex (Z.compare a.1.2 b.1.2) (Z.compare a.2 b.2)).

Definition key4_le (a b : string * string * Z * Z) : Prop :=
  key4_compare a b ≠ Gt.
Definition key3_le (a b : string * Z * Z) : Prop := key3_compare a b ≠ Gt.

Global Instance comparison_eq_dec : EqDecision comparison.
Proof. solve_decision. Defined.
Global Instance key4_le_dec a b : Decision (key4_le a b).
Proof. unfold key4_le. apply _. Defined.
Global Instance key3_le_dec a b : Decision (key3_le a b).
Proof. unfold key3_le. apply _. Defined.

Section groupby.
Context {R K : Type} `{EqDecision K}.
Variable key : R → K.
Variable key_le : relation K.
Context `{∀ x y, Decision (key_le x y)}.

(** [df.groupby(keys)]: the distinct keys in ascending order ... *)
Definition group_keys (rows : list R) : list K :=
  merge_sort key_le (remove_dups (key <$> rows)).

(** ... and, for a key, its rows in the order of the frame. *)
Definition group (rows : list R) (k : K) : list R :=
  filter (λ r, key r = k) rows.

(** [.agg(...)], one output row per group. *)
Definition groupby_agg {A} (agg : K → list R → A) (rows : list R) : list A :=
  (λ k, agg k (group rows k)) <$> group_keys rows.
End groupby.

(** The aggregations skip missing values. *)
Definition dropna (col : list float) : list f64 := omap id col.

(** The float64 reductions of a group: each takes the values present in
    the group, at least one, in the order of the frame, and returns a
    binary64 value.  How pandas adds them up (in which order, with which
    compensation) is pandas' own and is left open. *)
Record reductions := Reductions {
  f64_sum : list f64 → PrimFloat.float;
  f64_mean : list f64 → PrimFloat.float;
  f64_max : list f64 → PrimFloat.float
}.

(** The reductions that work through the values from left to right, with
    binary64 operations; the examples are run with them. *)
Definition left_to_right : reductions :=
  let sum xs := fold_left (λ acc x, PrimFloat.add acc (f64_val x)) xs 0%float in
  let count (xs : list f64) := fold_left (λ n _, PrimFloat.add n 1) xs 0%float in
  {| f64_sum := sum;
     f64_mean := λ xs, PrimFloat.div (sum xs) (count xs);
     f64_max := λ xs,
       match xs with
       | [] => PrimFloat.nan
       | x :: rest =>
           fold_left (λ acc y, if PrimFloat.ltb acc (f64_val y)
                               then f64_val y else acc) rest (f64_val x)
       end |}.

(** ["sum"]: the sum of the values present, 0 when there is none. *)
Definition agg_sum (fl : reductions) (col : list float) : float :=
  match dropna col with
  | [] => cell 0
  | xs => cell (f64_sum fl xs)
  end.

(** ["mean"]: missing when no value is present. *)
Definition agg_mean (fl : reductions) (col : list float) : float :=
  match dropna col with
  | [] => None
  | xs => cell (f64_mean fl xs)
  end.

(** ["max"]: missing when no value is present. *)
Definition agg_max (fl : reductions) (col : list float) : float :=
  match dropna col with
  | [] => None
  | xs => cell (f64_max fl xs)
  end.

(** ["size"]: the number of rows of the group. *)
Definition agg_size {R} (rows : list R) : Z := Z.of_nat (length rows).

Definition energy_group_key (r : energy_silver_row) : string * string * Z * Z :=
  (es_region r, es_energy_source r, es_year r, es_month r).
Definition emissions_group_key (r : emissions_silver_row)
  : string * string * Z * Z :=
  (xs_region r, xs_sector r, xs_year r, xs_month r).
Definition energy_total_key (r : energy_silver_row) : string * Z * Z :=
  (es_region r, es_year r, es_month r).
Definition emissions_total_key (r : emissions_silver_row) : string * Z * Z :=
  (xs_region r, xs_year r, xs_month r).

(** GOLD MART 1 *)
Definition energy_monthly (fl : reductions) (energy : list energy_silver_row)
  : list energy_mart_row :=
  groupby_agg energy_group_key key4_le
    (λ k grp,
       {| em_region := k.1.1.1; em_energy_source := k.1.1.2;
          em_year := k.1.2; em_month := k.2;
          em_avg_consumption_mwh := agg_mean fl (es_consumption_mwh <$> grp);
          em_max_consumption_mwh := agg_max fl (es_consumption_mwh <$> grp);
          em_avg_temp_c := agg_mean fl (es_temperature_c <$> grp);
          em_records := agg_size grp |})
    energy.

(** GOLD MART 2 *)
Definition emissions_monthly (fl : reductions)
    (emissions : list emissions_silver_row) : list emissions_mart_row :=
  groupby_agg emissions_group_key key4_le
    (λ k grp,
       {| xm_region := k.1.1.1; xm_sector := k.1.1.2;
          xm_year := k.1.2; xm_month := k.2;
          xm_avg_co2_tonnes := agg_mean fl (xs_co2_tonnes <$> grp);
          xm_total_co2_tonnes := agg_sum fl (xs_co2_tonnes <$> grp);
          xm_records := agg_size grp |})
    emissions.

(** GOLD MART 3: totals per region and month ... *)
Definition energy_totals (fl : reductions) (energy : list energy_silver_row)
  : list ((string * Z * Z) * float) :=
  groupby_agg energy_total_key key3_le
    (λ k grp, (k, agg_sum fl (es_consumption_mwh <$> grp))) energy.

Definition emissions_totals (fl : reductions)
    (emissions : list emissions_silver_row)
  : list ((string * Z * Z) * float) :=
  groupby_agg emissions_total_key key3_le
    (λ k grp, (k, agg_sum fl (xs_co2_tonnes <$> grp))) emissions.

(** ... [energy_totals.merge(emissions_totals, on=[...], how="inner")]:
    the pairs of rows with equal keys, in the order of the left frame. *)
Definition merge_inner {K A B} `{EqDecision K}
    (left : list (K * A)) (right : list (K * B)) : list (K * A * B) :=
  l ← left; (λ r, (l.1, l.2, r.2)) <$> filter (λ r, r.1 = l.1) right.

(** ... and the ratio. *)
Definition carbon_intensity (fl : reductions) (energy : list energy_silver_row)
    (emissions : list emissions_silver_row) : list intensity_mart_row :=
  (λ m, carbon_intensity_row m.1.1.1.1 m.1.1.1.2 m.1.1.2 m.1.2 m.2)
    <$> merge_inner (energy_totals fl energy) (emissions_totals fl emissions).

(** The three marts the script writes. *)
Definition gold (fl : reductions) (energy : list energy_silver_row)
    (emissions : list emissions_silver_row) : marts :=
  {| energy_m := energy_monthly fl energy;
     emis_m := emissions_monthly fl emissions;
     intensity := carbon_intensity fl energy emissions |}.

(** Example SILVER tables: North has two days of January without
    consumption. *)
Definition silver_energy_example : list energy_silver_row :=
  [EnergySilverRow (Date 2024 1 5) "North" "Gas" (cell 0) (cell 3);
   EnergySilverRow (Date 2024 1 6) "North" "Gas" (cell 0) (cell 4);
   EnergySilverRow (Date 2024 1 5) "South" "Gas" (cell 910) (cell 8);
   EnergySilverRow (Date 2024 2 1) "South" "Oil" (cell 45) (cell 9);
   EnergySilverRow (Date 2024 1 9) "South" "Gas" (cell 890) (cell 7)].

Definition silver_emissions_example : list emissions_silver_row :=
  [EmissionsSilverRow (Date 2024 1 5) "North" "Industry" (cell 120);
   EmissionsSilverRow (Date 2024 1 5) "South" "Industry" (cell 400);
   EmissionsSilverRow (Date 2024 1 7) "South" "Transport" (cell 30);
   EmissionsSilverRow (Date 2024 3 1) "East" "Transport" (cell 10)].

(** SILVER tables whose marts load: every region of the emissions table
    has energy rows in the same months, and no group is without energy. *)
Definition silver_energy_loadable : list energy_silver_row :=
  [EnergySilverRow (Date 2024 1 5) "North" "Gas" (cell 500) (cell 3);
   EnergySilverRow (Date 2024 1 6) "North" "Gas" (cell 700) (cell 4);
   EnergySilverRow (Date 2024 1 5) "South" "Gas" (cell 910) (cell 8);
   EnergySilverRow (Date 2024 2 1) "South" "Oil" (cell 45) (cell 9);
   EnergySilverRow (Date 2024 1 9) "South" "Gas" (cell 890) (cell 7)].

Definition silver_emissions_loadable : list emissions_silver_row :=
  [EmissionsSilverRow (Date 2024 1 5) "North" "Industry" (cell 120);
   EmissionsSilverRow (Date 2024 1 5) "South" "Industry" (cell 400);
   EmissionsSilverRow (Date 2024 1 7) "South" "Transport" (cell 30);
   EmissionsSilverRow (Date 2024 2 3) "South" "Transport" (cell 10)].

(** The sum of a column of counts. *)
Definition z_sum (col : list Z) : Z := foldr Z.add 0 col.

(** The primary keys of the dimension tables: ids are unique, and every id
    in use was drawn from the table's sequence. *)
Definition primary_keys_ok (w : warehouse) : Prop :=
  (∀ d, NoDup (dim_id <$> get_dim d (tbl w)) ∧
        Forall (λ id, id < get_seq d (seqs w)) (dim_id <$> get_dim d (tbl w))) ∧
  NoDup (time_id <$> dim_time (tbl w)) ∧
  Forall (λ id, id < time_id_seq (seqs w)) (time_id <$> dim_time (tbl w)).

(** * Properties *)

(** ** The order used by [sorted] *)

Lemma ascii_compare_lt_trans (a b c : Ascii.ascii) :
  Ascii.compare a b = Lt → Ascii.compare b c = Lt → Ascii.compare a c = Lt.
Proof.
  unfold Ascii.compare. rewrite !N.compare_lt_iff. apply N.lt_trans.
Qed.

Lemma string_compare_lt_trans (s1 s2 s3 : string) :
  String.compare s1 s2 = Lt → String.compare s2 s3 = Lt →
  String.compare s1 s3 = Lt.
Proof.
  revert s2 s3. induction s1 as [|a s1 IH]; intros [|b s2] [|c s3]; simpl;
    try congruence.
  destruct (Ascii.compare a b) eqn:Hab; try discriminate;
    destruct (Ascii.compare b c) eqn:Hbc; try discriminate; intros H12 H23.
  - pose proof (Ascii.compare_eq_iff _ _ Hab). subst.
    rewrite Hbc. eauto.
  - pose proof (Ascii.compare_eq_iff _ _ Hab). subst. by rewrite Hbc.
  - pose proof (Ascii.compare_eq_iff _ _ Hbc). subst. by rewrite Hab.
  - by rewrite (ascii_compare_lt_trans _ _ _ Hab Hbc).
Qed.

Global Instance str_le_trans : Transitive str_le.
Proof.
  intros s1 s2 s3. unfold str_le, String.leb.
  destruct (String.compare s1 s2) eqn:H12; try discriminate; intros _;
    destruct (String.compare s2 s3) eqn:H23; try discriminate; intros _.
  - pose proof (String.compare_eq_iff _ _ H12). subst. by rewrite H23.
  - pose proof (String.compare_eq_iff _ _ H12). subst. by rewrite H23.
  - pose proof (String.compare_eq_iff _ _ H23). subst. by rewrite H12.
  - by rewrite (string_compare_lt_trans _ _ _ H12 H23).
Qed.

Global Instance str_le_total : Total str_le.
Proof. intros s1 s2. apply String.leb_total. Qed.

Global Instance str_le_antisym : AntiSymm (=) str_le.
Proof. intros s1 s2. apply String.leb_antisym. Qed.

Lemma sorted_StronglySorted (xs : list string) : StronglySorted str_le (sorted xs).
Proof. apply StronglySorted_merge_sort; apply _. Qed.

Lemma elem_of_sorted (xs : list string) (x : string) : x ∈ sorted xs ↔ x ∈ xs.
Proof. unfold sorted. by rewrite merge_sort_Permutation. Qed.

Lemma NoDup_sorted (xs : list string) : NoDup xs → NoDup (sorted xs).
Proof. unfold sorted. by rewrite merge_sort_Permutation. Qed.

Lemma elem_of_sorted_set (values : list string) (x : string) :
  x ∈ sorted (py_set values) ↔ x ∈ values.
Proof. rewrite elem_of_sorted. apply elem_of_remove_dups. Qed.

Lemma NoDup_sorted_set (values : list string) : NoDup (sorted (py_set values)).
Proof. apply NoDup_sorted, NoDup_remove_dups. Qed.

(** Sorting erases the order and the multiplicities of the candidates. *)
Lemma sorted_set_ext (v1 v2 : list string) :
  (∀ x, x ∈ v1 ↔ x ∈ v2) → sorted (py_set v1) = sorted (py_set v2).
Proof.
  intros Hext. apply (StronglySorted_unique str_le);
    try apply sorted_StronglySorted.
  unfold sorted. rewrite !merge_sort_Permutation.
  apply NoDup_Permutation; try apply NoDup_remove_dups.
  intros x. by rewrite !elem_of_remove_dups.
Qed.

Lemma StronglySorted_filter {A} (R : relation A) (P : A → Prop)
    `{∀ x, Decision (P x)} (l : list A) :
  StronglySorted R l → StronglySorted R (filter P l).
Proof.
  induction 1 as [|x l Hl IH Hx]; [constructor|].
  rewrite filter_cons. destruct (decide (P x)); [|done].
  constructor; [done|].
  apply Forall_forall. intros y [_ Hy]%list_elem_of_filter.
  by eapply Forall_forall in Hx.
Qed.

(** ** [drop_duplicates] *)

Lemma elem_of_drop_duplicates {A} `{EqDecision A} (l : list A) (x : A) :
  x ∈ drop_duplicates l ↔ x ∈ l.
Proof.
  induction l as [|y l IH]; simpl; [done|].
  rewrite !elem_of_cons, list_elem_of_filter, IH.
  destruct (decide (x = y)); tauto.
Qed.

Lemma NoDup_drop_duplicates {A} `{EqDecision A} (l : list A) :
  NoDup (drop_duplicates l).
Proof.
  induction l as [|y l IH]; simpl; constructor.
  - rewrite list_elem_of_filter. by intros [Hne _].
  - by apply NoDup_filter.
Qed.

(** ** New dimension rows *)

Lemma new_dim_rows_names (seq : Z) (names : list string) :
  dim_name <$> new_dim_rows seq names = names.
Proof.
  unfold new_dim_rows. rewrite fmap_imap.
  rewrite (imap_ext _ (const id)); [|done].
  by rewrite imap_const, list_fmap_id.
Qed.

Lemma new_time_rows_keys (seq : Z) (pairs : list (Z * Z)) :
  time_key <$> new_time_rows seq pairs = pairs.
Proof.
  unfold new_time_rows. rewrite fmap_imap.
  rewrite (imap_ext _ (const id)); [|by intros ? [] ?].
  by rewrite imap_const, list_fmap_id.
Qed.

Lemma missing_names_none (rows : list dim_row) (stg : list string) :
  (∀ n, n ∈ stg → n ∈ dim_name <$> rows) → missing_names rows stg = [].
Proof.
  intros Hall. unfold missing_names.
  induction stg as [|n stg IH]; [done|].
  rewrite filter_cons_False; [|intros Hn; apply Hn, Hall; left].
  apply IH. intros m Hm. apply Hall. by right.
Qed.

Lemma missing_pairs_none (rows : list time_row) (stg : list (Z * Z)) :
  (∀ p, p ∈ stg → p ∈ time_key <$> rows) → missing_pairs rows stg = [].
Proof.
  intros Hall. unfold missing_pairs.
  induction stg as [|n stg IH]; [done|].
  rewrite filter_cons_False; [|intros Hn; apply Hn, Hall; left].
  apply IH. intros m Hm. apply Hall. by right.
Qed.

(** ** Statements in closed form *)

Ltac tx_unfold :=
  unfold mbind, Tx_bind, bind, mret, Tx_ret, ret, raise, query,
    to_sql, drop_table_if_exists, modify_tables in *.

Lemma bind_ok_inv {A B} (m : Tx A) (f : A → Tx B) w b w' :
  (m ≫= f) w = (Ok b, w') → ∃ a w1, m w = (Ok a, w1) ∧ f a w1 = (Ok b, w').
Proof.
  unfold mbind, Tx_bind, bind. destruct (m w) as [[a|e] w1]; [eauto|done].
Qed.

Lemma bind_raise_inv {A B} (m : Tx A) (f : A → Tx B) w e w' :
  (m ≫= f) w = (Raise e, w') →
  m w = (Raise e, w') ∨ ∃ a w1, m w = (Ok a, w1) ∧ f a w1 = (Raise e, w').
Proof.
  unfold mbind, Tx_bind, bind. destruct (m w) as [[a|e1] w1]; [eauto|].
  intros [= -> ->]. by left.
Qed.

Lemma staging_set_dim d rows t : staging (set_dim d rows t) = staging t.
Proof. by destruct d. Qed.

Lemma get_dim_set_dim d rows t : get_dim d (set_dim d rows t) = rows.
Proof. by destruct d. Qed.

Lemma get_dim_set_dim_ne d d' rows t :
  d ≠ d' → get_dim d' (set_dim d rows t) = get_dim d' t.
Proof. by destruct d, d'. Qed.

Lemma get_dim_set_staging d s t : get_dim d (set_staging s t) = get_dim d t.
Proof. by destruct d. Qed.

Lemma upsert_dim_table_eq table values w :
  upsert_dim_table table values w = (Ok tt, dim_registered table values w).
Proof.
  unfold upsert_dim_table, dim_registered.
  destruct (decide (sorted (py_set values) = [])) as [Hnil|Hne]; [done|].
  tx_unfold. unfold insert_missing_names. simpl.
  rewrite !get_dim_set_staging.
  destruct table; simpl; unfold set_staging; simpl;
    by rewrite delete_insert_eq.
Qed.

Lemma upsert_dim_time_eq pairs w :
  upsert_dim_time pairs w = (Ok tt, time_registered pairs w).
Proof.
  unfold upsert_dim_time, time_registered.
  destruct (decide (pairs = [])) as [Hnil|Hne]; [done|].
  tx_unfold. unfold insert_missing_pairs. simpl.
  unfold set_staging, set_dim_time. simpl. by rewrite delete_insert_eq.
Qed.

(** The rows a registration leaves in its dimension. *)
Lemma dim_registered_rows table values w :
  get_dim table (tbl (dim_registered table values w)) =
  get_dim table (tbl w) ++
  new_dim_rows (get_seq table (seqs w))
    (missing_names (get_dim table (tbl w)) (sorted (py_set values))).
Proof.
  unfold dim_registered.
  destruct (decide (sorted (py_set values) = [])) as [->|Hne].
  - by rewrite app_nil_r.
  - simpl. by rewrite get_dim_set_staging, get_dim_set_dim.
Qed.

Lemma time_registered_rows pairs w :
  dim_time (tbl (time_registered pairs w)) =
  dim_time (tbl w) ++
  new_time_rows (time_id_seq (seqs w))
    (missing_pairs (dim_time (tbl w)) (drop_duplicates pairs)).
Proof.
  unfold time_registered.
  destruct (decide (pairs = [])) as [->|Hne]; [|done].
  by rewrite app_nil_r.
Qed.

(** A registration touches no other dimension and no fact table. *)
Lemma dim_registered_frame table values w :
  (∀ d, d ≠ table →
     get_dim d (tbl (dim_registered table values w)) = get_dim d (tbl w)) ∧
  dim_time (tbl (dim_registered table values w)) = dim_time (tbl w) ∧
  fact_energy_monthly (tbl (dim_registered table values w)) =
    fact_energy_monthly (tbl w) ∧
  fact_emissions_monthly (tbl (dim_registered table values w)) =
    fact_emissions_monthly (tbl w) ∧
  fact_carbon_intensity (tbl (dim_registered table values w)) =
    fact_carbon_intensity (tbl w).
Proof.
  unfold dim_registered.
  destruct (decide (sorted (py_set values) = [])); [done|].
  split; [|by destruct table].
  intros d Hd. simpl. rewrite get_dim_set_staging.
  by apply get_dim_set_dim_ne.
Qed.

Lemma time_registered_frame pairs w :
  (∀ d, get_dim d (tbl (time_registered pairs w)) = get_dim d (tbl w)) ∧
  fact_energy_monthly (tbl (time_registered pairs w)) =
    fact_energy_monthly (tbl w) ∧
  fact_emissions_monthly (tbl (time_registered pairs w)) =
    fact_emissions_monthly (tbl w) ∧
  fact_carbon_intensity (tbl (time_registered pairs w)) =
    fact_carbon_intensity (tbl w).
Proof.
  unfold time_registered. destruct (decide (pairs = [])); [done|].
  split; [|done]. by intros [].
Qed.

(** ** Dimension registration is append-only *)

Lemma missing_names_spec rows stg n :
  n ∈ missing_names rows stg ↔ n ∈ stg ∧ n ∉ dim_name <$> rows.
Proof. unfold missing_names. rewrite list_elem_of_filter. tauto. Qed.

Lemma missing_pairs_spec rows stg p :
  p ∈ missing_pairs rows stg ↔ p ∈ stg ∧ p ∉ time_key <$> rows.
Proof. unfold missing_pairs. rewrite list_elem_of_filter. tauto. Qed.

(** C5: registration inserts exactly the distinct candidates that no
    existing row carries, after the existing rows, which stay as they are
    (rows and surrogate ids); every other table is left alone.  With no
    candidate, or with candidates that are all registered already, no row is
    written.  This holds for [upsert_dim_table] on every dimension and for
    [upsert_dim_time]. *)
Theorem registration_inserts_only_missing
    (table : dimension) (values : list string) (pairs : list (Z * Z))
    (w : warehouse) :
  let w1 := (upsert_dim_table table values w).2 in
  let w2 := (upsert_dim_time pairs w).2 in
  (∃ new,
     get_dim table (tbl w1) = get_dim table (tbl w) ++ new ∧
     NoDup (dim_name <$> new) ∧
     (∀ n, n ∈ dim_name <$> new ↔
           n ∈ values ∧ n ∉ dim_name <$> get_dim table (tbl w)) ∧
     ((∀ n, n ∈ values → n ∈ dim_name <$> get_dim table (tbl w)) → new = [])) ∧
  (∀ d, d ≠ table → get_dim d (tbl w1) = get_dim d (tbl w)) ∧
  dim_time (tbl w1) = dim_time (tbl w) ∧
  (∃ new,
     dim_time (tbl w2) = dim_time (tbl w) ++ new ∧
     NoDup (time_key <$> new) ∧
     (∀ p, p ∈ time_key <$> new ↔
           p ∈ pairs ∧ p ∉ time_key <$> dim_time (tbl w)) ∧
     ((∀ p, p ∈ pairs → p ∈ time_key <$> dim_time (tbl w)) → new = [])) ∧
  (∀ d, get_dim d (tbl w2) = get_dim d (tbl w)) ∧
  (values = [] → w1 = w) ∧ (pairs = [] → w2 = w).
Proof.
  intros w1 w2. subst w1 w2.
  rewrite upsert_dim_table_eq, upsert_dim_time_eq. simpl.
  destruct (dim_registered_frame table values w) as (Hd & Ht & _).
  destruct (time_registered_frame pairs w) as (Hd' & _).
  repeat split; try done.
  - eexists. split; [apply dim_registered_rows|].
    rewrite new_dim_rows_names. split; [|split].
    + apply NoDup_filter, NoDup_sorted_set.
    + intros n. by rewrite missing_names_spec, elem_of_sorted_set.
    + intros Hall. rewrite missing_names_none; [done|].
      intros n Hn. by apply Hall, elem_of_sorted_set.
  - eexists. split; [apply time_registered_rows|].
    rewrite new_time_rows_keys. split; [|split].
    + apply NoDup_filter, NoDup_drop_duplicates.
    + intros p. by rewrite missing_pairs_spec, elem_of_drop_duplicates.
    + intros Hall. rewrite missing_pairs_none; [done|].
      intros p Hp. by apply Hall, elem_of_drop_duplicates.
  - intros ->. reflexivity.
  - intros ->. reflexivity.
Qed.

(** The example scenario of the specification: registering North and South,
    then South and East, gives three rows and South keeps its id. *)
Example register_south_east :
  dim_region (tbl (upsert_dim_table Region ["South"; "East"] north_south).2) =
  [DimRow 1 "North"; DimRow 2 "South"; DimRow 3 "East"].
Proof. vm_compute. reflexivity. Qed.

(** ** Dimension registration depends on the set of candidates only *)

Lemma new_dim_rows_ids seq names i r :
  new_dim_rows seq names !! i = Some r → dim_id r = seq + Z.of_nat i.
Proof.
  unfold new_dim_rows. rewrite list_lookup_imap.
  destruct (names !! i); simpl; [|done]. by intros [= <-].
Qed.

(** C10: two candidate collections with the same distinct values make
    [upsert_dim_table] do the same thing to the same warehouse; the names it
    inserts are in ascending order, without repetition, and take consecutive
    sequence values in that order. *)
Theorem registration_depends_on_candidate_set
    (table : dimension) (v1 v2 : list string) (w : warehouse) :
  (∀ x, x ∈ v1 ↔ x ∈ v2) →
  upsert_dim_table table v1 w = upsert_dim_table table v2 w ∧
  ∃ new,
    get_dim table (tbl (upsert_dim_table table v1 w).2) =
      get_dim table (tbl w) ++ new ∧
    StronglySorted str_le (dim_name <$> new) ∧
    NoDup (dim_name <$> new) ∧
    (∀ i r, new !! i = Some r →
            dim_id r = get_seq table (seqs w) + Z.of_nat i).
Proof.
  intros Hext. split.
  - rewrite !upsert_dim_table_eq. unfold dim_registered.
    by rewrite (sorted_set_ext v1 v2 Hext).
  - rewrite upsert_dim_table_eq. simpl.
    eexists. split; [apply dim_registered_rows|].
    rewrite new_dim_rows_names. split; [|split].
    + apply StronglySorted_filter, sorted_StronglySorted.
    + apply NoDup_filter, NoDup_sorted_set.
    + apply new_dim_rows_ids.
Qed.

Lemma registration_depends_on_candidate_set_witness :
  upsert_dim_table Region ["South"; "East"; "South"] north_south =
  upsert_dim_table Region ["East"; "South"] north_south ∧
  ∃ new,
    get_dim Region
      (tbl (upsert_dim_table Region ["South"; "East"; "South"] north_south).2) =
      get_dim Region (tbl north_south) ++ new ∧
    StronglySorted str_le (dim_name <$> new) ∧
    NoDup (dim_name <$> new) ∧
    (∀ i r, new !! i = Some r →
            dim_id r = get_seq Region (seqs north_south) + Z.of_nat i).
Proof.
  apply (registration_depends_on_candidate_set Region
           ["South"; "East"; "South"] ["East"; "South"] north_south).
  intros x. rewrite !elem_of_cons, !elem_of_nil. tauto.
Defined.

(** ** The fact-row builder *)

Lemma zip_fmap_same {A B C} (f : A → B) (g : A → C) (l : list A) :
  zip (f <$> l) (g <$> l) = (λ x, (f x, g x)) <$> l.
Proof. induction l as [|x l IH]; csimpl; [done|]. by rewrite IH. Qed.

Lemma energy_rows_build rm sm tm m :
  energy_rows (build_energy_fact rm sm tm m) = energy_fact_row rm sm tm <$> m.
Proof.
  unfold energy_rows, build_energy_fact, series_map. simpl.
  rewrite zip_fmap_same, <- !list_fmap_compose, !zip_fmap_same.
  apply list_fmap_ext. by intros ? [] ?.
Qed.

Lemma emissions_rows_build rm cm tm m :
  emissions_rows (build_emissions_fact rm cm tm m) =
  emissions_fact_row rm cm tm <$> m.
Proof.
  unfold emissions_rows, build_emissions_fact, series_map. simpl.
  rewrite zip_fmap_same, <- !list_fmap_compose, !zip_fmap_same.
  apply list_fmap_ext. by intros ? [] ?.
Qed.

Lemma intensity_rows_build rm tm m :
  intensity_rows (build_intensity_fact rm tm m) = intensity_fact_row rm tm <$> m.
Proof.
  unfold intensity_rows, build_intensity_fact, series_map. simpl.
  rewrite zip_fmap_same, <- !list_fmap_compose, !zip_fmap_same.
  apply list_fmap_ext. by intros ? [] ?.
Qed.

(** C6: the builder is total; row by row it puts [map !! key] in every id
    column (the surrogate id when the map holds the natural key, the missing
    value [None] when it does not) and copies every metric column. *)
Theorem builder_substitutes_surrogate_ids
    (region_map source_map sector_map : gmap string Z)
    (time_map : gmap (Z * Z) Z) (g : marts) :
  energy_rows (build_energy_fact region_map source_map time_map (energy_m g)) =
    (λ r, ((region_map !! em_region r, source_map !! em_energy_source r,
            time_map !! (em_year r, em_month r)),
           (em_avg_consumption_mwh r, em_max_consumption_mwh r,
            em_avg_temp_c r, em_records r))) <$> energy_m g ∧
  emissions_rows (build_emissions_fact region_map sector_map time_map (emis_m g)) =
    (λ r, ((region_map !! xm_region r, sector_map !! xm_sector r,
            time_map !! (xm_year r, xm_month r)),
           (xm_avg_co2_tonnes r, xm_total_co2_tonnes r, xm_records r)))
      <$> emis_m g ∧
  intensity_rows (build_intensity_fact region_map time_map (intensity g)) =
    (λ r, ((region_map !! im_region r, time_map !! (im_year r, im_month r)),
           (im_total_energy_mwh r, im_total_co2_tonnes r, im_co2_per_mwh r)))
      <$> intensity g.
Proof.
  split; [|split].
  - apply energy_rows_build.
  - apply emissions_rows_build.
  - apply intensity_rows_build.
Qed.

(** A natural key the map does not hold: the id cell is missing, the row is
    still built. *)
Example builder_unregistered_region :
  energy_rows
    (build_energy_fact {["North" := 1]} {["solar" := 1]} {[(2024, 1) := 1]}
       [EnergyMartRow "West" "solar" 2024 1 (cell 2) (cell 3) (cell 1) 4]) =
  [((None, Some 1, Some 1), (cell 2, cell 3, cell 1, 4))].
Proof. vm_compute. reflexivity. Qed.

(** ** The id maps *)

Section dict_comprehension.
Context {A K V : Type} `{Countable K} (key : A → K) (val : A → V).

Lemma dict_fold_is_Some (rows : list A) (m0 : gmap K V) (k : K) :
  is_Some (fold_left (λ m r, <[key r := val r]> m) rows m0 !! k) ↔
  k ∈ key <$> rows ∨ is_Some (m0 !! k).
Proof.
  revert m0. induction rows as [|r rows IH]; intros m0; csimpl.
  - rewrite elem_of_nil. tauto.
  - rewrite IH, elem_of_cons, lookup_insert_is_Some.
    destruct (decide (key r = k)); intuition congruence.
Qed.
End dict_comprehension.

Lemma dim_map_is_Some rows n :
  is_Some (dict_of_dim_rows rows !! n) ↔ n ∈ dim_name <$> rows.
Proof.
  unfold dict_of_dim_rows. rewrite (dict_fold_is_Some dim_name dim_id).
  rewrite lookup_empty, is_Some_alt. tauto.
Qed.

Lemma time_map_is_Some rows p :
  is_Some (dict_of_time_rows rows !! p) ↔ p ∈ time_key <$> rows.
Proof.
  unfold dict_of_time_rows. rewrite (dict_fold_is_Some time_key time_id).
  rewrite lookup_empty, is_Some_alt. tauto.
Qed.

(** ** The state after steps 1 and 2 *)

Lemma register_dimensions_eq g w :
  register_dimensions g w = (Ok tt, registered g w).
Proof.
  unfold register_dimensions, registered, mbind, Tx_bind, bind.
  by rewrite !upsert_dim_table_eq, upsert_dim_time_eq.
Qed.

(** The body of the transaction, step by step. *)
Lemma load_eq g w :
  load g w =
  (fail_fast (guard_input (build_facts g (registered g w)));;
   upsert_facts (build_facts g (registered g w))) (registered g w).
Proof.
  unfold load. unfold mbind at 1 2. unfold Tx_bind, bind at 1 2.
  rewrite register_dimensions_eq. reflexivity.
Qed.

Lemma dim_registered_time_seq table values w :
  time_id_seq (seqs (dim_registered table values w)) = time_id_seq (seqs w).
Proof.
  unfold dim_registered.
  destruct (decide (sorted (py_set values) = [])); [done|]. by destruct table.
Qed.

Lemma dim_time_registered g w :
  dim_time (tbl (registered g w)) =
  dim_time (tbl w) ++
  new_time_rows (time_id_seq (seqs w))
    (missing_pairs (dim_time (tbl w)) (drop_duplicates (year_months g))).
Proof.
  unfold registered. rewrite time_registered_rows.
  rewrite !dim_registered_time_seq.
  rewrite (proj1 (proj2 (dim_registered_frame Sector _ _))).
  rewrite (proj1 (proj2 (dim_registered_frame EnergySource _ _))).
  by rewrite (proj1 (proj2 (dim_registered_frame Region _ _))).
Qed.

Lemma elem_of_year_months g p :
  p ∈ year_months g ↔
  (∃ r, r ∈ energy_m g ∧ p = (em_year r, em_month r)) ∨
  (∃ r, r ∈ emis_m g ∧ p = (xm_year r, xm_month r)) ∨
  (∃ r, r ∈ intensity g ∧ p = (im_year r, im_month r)).
Proof.
  unfold year_months, py_set.
  rewrite !list_elem_of_union, !elem_of_remove_dups, !zip_fmap_same,
    !list_elem_of_fmap.
  split.
  - intros [[(r & -> & ?)|(r & -> & ?)]|(r & -> & ?)]; eauto 6.
  - intros [(r & ? & ->)|[(r & ? & ->)|(r & ? & ->)]]; eauto 6.
Qed.

(** Every year-month pair of the marts is a row of [dim_time] once steps 1
    and 2 are done. *)
Lemma year_months_registered g w p :
  p ∈ year_months g → p ∈ time_key <$> dim_time (tbl (registered g w)).
Proof.
  intros Hp. rewrite dim_time_registered, fmap_app, new_time_rows_keys.
  rewrite elem_of_app, missing_pairs_spec, elem_of_drop_duplicates.
  destruct (decide (p ∈ time_key <$> dim_time (tbl w))); tauto.
Qed.

Lemma col_has_na_fmap {A B} (f : A → option B) (l : list A) :
  col_has_na (f <$> l) = false ↔ ∀ x, x ∈ l → is_Some (f x).
Proof.
  unfold col_has_na. induction l as [|x l IH]; csimpl.
  - split; [|done]. intros _ x Hx. by apply elem_of_nil in Hx.
  - rewrite orb_false_iff, IH. setoid_rewrite elem_of_cons. split.
    + intros [Hx Hl] y [->|Hy]; [|by apply Hl].
      destruct (f x); [by eexists|done].
    + intros Hall. split; [|by eauto].
      destruct (Hall x) as [b Hb]; [by left|]. by rewrite Hb.
Qed.

(** ** Time ids always resolve *)

(** C9: steps 1 and 2 register the year-month pairs of all three marts
    before the frames are built from the warehouse they leave; the time map
    fetched from that warehouse holds the pair of every mart row, and the
    [time_id] column of each of the three frames has no missing value. *)
Theorem time_ids_resolve_after_registration (g : marts) (w : warehouse) :
  let w' := (register_dimensions g w).2 in
  let f := build_facts g w' in
  load g w = (fail_fast (guard_input f);; upsert_facts f) w' ∧
  (∀ r, r ∈ energy_m g → is_Some (fetch_time_map w' !! (em_year r, em_month r))) ∧
  (∀ r, r ∈ emis_m g → is_Some (fetch_time_map w' !! (xm_year r, xm_month r))) ∧
  (∀ r, r ∈ intensity g → is_Some (fetch_time_map w' !! (im_year r, im_month r))) ∧
  col_has_na (ef_time_id (energy_fact f)) = false ∧
  col_has_na (xf_time_id (emissions_fact f)) = false ∧
  col_has_na (if_time_id (intensity_fact f)) = false.
Proof.
  intros w' f. subst f w'. rewrite register_dimensions_eq. simpl.
  assert (∀ p, p ∈ year_months g →
               is_Some (fetch_time_map (registered g w) !! p)) as Hres.
  { intros p Hp. unfold fetch_time_map.
    by apply time_map_is_Some, year_months_registered. }
  split; [apply load_eq|].
  assert (∀ r, r ∈ energy_m g →
      is_Some (fetch_time_map (registered g w) !! (em_year r, em_month r))) as He.
  { intros r Hr. apply Hres, elem_of_year_months. eauto. }
  assert (∀ r, r ∈ emis_m g →
      is_Some (fetch_time_map (registered g w) !! (xm_year r, xm_month r))) as Hx.
  { intros r Hr. apply Hres, elem_of_year_months. eauto. }
  assert (∀ r, r ∈ intensity g →
      is_Some (fetch_time_map (registered g w) !! (im_year r, im_month r))) as Hi.
  { intros r Hr. apply Hres, elem_of_year_months. eauto. }
  repeat split; try done.
  - unfold series_map. rewrite zip_fmap_same, <- list_fmap_compose.
    by apply col_has_na_fmap.
  - unfold series_map. rewrite zip_fmap_same, <- list_fmap_compose.
    by apply col_has_na_fmap.
  - unfold series_map. rewrite zip_fmap_same, <- list_fmap_compose.
    by apply col_has_na_fmap.
Qed.

(** ** The conflict-aware merge *)

Section merge_properties.
Context {K V : Type} `{EqDecision K}.
Variable has_null : K → bool.

Local Abbreviation upsert := (upsert_row (V:=V) has_null).
Local Abbreviation merge := (insert_on_conflict (V:=V) has_null).

Lemma upsert_row_update tbl r :
  has_null r.1 = false → r.1 ∈ tbl.*1 →
  upsert tbl r = (λ t, if decide (t.1 = r.1) then (t.1, r.2) else t) <$> tbl.
Proof.
  intros Hn Hin. unfold upsert_row. rewrite Hn. by rewrite decide_True.
Qed.

Lemma upsert_row_insert tbl r :
  r.1 ∉ tbl.*1 → upsert tbl r = tbl ++ [r].
Proof.
  intros Hin. unfold upsert_row. destruct (has_null r.1); [done|].
  by rewrite decide_False.
Qed.

(** An update changes no key, so it adds no row. *)
Lemma upsert_row_update_keys tbl r :
  has_null r.1 = false → r.1 ∈ tbl.*1 → (upsert tbl r).*1 = tbl.*1.
Proof.
  intros Hn Hin. rewrite upsert_row_update by done.
  rewrite <- list_fmap_compose. apply list_fmap_ext.
  intros i t _. simpl. by destruct (decide (t.1 = r.1)).
Qed.

Lemma upsert_row_holds tbl r :
  has_null r.1 = false → holds (upsert tbl r) r.
Proof.
  intros Hn. destruct (decide (r.1 ∈ tbl.*1)) as [Hin|Hin].
  - split; [by rewrite upsert_row_update_keys|].
    rewrite upsert_row_update by done.
    intros t (t0 & -> & Ht0)%list_elem_of_fmap.
    by destruct (decide (t0.1 = r.1)).
  - rewrite upsert_row_insert by done. split.
    + rewrite fmap_app, elem_of_app. right. by left.
    + intros t [Ht|Ht]%elem_of_app Hk.
      * exfalso. apply Hin. rewrite <- Hk. by apply list_elem_of_fmap_2.
      * apply list_elem_of_singleton in Ht. by subst.
Qed.

(** Merging a row leaves the rows of every other key as they are. *)
Lemma upsert_row_holds_other tbl r r' :
  r'.1 ≠ r.1 → holds tbl r' → holds (upsert tbl r) r'.
Proof.
  intros Hne [Hin Hval]. unfold upsert_row.
  assert (holds (tbl ++ [r]) r') as Happ.
  { split.
    - rewrite fmap_app, elem_of_app. by left.
    - intros t [Ht|Ht]%elem_of_app Hk; [by apply Hval|].
      apply list_elem_of_singleton in Ht. by subst. }
  destruct (has_null r.1); [done|].
  destruct (decide (r.1 ∈ tbl.*1)); [|done]. split.
  - rewrite <- list_fmap_compose.
    apply list_elem_of_fmap in Hin as (t & Hk & Ht).
    apply list_elem_of_fmap. exists t. split; [|done]. simpl.
    by destruct (decide (t.1 = r.1)).
  - intros t (t0 & -> & Ht0)%list_elem_of_fmap.
    destruct (decide (t0.1 = r.1)); simpl; [congruence|by apply Hval].
Qed.

Lemma fold_upsert_holds_other stg tbl r :
  (∀ r', r' ∈ stg → r'.1 ≠ r.1) → holds tbl r →
  holds (fold_left upsert stg tbl) r.
Proof.
  revert tbl. induction stg as [|r0 stg IH]; intros tbl Hne Hr; [done|].
  simpl. apply IH.
  - intros r' Hr'. apply Hne. by right.
  - apply upsert_row_holds_other; [|done]. apply not_eq_sym, Hne. by left.
Qed.

(** Last write wins: after the merge the target holds every staged row. *)
Lemma fold_upsert_holds stg tbl r :
  complete_keys has_null stg → NoDup stg.*1 → r ∈ stg →
  holds (fold_left upsert stg tbl) r.
Proof.
  revert tbl. induction stg as [|r0 stg IH]; intros tbl Hc Hnd Hr.
  { by apply elem_of_nil in Hr. }
  apply Forall_cons in Hc as [Hc0 Hc].
  rewrite fmap_cons in Hnd. apply NoDup_cons in Hnd as [Hr0 Hnd].
  simpl. apply elem_of_cons in Hr as [->|Hr]; [|by apply IH].
  apply fold_upsert_holds_other; [|by apply upsert_row_holds].
  intros r' Hr' Hk. apply Hr0. rewrite <- Hk. by apply list_elem_of_fmap_2.
Qed.

(** Merging a row the target already holds changes nothing. *)
Lemma upsert_row_id tbl r :
  has_null r.1 = false → holds tbl r → upsert tbl r = tbl.
Proof.
  intros Hn [Hin Hval]. rewrite upsert_row_update by done.
  rewrite <- (list_fmap_id tbl) at 2. apply list_fmap_ext.
  intros i t Ht%list_elem_of_lookup_2. simpl.
  destruct (decide (t.1 = r.1)) as [Hk|]; [|done].
  rewrite <- (Hval t Ht Hk). by destruct t.
Qed.

Lemma fold_upsert_id stg tbl :
  complete_keys has_null stg → (∀ r, r ∈ stg → holds tbl r) →
  fold_left upsert stg tbl = tbl.
Proof.
  induction stg as [|r0 stg IH]; intros Hc Hall; [done|].
  apply Forall_cons in Hc as [Hc0 Hc]. simpl.
  rewrite upsert_row_id; [|done|apply Hall; by left].
  apply IH; [done|]. intros r Hr. apply Hall. by right.
Qed.

(** When every staged key is in the target, the merge adds no row. *)
Lemma fold_upsert_keys stg tbl :
  complete_keys has_null stg → (∀ r, r ∈ stg → r.1 ∈ tbl.*1) →
  (fold_left upsert stg tbl).*1 = tbl.*1.
Proof.
  revert tbl. induction stg as [|r0 stg IH]; intros tbl Hc Hall; [done|].
  apply Forall_cons in Hc as [Hc0 Hc]. simpl.
  assert ((upsert tbl r0).*1 = tbl.*1) as Hk.
  { apply upsert_row_update_keys; [done|]. apply Hall. by left. }
  rewrite IH; [done|done|]. intros r Hr. rewrite Hk. apply Hall. by right.
Qed.

(** The unique constraint on the key tuple is kept. *)
Lemma fold_upsert_NoDup stg tbl :
  complete_keys has_null stg → NoDup tbl.*1 → NoDup (fold_left upsert stg tbl).*1.
Proof.
  revert tbl. induction stg as [|r0 stg IH]; intros tbl Hc Hnd; [done|].
  apply Forall_cons in Hc as [Hc0 Hc]. simpl. apply IH; [done|].
  destruct (decide (r0.1 ∈ tbl.*1)) as [Hin|Hin].
  - by rewrite upsert_row_update_keys.
  - rewrite upsert_row_insert by done. rewrite fmap_app.
    apply NoDup_app. split; [done|]. split; [|apply NoDup_singleton].
    intros k Hk ->%list_elem_of_singleton. done.
Qed.

(** The statement succeeds exactly when it writes no key twice, and then
    it is the row-by-row merge. *)
Lemma merge_Some seen stg tbl tbl' :
  complete_keys has_null stg → merge seen stg tbl = Some tbl' →
  tbl' = fold_left upsert stg tbl ∧ NoDup stg.*1 ∧
  ∀ r, r ∈ stg → r.1 ∉ seen.
Proof.
  revert seen tbl. induction stg as [|r0 stg IH]; intros seen tbl Hc; simpl.
  - intros [= <-]. split; [done|]. split; [constructor|].
    intros r Hr. by apply elem_of_nil in Hr.
  - apply Forall_cons in Hc as [Hc0 Hc]. rewrite Hc0.
    destruct (decide (r0.1 ∈ seen)) as [|Hseen]; [done|].
    intros (-> & Hnd & Hfresh)%IH; [|done]. split; [done|]. split.
    + constructor; [|done].
      intros (r & Hk & Hr)%list_elem_of_fmap.
      apply (Hfresh r Hr). rewrite <- Hk. by left.
    + intros r [->|Hr]%elem_of_cons; [done|].
      intros Hin. apply (Hfresh r Hr). by right.
Qed.

Lemma merge_complete seen stg tbl :
  complete_keys has_null stg → NoDup stg.*1 → (∀ r, r ∈ stg → r.1 ∉ seen) →
  merge seen stg tbl = Some (fold_left upsert stg tbl).
Proof.
  revert seen tbl. induction stg as [|r0 stg IH]; intros seen tbl Hc Hnd Hf;
    simpl; [done|].
  apply Forall_cons in Hc as [Hc0 Hc]. rewrite Hc0.
  rewrite fmap_cons in Hnd. apply NoDup_cons in Hnd as [Hr0 Hnd].
  rewrite decide_False by (apply Hf; by left).
  apply IH; [done|done|].
  intros r Hr [Hk|Hin]%elem_of_cons.
  - apply Hr0. rewrite <- Hk. by apply list_elem_of_fmap_2.
  - apply (Hf r); [by right|done].
Qed.

(** Merging the same rows a second time succeeds and changes nothing. *)
Lemma merge_idempotent stg tbl tbl' :
  complete_keys has_null stg → merge [] stg tbl = Some tbl' →
  merge [] stg tbl' = Some tbl'.
Proof.
  intros Hc (-> & Hnd & _)%merge_Some; [|done].
  rewrite merge_complete; [|done|done|].
  - f_equal. apply fold_upsert_id; [done|].
    intros r Hr. by apply fold_upsert_holds.
  - intros r _ Hr. by apply elem_of_nil in Hr.
Qed.

(** Merging revised rows over the same keys: the statement succeeds, the
    key column of the target is unchanged, and the target holds the
    revised rows. *)
Lemma merge_converges stg stg' tbl tbl' :
  complete_keys has_null stg → merge [] stg tbl = Some tbl' → stg'.*1 = stg.*1 →
  ∃ tbl'', merge [] stg' tbl' = Some tbl'' ∧ tbl''.*1 = tbl'.*1 ∧
           ∀ r, r ∈ stg' → holds tbl'' r.
Proof.
  intros Hc (-> & Hnd & _)%merge_Some Hkeys; [|done].
  assert (complete_keys has_null stg') as Hc'.
  { apply Forall_forall. intros r Hr.
    assert (r.1 ∈ stg.*1) as (r0 & -> & Hr0)%list_elem_of_fmap.
    { rewrite <- Hkeys. by apply list_elem_of_fmap_2. }
    by eapply Forall_forall in Hc. }
  eexists. split; [|split].
  - apply merge_complete; [done|by rewrite Hkeys|].
    intros r _ Hr. by apply elem_of_nil in Hr.
  - apply fold_upsert_keys; [done|]. intros r Hr.
    assert (r.1 ∈ stg.*1) as (r0 & -> & Hr0)%list_elem_of_fmap.
    { rewrite <- Hkeys. by apply list_elem_of_fmap_2. }
    by apply (fold_upsert_holds stg tbl r0).
  - intros r Hr. apply fold_upsert_holds; [done|by rewrite Hkeys|done].
Qed.
End merge_properties.

(** ** The fact upserts in closed form *)

Lemma upsert_fact_energy_eq df w :
  upsert_fact_energy df w =
  match insert_on_conflict energy_key_has_null [] (energy_rows df)
          (fact_energy_monthly (tbl w)) with
  | Some rows => (Ok tt, energy_upserted rows w)
  | None =>
      (Raise (CardinalityViolation "fact_energy_monthly"),
       staged_only "stg_fact_energy" (StgEnergy (energy_rows df)) w)
  end.
Proof.
  unfold upsert_fact_energy, merge_fact_energy. tx_unfold. simpl.
  destruct (insert_on_conflict _ _ _ _); [|done].
  unfold energy_upserted, set_staging, set_fact_energy. simpl.
  by rewrite delete_insert_eq.
Qed.

Lemma upsert_fact_emissions_eq df w :
  upsert_fact_emissions df w =
  match insert_on_conflict emissions_key_has_null [] (emissions_rows df)
          (fact_emissions_monthly (tbl w)) with
  | Some rows => (Ok tt, emissions_upserted rows w)
  | None =>
      (Raise (CardinalityViolation "fact_emissions_monthly"),
       staged_only "stg_fact_emissions" (StgEmissions (emissions_rows df)) w)
  end.
Proof.
  unfold upsert_fact_emissions, merge_fact_emissions. tx_unfold. simpl.
  destruct (insert_on_conflict _ _ _ _); [|done].
  unfold emissions_upserted, set_staging, set_fact_emissions. simpl.
  by rewrite delete_insert_eq.
Qed.

Lemma upsert_fact_intensity_eq df w :
  upsert_fact_intensity df w =
  match insert_on_conflict intensity_key_has_null [] (intensity_rows df)
          (fact_carbon_intensity (tbl w)) with
  | Some rows => (Ok tt, intensity_upserted rows w)
  | None =>
      (Raise (CardinalityViolation "fact_carbon_intensity"),
       staged_only "stg_fact_intensity" (StgIntensity (intensity_rows df)) w)
  end.
Proof.
  unfold upsert_fact_intensity, merge_fact_intensity. tx_unfold. simpl.
  destruct (insert_on_conflict _ _ _ _); [|done].
  unfold intensity_upserted, set_staging, set_fact_intensity. simpl.
  by rewrite delete_insert_eq.
Qed.

(** ** The guard in closed form *)

Lemma fail_fast_ok frames w :
  Forall (λ f, any_na f.2 = false) frames → fail_fast frames w = (Ok tt, w).
Proof.
  induction 1 as [|[name flags] frames Hf _ IH]; simpl; [done|].
  simpl in Hf. by rewrite Hf.
Qed.

Lemma fail_fast_ok_inv frames w r :
  fail_fast frames w = (Ok tt, r) →
  Forall (λ f, any_na f.2 = false) frames ∧ r = w.
Proof.
  induction frames as [|[name flags] frames IH]; simpl.
  - intros [= <-]. by split.
  - destruct (any_na flags) eqn:Hna; [done|].
    intros [Hall ->]%IH. split; [|done]. by constructor.
Qed.

(** The guard raises for the first frame that holds a missing value, and
    names it and its offending columns. *)
Lemma fail_fast_raises frames w :
  Exists (λ f, any_na f.2 = true) frames →
  ∃ before name flags after,
    frames = before ++ (name, flags) :: after ∧
    Forall (λ f, any_na f.2 = false) before ∧
    any_na flags = true ∧
    fail_fast frames w =
      (Raise (ValueError (nulls_message name (bad_columns flags))), w).
Proof.
  induction frames as [|[name flags] frames IH]; intros Hex.
  { by apply Exists_nil in Hex. }
  simpl. destruct (any_na flags) eqn:Hna.
  - exists [], name, flags, frames. by repeat split.
  - apply Exists_cons in Hex as [Hex|Hex]; [simpl in Hex; congruence|].
    destruct (IH Hex) as (before & n & f & after & -> & Hb & Hf & Hr).
    exists ((name, flags) :: before), n, f, after.
    repeat split; [|done|done]. by constructor.
Qed.

Lemma bad_columns_spec flags c :
  c ∈ bad_columns flags ↔ (c, true) ∈ flags.
Proof.
  unfold bad_columns. rewrite list_elem_of_fmap. split.
  - intros ([c' b] & -> & [Hb Hin]%list_elem_of_filter). simpl in *. by subst.
  - intros Hin. exists (c, true). split; [done|].
    by apply list_elem_of_filter.
Qed.

Lemma bad_columns_nonempty flags : any_na flags = true → bad_columns flags ≠ [].
Proof.
  unfold any_na. intros ([c b] & Hin & Hb)%existsb_exists. simpl in Hb. subst.
  intros Hnil. apply list_elem_of_In, bad_columns_spec in Hin.
  rewrite Hnil in Hin. by apply elem_of_nil in Hin.
Qed.

(** ** The load in closed form *)

Lemma registered_facts g w :
  fact_energy_monthly (tbl (registered g w)) = fact_energy_monthly (tbl w) ∧
  fact_emissions_monthly (tbl (registered g w)) = fact_emissions_monthly (tbl w) ∧
  fact_carbon_intensity (tbl (registered g w)) = fact_carbon_intensity (tbl w).
Proof.
  unfold registered.
  destruct (time_registered_frame (year_months g)
              (dim_registered Sector (xm_sector <$> emis_m g)
                 (dim_registered EnergySource (em_energy_source <$> energy_m g)
                    (dim_registered Region (em_region <$> energy_m g) w))))
    as (_ & -> & -> & ->).
  destruct (dim_registered_frame Sector (xm_sector <$> emis_m g)
              (dim_registered EnergySource (em_energy_source <$> energy_m g)
                 (dim_registered Region (em_region <$> energy_m g) w)))
    as (_ & _ & -> & -> & ->).
  destruct (dim_registered_frame EnergySource
              (em_energy_source <$> energy_m g)
              (dim_registered Region (em_region <$> energy_m g) w))
    as (_ & _ & -> & -> & ->).
  by destruct (dim_registered_frame Region (em_region <$> energy_m g) w)
    as (_ & _ & -> & -> & ->).
Qed.

(** When the guard raises, the body stops there. *)
Lemma load_guard_raises g w :
  Exists (λ fr, any_na fr.2 = true) (guard_input (build_facts g (registered g w))) →
  ∃ before name flags after,
    guard_input (build_facts g (registered g w)) =
      before ++ (name, flags) :: after ∧
    Forall (λ fr, any_na fr.2 = false) before ∧
    any_na flags = true ∧
    load g w =
      (Raise (ValueError (nulls_message name (bad_columns flags))),
       registered g w).
Proof.
  intros Hex.
  destruct (fail_fast_raises _ (registered g w) Hex)
    as (before & name & flags & after & Heq & Hb & Hf & Hr).
  exists before, name, flags, after. repeat split; try done.
  rewrite load_eq. unfold mbind, Tx_bind, bind. by rewrite Hr.
Qed.

Lemma energy_upserted_emissions e w :
  fact_emissions_monthly (tbl (energy_upserted e w)) =
  fact_emissions_monthly (tbl w).
Proof. reflexivity. Qed.

Lemma emissions_upserted_intensity x e w :
  fact_carbon_intensity (tbl (emissions_upserted x (energy_upserted e w))) =
  fact_carbon_intensity (tbl w).
Proof. reflexivity. Qed.

(** What a load that returns has done. *)
Lemma load_ok_inv g w w1 :
  load g w = (Ok tt, w1) →
  Forall (λ fr, any_na fr.2 = false)
    (guard_input (build_facts g (registered g w))) ∧
  ∃ e x i,
    insert_on_conflict energy_key_has_null []
      (energy_rows (energy_fact (build_facts g (registered g w))))
      (fact_energy_monthly (tbl w)) = Some e ∧
    insert_on_conflict emissions_key_has_null []
      (emissions_rows (emissions_fact (build_facts g (registered g w))))
      (fact_emissions_monthly (tbl w)) = Some x ∧
    insert_on_conflict intensity_key_has_null []
      (intensity_rows (intensity_fact (build_facts g (registered g w))))
      (fact_carbon_intensity (tbl w)) = Some i ∧
    w1 = intensity_upserted i (emissions_upserted x
           (energy_upserted e (registered g w))).
Proof.
  rewrite load_eq.
  intros ([] & w0 & [Hg ->]%fail_fast_ok_inv & Hup)%bind_ok_inv.
  split; [done|]. unfold upsert_facts in Hup.
  apply bind_ok_inv in Hup as ([] & w2 & He & Hup).
  apply bind_ok_inv in Hup as ([] & w3 & Hx & Hi).
  rewrite upsert_fact_energy_eq in He.
  destruct (registered_facts g w) as (Hfe & Hfx & Hfi). rewrite Hfe in He.
  destruct (insert_on_conflict energy_key_has_null _ _ _) as [e|] eqn:Ee;
    [|done].
  injection He as <-.
  rewrite upsert_fact_emissions_eq, energy_upserted_emissions, Hfx in Hx.
  destruct (insert_on_conflict emissions_key_has_null _ _ _) as [x|] eqn:Ex;
    [|done].
  injection Hx as <-.
  rewrite upsert_fact_intensity_eq, emissions_upserted_intensity, Hfi in Hi.
  destruct (insert_on_conflict intensity_key_has_null _ _ _) as [i|] eqn:Ei;
    [|done].
  injection Hi as <-. by exists e, x, i.
Qed.

Lemma load_ok_intro g w e x i :
  Forall (λ fr, any_na fr.2 = false)
    (guard_input (build_facts g (registered g w))) →
  insert_on_conflict energy_key_has_null []
    (energy_rows (energy_fact (build_facts g (registered g w))))
    (fact_energy_monthly (tbl w)) = Some e →
  insert_on_conflict emissions_key_has_null []
    (emissions_rows (emissions_fact (build_facts g (registered g w))))
    (fact_emissions_monthly (tbl w)) = Some x →
  insert_on_conflict intensity_key_has_null []
    (intensity_rows (intensity_fact (build_facts g (registered g w))))
    (fact_carbon_intensity (tbl w)) = Some i →
  load g w =
    (Ok tt, intensity_upserted i (emissions_upserted x
              (energy_upserted e (registered g w)))).
Proof.
  intros Hg He Hx Hi. rewrite load_eq.
  unfold mbind, Tx_bind, bind. rewrite (fail_fast_ok _ _ Hg).
  unfold upsert_facts, mbind, Tx_bind, bind.
  destruct (registered_facts g w) as (Hfe & Hfx & Hfi).
  rewrite upsert_fact_energy_eq, Hfe, He.
  rewrite upsert_fact_emissions_eq, energy_upserted_emissions, Hfx, Hx.
  by rewrite upsert_fact_intensity_eq, emissions_upserted_intensity, Hfi, Hi.
Qed.

Lemma main_ok_inv g w w1 : main g w = (Ok tt, w1) → load g w = (Ok tt, w1).
Proof.
  unfold main, engine_begin. destruct (load g w) as [[[]|e] w']; [done|done].
Qed.

Lemma main_ok_intro g w w1 : load g w = (Ok tt, w1) → main g w = (Ok tt, w1).
Proof. unfold main, engine_begin. by intros ->. Qed.

(** ** The fail-fast guard aborts the load *)

Lemma append_assoc (a b c : string) : (a +:+ b) +:+ c = a +:+ (b +:+ c).
Proof.
  induction a as [|ch a IH]; [done|].
  change (String ch ((a +:+ b) +:+ c) = String ch (a +:+ (b +:+ c))).
  by rewrite IH.
Qed.

(** The list of the message is Python's [repr] of a list of [str]: the
    names in quotes, separated by a comma and a space. *)
Lemma repr_items_concat (cols : list string) :
  repr_items cols = String.concat ", " ((λ c, "'" +:+ c +:+ "'") <$> cols).
Proof.
  induction cols as [|c rest IH]; [done|].
  destruct rest as [|c' rest]; [done|].
  change (repr_items (c :: c' :: rest))
    with ("'" +:+ c +:+ "', " +:+ repr_items (c' :: rest)).
  rewrite IH.
  change (String.concat ", " ((λ c, "'" +:+ c +:+ "'") <$> c :: c' :: rest))
    with (("'" +:+ c +:+ "'") +:+ ", " +:+
          String.concat ", " ((λ c, "'" +:+ c +:+ "'") <$> c' :: rest)).
  rewrite !append_assoc. reflexivity.
Qed.

Lemma nulls_message_eq (name : string) (cols : list string) :
  nulls_message name cols =
  name +:+ " has NULLs after ID mapping. Bad columns: [" +:+
  String.concat ", " ((λ c, "'" +:+ c +:+ "'") <$> cols) +:+ "]".
Proof.
  unfold nulls_message, repr_list. rewrite repr_items_concat. reflexivity.
Qed.

(** The guard examines the frames in the order energy, emissions,
    intensity and raises at the first one that holds a missing value. *)
Lemma main_guard_raises g w :
  let f := build_facts g (registered g w) in
  existsb (λ fr, any_na fr.2) (guard_input f) = true →
  (main g w).1 =
    Raise (ValueError
      (if any_na (energy_isna_any (energy_fact f))
       then nulls_message "energy_fact"
              (bad_columns (energy_isna_any (energy_fact f)))
       else if any_na (emissions_isna_any (emissions_fact f))
       then nulls_message "emissions_fact"
              (bad_columns (emissions_isna_any (emissions_fact f)))
       else nulls_message "intensity_fact"
              (bad_columns (intensity_isna_any (intensity_fact f))))) ∧
  tbl (main g w).2 = tbl w.
Proof.
  intros f. unfold main, engine_begin. rewrite load_eq. fold f.
  unfold mbind, Tx_bind, bind, guard_input. cbn [fail_fast existsb snd].
  destruct (any_na (energy_isna_any (energy_fact f))); [done|].
  destruct (any_na (emissions_isna_any (emissions_fact f))); [done|].
  destruct (any_na (intensity_isna_any (intensity_fact f))); [done|].
  discriminate.
Qed.

(** C3, as the loader has it: when a built frame holds a missing value in
    some column, [main] raises the [ValueError] of the guard and every
    table of the warehouse, the three fact tables among them, is as it was
    before the load.  The message is
    [<frame> has NULLs after ID mapping. Bad columns: [<columns>]], where
    the frame is the first of [energy_fact], [emissions_fact] and
    [intensity_fact] that holds a missing value and the columns are the
    columns of that frame that hold a missing value, in column order, each
    in quotes; the frames after that one are not examined. *)
Theorem guard_aborts_load_on_missing_values (g : marts) (w : warehouse) :
  let f := build_facts g (register_dimensions g w).2 in
  let ef := energy_fact f in
  let xf := emissions_fact f in
  let nf := intensity_fact f in
  let energy_columns :=
    [("region_id", col_has_na (ef_region_id ef));
     ("source_id", col_has_na (ef_source_id ef));
     ("time_id", col_has_na (ef_time_id ef));
     ("avg_consumption_mwh", col_has_na (ef_avg_consumption_mwh ef));
     ("max_consumption_mwh", col_has_na (ef_max_consumption_mwh ef));
     ("avg_temp_c", col_has_na (ef_avg_temp_c ef));
     ("records", false)] in
  let emissions_columns :=
    [("region_id", col_has_na (xf_region_id xf));
     ("sector_id", col_has_na (xf_sector_id xf));
     ("time_id", col_has_na (xf_time_id xf));
     ("avg_co2_tonnes", col_has_na (xf_avg_co2_tonnes xf));
     ("total_co2_tonnes", col_has_na (xf_total_co2_tonnes xf));
     ("records", false)] in
  let intensity_columns :=
    [("region_id", col_has_na (if_region_id nf));
     ("time_id", col_has_na (if_time_id nf));
     ("total_energy_mwh", col_has_na (if_total_energy_mwh nf));
     ("total_co2_tonnes", col_has_na (if_total_co2_tonnes nf));
     ("co2_per_mwh", col_has_na (if_co2_per_mwh nf))] in
  let missing (columns : list (string * bool)) : list string :=
    (filter (λ c, c.2 = true) columns).*1 in
  let message (frame : string) (columns : list string) : string :=
    frame +:+ " has NULLs after ID mapping. Bad columns: [" +:+
    String.concat ", " ((λ c, "'" +:+ c +:+ "'") <$> columns) +:+ "]" in
  missing energy_columns ≠ [] ∨ missing emissions_columns ≠ [] ∨
  missing intensity_columns ≠ [] →
  (main g w).1 =
    Raise (ValueError
      (if decide (missing energy_columns ≠ [])
       then message "energy_fact" (missing energy_columns)
       else if decide (missing emissions_columns ≠ [])
       then message "emissions_fact" (missing emissions_columns)
       else message "intensity_fact" (missing intensity_columns))) ∧
  tbl (main g w).2 = tbl w.
Proof.
  intros f.
  assert (f = build_facts g (registered g w)) as Hf
    by (unfold f; by rewrite register_dimensions_eq).
  clearbody f. subst f. set (f := build_facts g (registered g w)).
  intros ef xf nf energy_columns emissions_columns intensity_columns
    missing message Hna.
  change energy_columns with (energy_isna_any (energy_fact f)) in *.
  change emissions_columns with (emissions_isna_any (emissions_fact f)) in *.
  change intensity_columns with (intensity_isna_any (intensity_fact f)) in *.
  clear energy_columns emissions_columns intensity_columns.
  assert (∀ flags, missing flags = bad_columns flags) as Hm by done.
  assert (∀ flags, any_na flags = true ↔ missing flags ≠ []) as Hany.
  { intros flags. rewrite Hm. split; [apply bad_columns_nonempty|].
    intros Hne. destruct (any_na flags) eqn:Hf; [done|]. exfalso. apply Hne.
    unfold any_na in Hf. unfold bad_columns.
    induction flags as [|[c b] flags IH]; [done|].
    cbn [existsb snd] in Hf. apply orb_false_iff in Hf as [-> Hf].
    rewrite filter_cons_False by (simpl; congruence). by apply IH. }
  assert (∀ frame cols, message frame cols = nulls_message frame cols) as Hmsg.
  { intros frame cols. by rewrite nulls_message_eq. }
  destruct (main_guard_raises g w) as [Hr Ht].
  { fold f. unfold guard_input. cbn [existsb snd]. rewrite !orb_true_iff.
    rewrite !Hany. tauto. }
  split; [|done]. rewrite Hr. fold f. do 2 f_equal. rewrite !Hmsg.
  destruct (decide (missing (energy_isna_any (energy_fact f)) ≠ []))
    as [He|He].
  { apply Hany in He. by rewrite He. }
  destruct (any_na (energy_isna_any (energy_fact f))) eqn:He';
    [by apply Hany in He'|].
  destruct (decide (missing (emissions_isna_any (emissions_fact f)) ≠ []))
    as [Hx|Hx].
  { apply Hany in Hx. by rewrite Hx. }
  destruct (any_na (emissions_isna_any (emissions_fact f))) eqn:Hx';
    [by apply Hany in Hx'|].
  done.
Qed.

Lemma guard_aborts_load_on_missing_values_witness :
  (main marts_unregistered_region empty_warehouse).1 =
    Raise (ValueError
      "emissions_fact has NULLs after ID mapping. Bad columns: ['region_id']") ∧
  tbl (main marts_unregistered_region empty_warehouse).2 = tbl empty_warehouse.
Proof.
  generalize (guard_aborts_load_on_missing_values marts_unregistered_region
                empty_warehouse).
  vm_compute. intros H. apply H. right. left. discriminate.
Defined.

(** C3 as the specification words it fails when two frames hold missing
    values: [intensity_fact] holds one in [co2_per_mwh], but the guard has
    raised for [emissions_fact] before it looks at [intensity_fact], and the
    message names neither that frame nor that column. *)
Lemma later_frame_is_not_named :
  col_has_na
    (if_co2_per_mwh
       (intensity_fact
          (build_facts marts_two_bad_frames
             (register_dimensions marts_two_bad_frames empty_warehouse).2))) =
    true ∧
  (main marts_two_bad_frames empty_warehouse).1 =
    Raise (ValueError
      "emissions_fact has NULLs after ID mapping. Bad columns: ['region_id']") ∧
  ¬ ∃ msg,
      (main marts_two_bad_frames empty_warehouse).1 = Raise (ValueError msg) ∧
      (is_Some (String.index 0 "intensity_fact" msg) ∨
       is_Some (String.index 0 "co2_per_mwh" msg)).
Proof.
  split; [vm_compute; reflexivity|]. split; [vm_compute; reflexivity|].
  intros (msg & Hmsg & Hnamed).
  assert ((main marts_two_bad_frames empty_warehouse).1 =
            Raise (ValueError
              "emissions_fact has NULLs after ID mapping. Bad columns: ['region_id']"))
    as Hr by (vm_compute; reflexivity).
  rewrite Hr in Hmsg. injection Hmsg as <-.
  vm_compute in Hnamed. destruct Hnamed as [[? [=]]|[? [=]]].
Qed.

(** ** An undefined carbon-intensity ratio *)

(** A zero denominator gives the missing value, never an error. *)
Lemma co2_per_mwh_zero_energy (co2 : float) (energy : f64) :
  PrimFloat.eqb (f64_val energy) 0 = true →
  co2_per_mwh co2 (Some energy) = None.
Proof.
  intros Hz. unfold co2_per_mwh, replace_zero_with_na. rewrite Hz.
  by destruct co2.
Qed.

(** The ratio of the specification's scenario, of a negative zero, and of
    a group with energy: the binary64 quotient. *)
Example co2_per_mwh_examples :
  co2_per_mwh (cell 120) (cell 0) = None ∧
  co2_per_mwh (cell 120) (cell (-0)) = None ∧
  co2_per_mwh (cell 120) (cell 480) = cell 0.25.
Proof. repeat split; reflexivity. Qed.

(** C4 fails on the scenario of the specification.  The GOLD step gives
    the row without energy an undefined [co2_per_mwh], without an error,
    and every key of the row resolves to an id; yet the loader does not
    persist the row: its guard, written against NULLs from the ID mapping,
    tests every column of the frame, raises for the undefined ratio with a
    message that speaks of the ID mapping, and the load is rolled back:
    [fact_carbon_intensity] stays empty. *)
Theorem zero_energy_row_is_not_persisted :
  intensity marts_zero_energy =
    [IntensityMartRow "North" 2024 1 (cell 0) (cell 120) None] ∧
  if_region_id
    (intensity_fact
       (build_facts marts_zero_energy
          (register_dimensions marts_zero_energy empty_warehouse).2)) =
    [Some 1] ∧
  if_time_id
    (intensity_fact
       (build_facts marts_zero_energy
          (register_dimensions marts_zero_energy empty_warehouse).2)) =
    [Some 1] ∧
  (main marts_zero_energy empty_warehouse).1 =
    Raise (ValueError
      "intensity_fact has NULLs after ID mapping. Bad columns: ['co2_per_mwh']") ∧
  fact_carbon_intensity (tbl (main marts_zero_energy empty_warehouse).2) = [] ∧
  tbl (main marts_zero_energy empty_warehouse).2 = tbl empty_warehouse.
Proof. repeat split; vm_compute; reflexivity. Qed.

(** ** One transaction around the load *)

Lemma registered_dims_kept g w e x i d :
  get_dim d (tbl (intensity_upserted i (emissions_upserted x
                    (energy_upserted e (registered g w))))) =
  get_dim d (tbl (registered g w)).
Proof. by destruct d. Qed.

(** C7: [main] is the body run under [engine.begin()].  When a step of
    the body raises (the guard or a merge), [main] raises the same error and
    every table is as it was before the run.  When no step raises, the
    warehouse [main] leaves is the one at the end of the body: the
    dimension rows the registrations inserted and the three merged fact
    tables are all in it. *)
Theorem load_commits_all_or_nothing (g : marts) (w : warehouse) :
  match (main g w).1 with
  | Raise e => (load g w).1 = Raise e ∧ tbl (main g w).2 = tbl w
  | Ok _ =>
      (load g w).1 = Ok tt ∧ (main g w).2 = (load g w).2 ∧
      (∀ d, get_dim d (tbl (main g w).2) =
            get_dim d (tbl (register_dimensions g w).2)) ∧
      dim_time (tbl (main g w).2) = dim_time (tbl (register_dimensions g w).2) ∧
      insert_on_conflict energy_key_has_null []
        (energy_rows (energy_fact (build_facts g (register_dimensions g w).2)))
        (fact_energy_monthly (tbl w)) =
        Some (fact_energy_monthly (tbl (main g w).2)) ∧
      insert_on_conflict emissions_key_has_null []
        (emissions_rows (emissions_fact (build_facts g (register_dimensions g w).2)))
        (fact_emissions_monthly (tbl w)) =
        Some (fact_emissions_monthly (tbl (main g w).2)) ∧
      insert_on_conflict intensity_key_has_null []
        (intensity_rows (intensity_fact (build_facts g (register_dimensions g w).2)))
        (fact_carbon_intensity (tbl w)) =
        Some (fact_carbon_intensity (tbl (main g w).2))
  end.
Proof.
  rewrite register_dimensions_eq. cbn [snd].
  unfold main, engine_begin.
  destruct (load g w) as [[[]|err] w1] eqn:Hload; cbn [fst snd]; [|done].
  apply load_ok_inv in Hload as (_ & e & x & i & He & Hx & Hi & ->).
  split; [done|]. split; [done|].
  split; [intros d; apply registered_dims_kept|].
  split; [done|]. by rewrite He, Hx, Hi.
Qed.

Example rollback_after_partial_work :
  (load marts_duplicate_key empty_warehouse).1 =
    Raise (CardinalityViolation "fact_emissions_monthly") ∧
  dim_region (tbl (load marts_duplicate_key empty_warehouse).2) =
    [DimRow 1 "North"] ∧
  length (fact_energy_monthly (tbl (load marts_duplicate_key empty_warehouse).2)) =
    1%nat ∧
  tbl (main marts_duplicate_key empty_warehouse).2 = tbl empty_warehouse.
Proof. vm_compute. done. Qed.

(** ** Staging tables of the fact upserts *)

Lemma facts_upserted_staging e x i w s :
  s ∈ fact_staging_names →
  staging (tbl (intensity_upserted i (emissions_upserted x
                  (energy_upserted e w)))) !! s = None.
Proof.
  unfold fact_staging_names. rewrite !elem_of_cons, elem_of_nil. simpl.
  intros [->|[->|[->|[]]]].
  - rewrite lookup_delete_ne by done. rewrite lookup_delete_ne by done.
    apply lookup_delete_eq.
  - rewrite lookup_delete_ne by done. apply lookup_delete_eq.
  - apply lookup_delete_eq.
Qed.


(** ** Registering what is registered already *)

Lemma set_seq_same d s : set_seq d (get_seq d s + Z.of_nat 0) s = s.
Proof. destruct d, s; simpl; f_equal; lia. Qed.

Lemma set_time_seq_same s : set_time_seq (time_id_seq s + Z.of_nat 0) s = s.
Proof. destruct s; unfold set_time_seq; simpl; f_equal; lia. Qed.

Lemma dim_registered_noop table values w :
  (∀ n, n ∈ values → n ∈ dim_name <$> get_dim table (tbl w)) →
  (sorted (py_set values) ≠ [] →
   staging (tbl w) !! staging_name (table_name table) = None) →
  dim_registered table values w = w.
Proof.
  intros Hall Hstg. unfold dim_registered.
  destruct (decide (sorted (py_set values) = [])) as [|Hne]; [done|].
  rewrite missing_names_none.
  2:{ intros n Hn. by apply Hall, elem_of_sorted_set. }
  simpl. rewrite app_nil_r, set_seq_same, (delete_id _ _ (Hstg Hne)).
  destruct w as [t s]. simpl. f_equal. by destruct t, table.
Qed.

Lemma time_registered_noop pairs w :
  (∀ p, p ∈ pairs → p ∈ time_key <$> dim_time (tbl w)) →
  (pairs ≠ [] → staging (tbl w) !! "stg_dim_time" = None) →
  time_registered pairs w = w.
Proof.
  intros Hall Hstg. unfold time_registered.
  destruct (decide (pairs = [])) as [|Hne]; [done|].
  rewrite missing_pairs_none.
  2:{ intros p Hp. by apply Hall, elem_of_drop_duplicates. }
  simpl. rewrite app_nil_r, set_time_seq_same, (delete_id _ _ (Hstg Hne)).
  destruct w as [t s]. simpl. f_equal. by destruct t.
Qed.

(** Every candidate is a row of its dimension after the registration. *)
Lemma dim_registered_covers table values w n :
  n ∈ values → n ∈ dim_name <$> get_dim table (tbl (dim_registered table values w)).
Proof.
  intros Hn. rewrite dim_registered_rows, fmap_app, new_dim_rows_names.
  rewrite elem_of_app, missing_names_spec, elem_of_sorted_set.
  destruct (decide (n ∈ dim_name <$> get_dim table (tbl w))); tauto.
Qed.

Lemma registered_dim_region g w :
  get_dim Region (tbl (registered g w)) =
  get_dim Region (tbl (dim_registered Region (em_region <$> energy_m g) w)).
Proof.
  unfold registered.
  rewrite (proj1 (time_registered_frame _ _)).
  rewrite (proj1 (dim_registered_frame Sector _ _)) by done.
  by rewrite (proj1 (dim_registered_frame EnergySource _ _)) by done.
Qed.

Lemma registered_dim_source g w :
  get_dim EnergySource (tbl (registered g w)) =
  get_dim EnergySource
    (tbl (dim_registered EnergySource (em_energy_source <$> energy_m g)
            (dim_registered Region (em_region <$> energy_m g) w))).
Proof.
  unfold registered.
  rewrite (proj1 (time_registered_frame _ _)).
  by rewrite (proj1 (dim_registered_frame Sector _ _)) by done.
Qed.

Lemma registered_dim_sector g w :
  get_dim Sector (tbl (registered g w)) =
  get_dim Sector
    (tbl (dim_registered Sector (xm_sector <$> emis_m g)
            (dim_registered EnergySource (em_energy_source <$> energy_m g)
               (dim_registered Region (em_region <$> energy_m g) w)))).
Proof. unfold registered. by rewrite (proj1 (time_registered_frame _ _)). Qed.

Lemma registered_covers g w :
  (∀ n, n ∈ em_region <$> energy_m g →
        n ∈ dim_name <$> get_dim Region (tbl (registered g w))) ∧
  (∀ n, n ∈ em_energy_source <$> energy_m g →
        n ∈ dim_name <$> get_dim EnergySource (tbl (registered g w))) ∧
  (∀ n, n ∈ xm_sector <$> emis_m g →
        n ∈ dim_name <$> get_dim Sector (tbl (registered g w))) ∧
  (∀ p, p ∈ year_months g → p ∈ time_key <$> dim_time (tbl (registered g w))).
Proof.
  split; [|split; [|split]].
  - intros n Hn. rewrite registered_dim_region.
    by apply dim_registered_covers.
  - intros n Hn. rewrite registered_dim_source.
    by apply dim_registered_covers.
  - intros n Hn. rewrite registered_dim_sector.
    by apply dim_registered_covers.
  - intros p. apply year_months_registered.
Qed.

(** *** Staging tables of the registrations *)

Lemma dim_registered_absent table values w s :
  staging (tbl w) !! s = None →
  staging (tbl (dim_registered table values w)) !! s = None.
Proof.
  intros Hs. unfold dim_registered.
  destruct (decide (sorted (py_set values) = [])); [done|]. simpl.
  apply lookup_delete_None. by right.
Qed.

Lemma dim_registered_own table values w :
  sorted (py_set values) ≠ [] →
  staging (tbl (dim_registered table values w)) !!
    staging_name (table_name table) = None.
Proof.
  intros Hne. unfold dim_registered.
  destruct (decide (sorted (py_set values) = [])); [done|]. simpl.
  apply lookup_delete_eq.
Qed.

Lemma time_registered_absent pairs w s :
  staging (tbl w) !! s = None →
  staging (tbl (time_registered pairs w)) !! s = None.
Proof.
  intros Hs. unfold time_registered.
  destruct (decide (pairs = [])); [done|]. simpl.
  apply lookup_delete_None. by right.
Qed.

Lemma time_registered_own pairs w :
  pairs ≠ [] → staging (tbl (time_registered pairs w)) !! "stg_dim_time" = None.
Proof.
  intros Hne. unfold time_registered.
  destruct (decide (pairs = [])); [done|]. simpl. apply lookup_delete_eq.
Qed.

Lemma facts_upserted_absent e x i w s :
  staging (tbl w) !! s = None →
  staging (tbl (intensity_upserted i (emissions_upserted x
                  (energy_upserted e w)))) !! s = None.
Proof.
  intros Hs. simpl. rewrite !lookup_delete_None. by do 3 right.
Qed.

(** The staging tables the registrations of [g] use are gone after them. *)
Lemma registered_staging g w :
  (sorted (py_set (em_region <$> energy_m g)) ≠ [] →
   staging (tbl (registered g w)) !! staging_name (table_name Region) = None) ∧
  (sorted (py_set (em_energy_source <$> energy_m g)) ≠ [] →
   staging (tbl (registered g w)) !! staging_name (table_name EnergySource) = None) ∧
  (sorted (py_set (xm_sector <$> emis_m g)) ≠ [] →
   staging (tbl (registered g w)) !! staging_name (table_name Sector) = None) ∧
  (year_months g ≠ [] →
   staging (tbl (registered g w)) !! "stg_dim_time" = None).
Proof.
  unfold registered. split; [|split; [|split]]; intros Hne.
  - apply time_registered_absent. do 2 apply dim_registered_absent.
    by apply dim_registered_own.
  - apply time_registered_absent, dim_registered_absent.
    by apply dim_registered_own.
  - apply time_registered_absent. by apply dim_registered_own.
  - by apply time_registered_own.
Qed.

Lemma registered_noop g w :
  (∀ n, n ∈ em_region <$> energy_m g →
        n ∈ dim_name <$> get_dim Region (tbl w)) →
  (∀ n, n ∈ em_energy_source <$> energy_m g →
        n ∈ dim_name <$> get_dim EnergySource (tbl w)) →
  (∀ n, n ∈ xm_sector <$> emis_m g →
        n ∈ dim_name <$> get_dim Sector (tbl w)) →
  (∀ p, p ∈ year_months g → p ∈ time_key <$> dim_time (tbl w)) →
  (sorted (py_set (em_region <$> energy_m g)) ≠ [] →
   staging (tbl w) !! staging_name (table_name Region) = None) →
  (sorted (py_set (em_energy_source <$> energy_m g)) ≠ [] →
   staging (tbl w) !! staging_name (table_name EnergySource) = None) →
  (sorted (py_set (xm_sector <$> emis_m g)) ≠ [] →
   staging (tbl w) !! staging_name (table_name Sector) = None) →
  (year_months g ≠ [] → staging (tbl w) !! "stg_dim_time" = None) →
  registered g w = w.
Proof.
  intros Hr Hs Hc Ht Sr Ss Sc St. unfold registered.
  rewrite (dim_registered_noop Region _ w Hr Sr).
  rewrite (dim_registered_noop EnergySource _ w Hs Ss).
  rewrite (dim_registered_noop Sector _ w Hc Sc).
  by apply time_registered_noop.
Qed.

(** After a load that returned, registering the same candidates again is
    the identity. *)
Lemma registered_after_load g w e x i :
  registered g (intensity_upserted i (emissions_upserted x
                  (energy_upserted e (registered g w)))) =
  intensity_upserted i (emissions_upserted x (energy_upserted e (registered g w))).
Proof.
  destruct (registered_covers g w) as (Hr & Hs & Hc & Ht).
  destruct (registered_staging g w) as (Sr & Ss & Sc & St).
  apply registered_noop.
  - intros n Hn. rewrite registered_dims_kept. by apply Hr.
  - intros n Hn. rewrite registered_dims_kept. by apply Hs.
  - intros n Hn. rewrite registered_dims_kept. by apply Hc.
  - done.
  - intros Hne. by apply facts_upserted_absent, Sr.
  - intros Hne. by apply facts_upserted_absent, Ss.
  - intros Hne. by apply facts_upserted_absent, Sc.
  - intros Hne. by apply facts_upserted_absent, St.
Qed.

(** The frames depend on the warehouse through its dimensions only. *)
Lemma build_facts_dims g w w' :
  (∀ d, get_dim d (tbl w) = get_dim d (tbl w')) →
  dim_time (tbl w) = dim_time (tbl w') →
  build_facts g w = build_facts g w'.
Proof.
  intros Hd Ht. unfold build_facts, fetch_dim_map, fetch_time_map.
  by rewrite !Hd, Ht.
Qed.

(** ** Marts with the same natural keys *)

Lemma fmap_through {A B C} (f : A → B) (h : B → C) (l l' : list A) :
  f <$> l' = f <$> l → (λ a, h (f a)) <$> l' = (λ a, h (f a)) <$> l.
Proof.
  intros Heq.
  change (λ a, h (f a)) with (h ∘ f). by rewrite !list_fmap_compose, Heq.
Qed.

Lemma same_natural_keys_columns g g' :
  same_natural_keys g g' →
  em_region <$> energy_m g' = em_region <$> energy_m g ∧
  em_energy_source <$> energy_m g' = em_energy_source <$> energy_m g ∧
  xm_region <$> emis_m g' = xm_region <$> emis_m g ∧
  xm_sector <$> emis_m g' = xm_sector <$> emis_m g ∧
  im_region <$> intensity g' = im_region <$> intensity g ∧
  zip (em_year <$> energy_m g') (em_month <$> energy_m g') =
    zip (em_year <$> energy_m g) (em_month <$> energy_m g) ∧
  zip (xm_year <$> emis_m g') (xm_month <$> emis_m g') =
    zip (xm_year <$> emis_m g) (xm_month <$> emis_m g) ∧
  zip (im_year <$> intensity g') (im_month <$> intensity g') =
    zip (im_year <$> intensity g) (im_month <$> intensity g).
Proof.
  intros (He & Hx & Hi). rewrite !zip_fmap_same. repeat split.
  - apply (fmap_through energy_natural_key (λ k, k.1.1.1) _ _ He).
  - apply (fmap_through energy_natural_key (λ k, k.1.1.2) _ _ He).
  - apply (fmap_through emissions_natural_key (λ k, k.1.1.1) _ _ Hx).
  - apply (fmap_through emissions_natural_key (λ k, k.1.1.2) _ _ Hx).
  - apply (fmap_through intensity_natural_key (λ k, k.1.1) _ _ Hi).
  - apply (fmap_through energy_natural_key (λ k, (k.1.2, k.2)) _ _ He).
  - apply (fmap_through emissions_natural_key (λ k, (k.1.2, k.2)) _ _ Hx).
  - apply (fmap_through intensity_natural_key (λ k, (k.1.2, k.2)) _ _ Hi).
Qed.

Lemma registered_same_keys g g' w :
  same_natural_keys g g' → registered g' w = registered g w.
Proof.
  intros (Hr & Hs & _ & Hc & _ & Hye & Hyx & Hyi)%same_natural_keys_columns.
  unfold registered, year_months. by rewrite Hr, Hs, Hc, Hye, Hyx, Hyi.
Qed.

(** The key tuples of the frames are those of [g]. *)
Lemma build_facts_same_keys g g' w :
  same_natural_keys g g' →
  (energy_rows (energy_fact (build_facts g' w))).*1 =
    (energy_rows (energy_fact (build_facts g w))).*1 ∧
  (emissions_rows (emissions_fact (build_facts g' w))).*1 =
    (emissions_rows (emissions_fact (build_facts g w))).*1 ∧
  (intensity_rows (intensity_fact (build_facts g' w))).*1 =
    (intensity_rows (intensity_fact (build_facts g w))).*1.
Proof.
  intros (He & Hx & Hi). unfold build_facts. cbn [energy_fact emissions_fact intensity_fact].
  rewrite !energy_rows_build, !emissions_rows_build, !intensity_rows_build.
  rewrite <- !list_fmap_compose. repeat split.
  - apply (fmap_through energy_natural_key
             (λ k, (fetch_dim_map Region w !! k.1.1.1,
                    fetch_dim_map EnergySource w !! k.1.1.2,
                    fetch_time_map w !! (k.1.2, k.2))) _ _ He).
  - apply (fmap_through emissions_natural_key
             (λ k, (fetch_dim_map Region w !! k.1.1.1,
                    fetch_dim_map Sector w !! k.1.1.2,
                    fetch_time_map w !! (k.1.2, k.2))) _ _ Hx).
  - apply (fmap_through intensity_natural_key
             (λ k, (fetch_dim_map Region w !! k.1.1,
                    fetch_time_map w !! (k.1.2, k.2))) _ _ Hi).
Qed.

(** ** What the guard guarantees to the merges *)

Lemma col_no_na {A} (col : list (option A)) (c : option A) :
  col_has_na col = false → c ∈ col → isna c = false.
Proof.
  unfold col_has_na. intros Hcol Hin. destruct (isna c) eqn:Hc; [|done].
  rewrite <- Hcol. symmetry. apply existsb_exists. exists c.
  split; [by apply list_elem_of_In|done].
Qed.

Lemma energy_guard_complete df :
  any_na (energy_isna_any df) = false →
  complete_keys energy_key_has_null (energy_rows df).
Proof.
  unfold any_na, energy_isna_any. cbn [existsb snd].
  rewrite !orb_false_iff. intros (Hr & Hs & Ht & _).
  apply Forall_forall. intros [[[r s] t] v] Hin.
  apply elem_of_zip_l in Hin. pose proof (elem_of_zip_r _ _ _ _ Hin) as Hti.
  apply elem_of_zip_l in Hin. pose proof (elem_of_zip_r _ _ _ _ Hin) as Hsi.
  apply elem_of_zip_l in Hin.
  unfold energy_key_has_null. cbn [fst snd].
  by rewrite (col_no_na _ _ Hr Hin), (col_no_na _ _ Hs Hsi), (col_no_na _ _ Ht Hti).
Qed.

Lemma emissions_guard_complete df :
  any_na (emissions_isna_any df) = false →
  complete_keys emissions_key_has_null (emissions_rows df).
Proof.
  unfold any_na, emissions_isna_any. cbn [existsb snd].
  rewrite !orb_false_iff. intros (Hr & Hs & Ht & _).
  apply Forall_forall. intros [[[r s] t] v] Hin.
  apply elem_of_zip_l in Hin. pose proof (elem_of_zip_r _ _ _ _ Hin) as Hti.
  apply elem_of_zip_l in Hin. pose proof (elem_of_zip_r _ _ _ _ Hin) as Hsi.
  apply elem_of_zip_l in Hin.
  unfold emissions_key_has_null. cbn [fst snd].
  by rewrite (col_no_na _ _ Hr Hin), (col_no_na _ _ Hs Hsi), (col_no_na _ _ Ht Hti).
Qed.

Lemma intensity_guard_complete df :
  any_na (intensity_isna_any df) = false →
  complete_keys intensity_key_has_null (intensity_rows df).
Proof.
  unfold any_na, intensity_isna_any. cbn [existsb snd].
  rewrite !orb_false_iff. intros (Hr & Ht & _).
  apply Forall_forall. intros [[r t] v] Hin.
  apply elem_of_zip_l in Hin. pose proof (elem_of_zip_r _ _ _ _ Hin) as Hti.
  apply elem_of_zip_l in Hin.
  unfold intensity_key_has_null. cbn [fst snd].
  by rewrite (col_no_na _ _ Hr Hin), (col_no_na _ _ Ht Hti).
Qed.

Lemma guard_passes_inv f :
  Forall (λ fr, any_na fr.2 = false) (guard_input f) →
  any_na (energy_isna_any (energy_fact f)) = false ∧
  any_na (emissions_isna_any (emissions_fact f)) = false ∧
  any_na (intensity_isna_any (intensity_fact f)) = false.
Proof.
  unfold guard_input. rewrite !Forall_cons. cbn [snd]. tauto.
Qed.

Lemma guard_passes_intro f :
  any_na (energy_isna_any (energy_fact f)) = false →
  any_na (emissions_isna_any (emissions_fact f)) = false →
  any_na (intensity_isna_any (intensity_fact f)) = false →
  Forall (λ fr, any_na fr.2 = false) (guard_input f).
Proof. intros. unfold guard_input. by repeat constructor. Qed.

(** With the natural keys of marts that passed the guard and with all
    metrics defined, the guard passes. *)
Lemma guard_same_keys g g' w :
  same_natural_keys g g' →
  Forall (λ fr, any_na fr.2 = false) (guard_input (build_facts g w)) →
  metrics_defined g' = true →
  Forall (λ fr, any_na fr.2 = false) (guard_input (build_facts g' w)).
Proof.
  intros (Hr & Hs & Hxr & Hxs & Hir & Hye & Hyx & Hyi)%same_natural_keys_columns.
  intros (He & Hx & Hi)%guard_passes_inv Hm.
  unfold metrics_defined in Hm. apply negb_true_iff in Hm.
  rewrite !orb_false_iff in Hm.
  destruct Hm as (((((((M1 & M2) & M3) & M4) & M5) & M6) & M7) & M8).
  unfold any_na, energy_isna_any, emissions_isna_any, intensity_isna_any,
    build_facts in He, Hx, Hi.
  cbn [existsb snd energy_fact emissions_fact intensity_fact build_energy_fact
       build_emissions_fact build_intensity_fact ef_region_id ef_source_id
       ef_time_id xf_region_id xf_sector_id xf_time_id if_region_id if_time_id]
    in He, Hx, Hi.
  rewrite !orb_false_iff in He, Hx, Hi.
  destruct He as (E1 & E2 & E3 & _), Hx as (X1 & X2 & X3 & _),
    Hi as (I1 & I2 & _).
  apply guard_passes_intro;
    unfold any_na, energy_isna_any, emissions_isna_any, intensity_isna_any,
      build_facts;
    cbn [existsb snd energy_fact emissions_fact intensity_fact build_energy_fact
         build_emissions_fact build_intensity_fact ef_region_id ef_source_id
         ef_time_id xf_region_id xf_sector_id xf_time_id if_region_id if_time_id
         ef_avg_consumption_mwh ef_max_consumption_mwh ef_avg_temp_c
         xf_avg_co2_tonnes xf_total_co2_tonnes if_total_energy_mwh
         if_total_co2_tonnes if_co2_per_mwh].
  - by rewrite Hr, Hs, Hye, E1, E2, E3, M1, M2, M3.
  - by rewrite Hxr, Hxs, Hyx, X1, X2, X3, M4, M5.
  - by rewrite Hir, Hyi, I1, I2, M6, M7, M8.
Qed.

(** ** Loading again *)

Lemma tables_ext (t t' : tables) :
  dim_region t = dim_region t' →
  dim_energy_source t = dim_energy_source t' →
  dim_sector t = dim_sector t' →
  dim_time t = dim_time t' →
  fact_energy_monthly t = fact_energy_monthly t' →
  fact_emissions_monthly t = fact_emissions_monthly t' →
  fact_carbon_intensity t = fact_carbon_intensity t' →
  staging t = staging t' →
  t = t'.
Proof. destruct t, t'. cbn. by intros -> -> -> -> -> -> -> ->. Qed.

Lemma warehouse_ext (w w' : warehouse) :
  tbl w = tbl w' → seqs w = seqs w' → w = w'.
Proof. destruct w, w'. cbn. by intros -> ->. Qed.

Lemma facts_upserted_again e x i e' x' i' w :
  intensity_upserted i' (emissions_upserted x' (energy_upserted e'
    (intensity_upserted i (emissions_upserted x (energy_upserted e w))))) =
  facts_replaced e' x' i'
    (intensity_upserted i (emissions_upserted x (energy_upserted e w))).
Proof.
  apply warehouse_ext; [|reflexivity]. apply tables_ext; try reflexivity.
  cbn [facts_replaced set_fact_intensity set_fact_emissions set_fact_energy
       intensity_upserted emissions_upserted energy_upserted tbl staging
       set_staging].
  apply map_eq. intros s. rewrite !lookup_delete.
  repeat case_decide; congruence.
Qed.

(** A second load over the warehouse a first load left, from marts with
    the same natural keys: nothing is registered, and each merge only
    updates. *)
Lemma second_load g g' w w1 :
  main g w = (Ok tt, w1) → same_natural_keys g g' →
  Forall (λ fr, any_na fr.2 = false) (guard_input (build_facts g' w1)) →
  (register_dimensions g' w1).2 = w1 ∧
  ∃ e' x' i',
    main g' w1 = (Ok tt, facts_replaced e' x' i' w1) ∧
    (insert_on_conflict energy_key_has_null []
       (energy_rows (energy_fact (build_facts g' w1)))
       (fact_energy_monthly (tbl w1)) = Some e' ∧
     e'.*1 = (fact_energy_monthly (tbl w1)).*1 ∧
     ∀ r, r ∈ energy_rows (energy_fact (build_facts g' w1)) → holds e' r) ∧
    (insert_on_conflict emissions_key_has_null []
       (emissions_rows (emissions_fact (build_facts g' w1)))
       (fact_emissions_monthly (tbl w1)) = Some x' ∧
     x'.*1 = (fact_emissions_monthly (tbl w1)).*1 ∧
     ∀ r, r ∈ emissions_rows (emissions_fact (build_facts g' w1)) → holds x' r) ∧
    (insert_on_conflict intensity_key_has_null []
       (intensity_rows (intensity_fact (build_facts g' w1)))
       (fact_carbon_intensity (tbl w1)) = Some i' ∧
     i'.*1 = (fact_carbon_intensity (tbl w1)).*1 ∧
     ∀ r, r ∈ intensity_rows (intensity_fact (build_facts g' w1)) → holds i' r).
Proof.
  intros Hmain Hkeys Hguard.
  apply main_ok_inv, load_ok_inv in Hmain
    as (Hg & e & x & i & He & Hx & Hi & ->).
  set (w1 := intensity_upserted i (emissions_upserted x
               (energy_upserted e (registered g w)))) in *.
  assert (registered g' w1 = w1) as Hreg.
  { rewrite (registered_same_keys g g') by done. apply registered_after_load. }
  assert (build_facts g w1 = build_facts g (registered g w)) as Hsame.
  { apply build_facts_dims; [|done]. intros d. apply registered_dims_kept. }
  destruct (build_facts_same_keys g g' w1 Hkeys) as (Ke & Kx & Ki).
  rewrite Hsame in Ke, Kx, Ki.
  apply guard_passes_inv in Hg as (Ge & Gx & Gi).
  destruct (merge_converges energy_key_has_null _ _ _ _
              (energy_guard_complete _ Ge) He Ke) as (e' & He' & Hke & Hhe).
  destruct (merge_converges emissions_key_has_null _ _ _ _
              (emissions_guard_complete _ Gx) Hx Kx) as (x' & Hx' & Hkx & Hhx).
  destruct (merge_converges intensity_key_has_null _ _ _ _
              (intensity_guard_complete _ Gi) Hi Ki) as (i' & Hi' & Hki & Hhi).
  split; [by rewrite register_dimensions_eq|].
  exists e', x', i'. split; [|done].
  apply main_ok_intro.
  pose proof (load_ok_intro g' w1 e' x' i') as Hload.
  rewrite Hreg in Hload. rewrite Hload; [|done..].
  f_equal. apply facts_upserted_again.
Qed.

Lemma facts_replaced_same e x i w :
  facts_replaced e x i
    (intensity_upserted i (emissions_upserted x (energy_upserted e w))) =
  intensity_upserted i (emissions_upserted x (energy_upserted e w)).
Proof. reflexivity. Qed.

(** ** Idempotence of the load *)

(** C1: when a load of marts [g] has returned, a second load of the same
    marts returns with the warehouse unchanged: its registrations insert no
    dimension row (the warehouse is as before after steps 1 and 2), each of
    its three merges rewrites existing rows with the values they have, and
    every dimension table, every fact table and every sequence is as the
    first load left it. *)
Theorem second_load_changes_nothing (g : marts) (w w1 : warehouse) :
  main g w = (Ok tt, w1) →
  main g w1 = (Ok tt, w1) ∧
  (register_dimensions g w1).2 = w1 ∧
  insert_on_conflict energy_key_has_null []
    (energy_rows (energy_fact (build_facts g w1)))
    (fact_energy_monthly (tbl w1)) = Some (fact_energy_monthly (tbl w1)) ∧
  insert_on_conflict emissions_key_has_null []
    (emissions_rows (emissions_fact (build_facts g w1)))
    (fact_emissions_monthly (tbl w1)) = Some (fact_emissions_monthly (tbl w1)) ∧
  insert_on_conflict intensity_key_has_null []
    (intensity_rows (intensity_fact (build_facts g w1)))
    (fact_carbon_intensity (tbl w1)) = Some (fact_carbon_intensity (tbl w1)).
Proof.
  intros Hmain.
  pose proof Hmain as Hinv.
  apply main_ok_inv, load_ok_inv in Hinv
    as (Hg & e & x & i & He & Hx & Hi & Hw1).
  assert (build_facts g w1 = build_facts g (registered g w)) as Hsame.
  { subst w1. apply build_facts_dims; [|done].
    intros d. apply registered_dims_kept. }
  destruct (second_load g g w w1 Hmain) as (Hreg & e' & x' & i' & Hm & Me & Mx & Mi).
  { by split. }
  { by rewrite Hsame. }
  destruct Me as (Me & _), Mx as (Mx & _), Mi as (Mi & _).
  pose proof Hg as (Ge & Gx & Gi)%guard_passes_inv.
  pose proof (merge_idempotent energy_key_has_null _ _ _
                (energy_guard_complete _ Ge) He) as Ie.
  pose proof (merge_idempotent emissions_key_has_null _ _ _
                (emissions_guard_complete _ Gx) Hx) as Ix.
  pose proof (merge_idempotent intensity_key_has_null _ _ _
                (intensity_guard_complete _ Gi) Hi) as Ii.
  rewrite Hsame in Me, Mx, Mi. rewrite Hsame.
  assert (fact_energy_monthly (tbl w1) = e) as Fe by by subst w1.
  assert (fact_emissions_monthly (tbl w1) = x) as Fx by by subst w1.
  assert (fact_carbon_intensity (tbl w1) = i) as Fi by by subst w1.
  rewrite Fe, Fx, Fi in *.
  rewrite Ie in Me. rewrite Ix in Mx. rewrite Ii in Mi.
  injection Me as <-. injection Mx as <-. injection Mi as <-.
  split; [|done].
  rewrite Hm. f_equal. subst w1. apply facts_replaced_same.
Qed.

Lemma second_load_changes_nothing_witness :
  main marts_january (main marts_january empty_warehouse).2 =
    (Ok tt, (main marts_january empty_warehouse).2) ∧
  (register_dimensions marts_january (main marts_january empty_warehouse).2).2 =
    (main marts_january empty_warehouse).2 ∧
  insert_on_conflict energy_key_has_null []
    (energy_rows (energy_fact
       (build_facts marts_january (main marts_january empty_warehouse).2)))
    (fact_energy_monthly (tbl (main marts_january empty_warehouse).2)) =
    Some (fact_energy_monthly (tbl (main marts_january empty_warehouse).2)) ∧
  insert_on_conflict emissions_key_has_null []
    (emissions_rows (emissions_fact
       (build_facts marts_january (main marts_january empty_warehouse).2)))
    (fact_emissions_monthly (tbl (main marts_january empty_warehouse).2)) =
    Some (fact_emissions_monthly (tbl (main marts_january empty_warehouse).2)) ∧
  insert_on_conflict intensity_key_has_null []
    (intensity_rows (intensity_fact
       (build_facts marts_january (main marts_january empty_warehouse).2)))
    (fact_carbon_intensity (tbl (main marts_january empty_warehouse).2)) =
    Some (fact_carbon_intensity (tbl (main marts_january empty_warehouse).2)).
Proof.
  apply (second_load_changes_nothing marts_january empty_warehouse
           (main marts_january empty_warehouse).2).
  vm_compute. reflexivity.
Defined.

(** ** Last write wins *)

Lemma single_row_merge {K V} `{EqDecision K} (has_null : K → bool)
    (tbl : list (K * V)) (r : K * V) :
  has_null r.1 = false →
  insert_on_conflict has_null [] [r] tbl = Some (upsert_row has_null tbl r).
Proof.
  intros Hn. cbn [insert_on_conflict]. rewrite Hn.
  destruct (decide (r.1 ∈ [])) as [Hin|_]; [|done].
  by apply elem_of_nil in Hin.
Qed.

Lemma upsert_row_others {K V} `{EqDecision K} (has_null : K → bool)
    (tbl : list (K * V)) (r t : K * V) :
  t ∈ tbl → t.1 ≠ r.1 → t ∈ upsert_row has_null tbl r.
Proof.
  intros Ht Hne. unfold upsert_row.
  destruct (has_null r.1); [apply elem_of_app; by left|].
  destruct (decide (r.1 ∈ tbl.*1)); [|apply elem_of_app; by left].
  apply list_elem_of_fmap. exists t. split; [|done].
  by rewrite decide_False.
Qed.

Lemma facts_replaced_dims e x i w d :
  get_dim d (tbl (facts_replaced e x i w)) = get_dim d (tbl w).
Proof. by destruct d. Qed.

(** C2: merging one staged row with a complete key into any fact table
    succeeds; afterwards every row with that key carries the incoming
    metrics; when the key was there the key column (hence the number of
    rows) is unchanged, when it was not the row is appended; rows of other
    keys are kept.  Hence, after a load of marts [g], a load of marts [g']
    with the same natural keys and defined metrics returns, leaves the
    dimensions and the key columns of the three fact tables as they were,
    and each fact row carries the metrics [g'] gives its key; unique keys
    stay unique. *)
Theorem fact_merge_is_last_write_wins :
  (∀ (K V : Type) (eqK : EqDecision K) (has_null : K → bool)
     (tbl : list (K * V)) (r : K * V),
     has_null r.1 = false →
     ∃ tbl',
       insert_on_conflict has_null [] [r] tbl = Some tbl' ∧
       holds tbl' r ∧
       (r.1 ∈ tbl.*1 → tbl'.*1 = tbl.*1 ∧ length tbl' = length tbl) ∧
       (r.1 ∉ tbl.*1 → tbl' = tbl ++ [r]) ∧
       (∀ t, t ∈ tbl → t.1 ≠ r.1 → t ∈ tbl')) ∧
  (∀ (g g' : marts) (w w1 : warehouse),
     main g w = (Ok tt, w1) → same_natural_keys g g' →
     metrics_defined g' = true →
     ∃ w2,
       main g' w1 = (Ok tt, w2) ∧
       (∀ d, get_dim d (tbl w2) = get_dim d (tbl w1)) ∧
       dim_time (tbl w2) = dim_time (tbl w1) ∧
       (fact_energy_monthly (tbl w2)).*1 = (fact_energy_monthly (tbl w1)).*1 ∧
       (fact_emissions_monthly (tbl w2)).*1 =
         (fact_emissions_monthly (tbl w1)).*1 ∧
       (fact_carbon_intensity (tbl w2)).*1 =
         (fact_carbon_intensity (tbl w1)).*1 ∧
       (∀ r, r ∈ energy_m g' →
          holds (fact_energy_monthly (tbl w2))
            (energy_fact_row (fetch_dim_map Region w2)
               (fetch_dim_map EnergySource w2) (fetch_time_map w2) r)) ∧
       (∀ r, r ∈ emis_m g' →
          holds (fact_emissions_monthly (tbl w2))
            (emissions_fact_row (fetch_dim_map Region w2)
               (fetch_dim_map Sector w2) (fetch_time_map w2) r)) ∧
       (∀ r, r ∈ intensity g' →
          holds (fact_carbon_intensity (tbl w2))
            (intensity_fact_row (fetch_dim_map Region w2) (fetch_time_map w2) r)) ∧
       (NoDup (fact_energy_monthly (tbl w)).*1 →
        NoDup (fact_energy_monthly (tbl w2)).*1) ∧
       (NoDup (fact_emissions_monthly (tbl w)).*1 →
        NoDup (fact_emissions_monthly (tbl w2)).*1) ∧
       (NoDup (fact_carbon_intensity (tbl w)).*1 →
        NoDup (fact_carbon_intensity (tbl w2)).*1)).
Proof.
  split.
  - intros K V eqK has_null tbl r Hn.
    exists (upsert_row has_null tbl r).
    split; [by apply single_row_merge|].
    split; [by apply upsert_row_holds|]. split; [|split].
    + intros Hin.
      pose proof (upsert_row_update_keys has_null tbl r Hn Hin) as Hk.
      split; [done|].
      by rewrite <- (length_fmap fst), Hk, length_fmap.
    + apply upsert_row_insert.
    + intros t. apply upsert_row_others.
  - intros g g' w w1 Hmain Hkeys Hm.
    pose proof Hmain as Hinv.
    apply main_ok_inv, load_ok_inv in Hinv
      as (Hg & e & x & i & He & Hx & Hi & Hw1).
    assert (build_facts g w1 = build_facts g (registered g w)) as Hsame.
    { subst w1. apply build_facts_dims; [|done].
      intros d. apply registered_dims_kept. }
    assert (Forall (λ fr, any_na fr.2 = false)
              (guard_input (build_facts g' w1))) as Hg'.
    { apply (guard_same_keys g g'); [done| |done]. by rewrite Hsame. }
    destruct (second_load g g' w w1 Hmain Hkeys Hg')
      as (_ & e' & x' & i' & Hm2 & (_ & Ke & Le) & (_ & Kx & Lx) & (_ & Ki & Li)).
    exists (facts_replaced e' x' i' w1).
    assert (build_facts g' (facts_replaced e' x' i' w1) = build_facts g' w1)
      as Hb2.
    { apply build_facts_dims; [|done]. intros d. apply facts_replaced_dims. }
    assert (fetch_dim_map Region (facts_replaced e' x' i' w1) =
            fetch_dim_map Region w1) as Mr by done.
    assert (fetch_dim_map EnergySource (facts_replaced e' x' i' w1) =
            fetch_dim_map EnergySource w1) as Ms by done.
    assert (fetch_dim_map Sector (facts_replaced e' x' i' w1) =
            fetch_dim_map Sector w1) as Mc by done.
    assert (fetch_time_map (facts_replaced e' x' i' w1) = fetch_time_map w1)
      as Mt by done.
    pose proof Hg as (Ge & Gx & Gi)%guard_passes_inv.
    split; [done|]. split; [intros d; apply facts_replaced_dims|].
    split; [done|]. split; [done|]. split; [done|]. split; [done|].
    split; [|split; [|split; [|split; [|split]]]].
    + intros r Hr. rewrite Mr, Ms, Mt. apply Le.
      unfold build_facts. cbn [energy_fact]. rewrite energy_rows_build.
      by apply list_elem_of_fmap_2.
    + intros r Hr. rewrite Mr, Mc, Mt. apply Lx.
      unfold build_facts. cbn [emissions_fact]. rewrite emissions_rows_build.
      by apply list_elem_of_fmap_2.
    + intros r Hr. rewrite Mr, Mt. apply Li.
      unfold build_facts. cbn [intensity_fact]. rewrite intensity_rows_build.
      by apply list_elem_of_fmap_2.
    + intros Hnd. cbn [facts_replaced tbl fact_energy_monthly set_fact_intensity
                       set_fact_emissions set_fact_energy].
      rewrite Ke. subst w1. cbn.
      apply merge_Some in He as (-> & _ & _); [|by apply energy_guard_complete].
      apply fold_upsert_NoDup; [by apply energy_guard_complete|done].
    + intros Hnd. cbn [facts_replaced tbl fact_emissions_monthly
                       set_fact_intensity set_fact_emissions set_fact_energy].
      rewrite Kx. subst w1. cbn.
      apply merge_Some in Hx as (-> & _ & _); [|by apply emissions_guard_complete].
      apply fold_upsert_NoDup; [by apply emissions_guard_complete|done].
    + intros Hnd. cbn [facts_replaced tbl fact_carbon_intensity
                       set_fact_intensity set_fact_emissions set_fact_energy].
      rewrite Ki. subst w1. cbn.
      apply merge_Some in Hi as (-> & _ & _); [|by apply intensity_guard_complete].
      apply fold_upsert_NoDup; [by apply intensity_guard_complete|done].
Qed.

(** The revised load overwrites: one row per key, carrying the revised
    metrics, nothing summed. *)
Example revised_load_overwrites :
  (fact_emissions_monthly
     (tbl (main marts_january_revised
             (main marts_january empty_warehouse).2).2)).*2 =
  [(cell 8, cell 248, 31); (cell 6, cell 174, 29)].
Proof. vm_compute. reflexivity. Qed.

Lemma fact_merge_is_last_write_wins_witness :
  ∃ w2,
    main marts_january_revised (main marts_january empty_warehouse).2 =
      (Ok tt, w2) ∧
    (fact_energy_monthly (tbl w2)).*1 =
      (fact_energy_monthly (tbl (main marts_january empty_warehouse).2)).*1 ∧
    (∀ r, r ∈ energy_m marts_january_revised →
       holds (fact_energy_monthly (tbl w2))
         (energy_fact_row (fetch_dim_map Region w2)
            (fetch_dim_map EnergySource w2) (fetch_time_map w2) r)).
Proof.
  destruct (proj2 fact_merge_is_last_write_wins marts_january
              marts_january_revised empty_warehouse
              (main marts_january empty_warehouse).2)
    as (w2 & Hm & _ & _ & Hk & _ & _ & Hh & _).
  - vm_compute. reflexivity.
  - unfold same_natural_keys. vm_compute. done.
  - vm_compute. reflexivity.
  - exists w2. split; [exact Hm|]. split; [exact Hk|exact Hh].
Defined.

(** * Further properties of the loader *)

(** ** Dict comprehensions over table rows *)

Section dict_lookup.
Context {A K V : Type} `{Countable K} (key : A → K) (val : A → V).

(** A key of the dict maps to the value some row gives it. *)
Lemma dict_fold_lookup (rows : list A) (m0 : gmap K V) (k : K) (v : V) :
  fold_left (λ m r, <[key r := val r]> m) rows m0 !! k = Some v →
  (∃ r, r ∈ rows ∧ key r = k ∧ val r = v) ∨ m0 !! k = Some v.
Proof.
  revert m0. induction rows as [|r rows IH]; intros m0; csimpl; [by right|].
  intros [(r' & Hr' & Hk & Hv)|Hm0]%IH.
  - left. exists r'. split; [by right|done].
  - rewrite lookup_insert in Hm0. case_decide; [|by right].
    left. exists r. split; [by left|]. split; congruence.
Qed.

(** Rows of other keys do not change what a key maps to. *)
Lemma dict_fold_notin (rows : list A) (m0 : gmap K V) (k : K) :
  k ∉ key <$> rows →
  fold_left (λ m r, <[key r := val r]> m) rows m0 !! k = m0 !! k.
Proof.
  revert m0. induction rows as [|r rows IH]; intros m0 Hk; csimpl; [done|].
  rewrite fmap_cons, not_elem_of_cons in Hk. destruct Hk as [Hne Hk].
  rewrite IH by done. by rewrite lookup_insert_ne.
Qed.

(** With one row per key, every row is found under its key. *)
Lemma dict_fold_row (rows : list A) (m0 : gmap K V) (r : A) :
  NoDup (key <$> rows) → r ∈ rows →
  fold_left (λ m r, <[key r := val r]> m) rows m0 !! key r = Some (val r).
Proof.
  revert m0. induction rows as [|r0 rows IH]; intros m0 Hnd Hr.
  { by apply elem_of_nil in Hr. }
  rewrite fmap_cons in Hnd. apply NoDup_cons in Hnd as [Hr0 Hnd]. csimpl.
  apply elem_of_cons in Hr as [->|Hr]; [|by apply IH].
  rewrite dict_fold_notin by done. apply lookup_insert_eq.
Qed.
End dict_lookup.

(** ** The id maps are the dimension tables *)

Lemma dim_map_lookup rows n id :
  dict_of_dim_rows rows !! n = Some id → DimRow id n ∈ rows.
Proof.
  unfold dict_of_dim_rows.
  intros [([id' n'] & Hr & Hk & Hv)|Hm]%(dict_fold_lookup dim_name dim_id).
  - simpl in *. by subst.
  - by rewrite lookup_empty in Hm.
Qed.

Lemma time_map_lookup rows p id :
  dict_of_time_rows rows !! p = Some id → TimeRow id p.1 p.2 ∈ rows.
Proof.
  unfold dict_of_time_rows.
  intros [([id' y m] & Hr & Hk & Hv)|Hm]%(dict_fold_lookup time_key time_id).
  - unfold time_key in Hk. simpl in *. by subst.
  - by rewrite lookup_empty in Hm.
Qed.

(** X1: [fetch_dim_map] and [fetch_time_map] return the table as a dict:
    every entry is a row of the table, and when the table has one row per
    name (per year-month pair) every row is an entry. *)
Theorem id_maps_are_the_tables (d : dimension) (w : warehouse) :
  dimensions_unique (tbl w) →
  (∀ n id, fetch_dim_map d w !! n = Some id ↔ DimRow id n ∈ get_dim d (tbl w)) ∧
  (∀ y m id, fetch_time_map w !! (y, m) = Some id ↔
             TimeRow id y m ∈ dim_time (tbl w)).
Proof.
  intros [Hd Ht]. split.
  - intros n id. split; [apply dim_map_lookup|].
    intros Hr. unfold fetch_dim_map, dict_of_dim_rows.
    apply (dict_fold_row dim_name dim_id _ _ (DimRow id n)); [apply Hd|done].
  - intros y m id. split; [apply (time_map_lookup _ (y, m))|].
    intros Hr. unfold fetch_time_map, dict_of_time_rows.
    apply (dict_fold_row time_key time_id _ _ (TimeRow id y m)); [apply Ht|done].
Qed.

Lemma id_maps_are_the_tables_witness :
  (∀ n id, fetch_dim_map Region north_south !! n = Some id ↔
           DimRow id n ∈ get_dim Region (tbl north_south)) ∧
  (∀ y m id, fetch_time_map north_south !! (y, m) = Some id ↔
             TimeRow id y m ∈ dim_time (tbl north_south)).
Proof.
  apply (id_maps_are_the_tables Region north_south).
  split.
  - intros d. destruct d;
      apply (@bool_decide_unpack _ (NoDup_dec _)); vm_compute; exact I.
  - apply (@bool_decide_unpack _ (NoDup_dec _)). vm_compute. exact I.
Defined.

(** ** Dimension rows after steps 1 and 2 *)

Lemma registered_dim g w d :
  ∃ w0, get_dim d (tbl w0) = get_dim d (tbl w) ∧
        get_seq d (seqs w0) = get_seq d (seqs w) ∧
        get_dim d (tbl (registered g w)) =
        get_dim d (tbl (dim_registered d (candidates g d) w0)).
Proof.
  destruct d.
  - exists w. split; [done|]. split; [done|]. apply registered_dim_region.
  - exists (dim_registered Region (em_region <$> energy_m g) w).
    split; [by apply dim_registered_frame|]. split.
    + unfold dim_registered. by destruct (decide _).
    + apply registered_dim_source.
  - exists (dim_registered EnergySource (em_energy_source <$> energy_m g)
              (dim_registered Region (em_region <$> energy_m g) w)).
    split.
    { rewrite (proj1 (dim_registered_frame EnergySource _ _)) by done.
      by apply dim_registered_frame. }
    split.
    + unfold dim_registered. by repeat destruct (decide _).
    + apply registered_dim_sector.
Qed.

(** Steps 1 and 2 append to each dimension the rows of its missing
    candidates and nothing else. *)
Lemma registered_rows g w d :
  get_dim d (tbl (registered g w)) =
  get_dim d (tbl w) ++
  new_dim_rows (get_seq d (seqs w))
    (missing_names (get_dim d (tbl w)) (sorted (py_set (candidates g d)))).
Proof.
  destruct (registered_dim g w d) as (w0 & Hrows & Hseq & ->).
  by rewrite dim_registered_rows, Hrows, Hseq.
Qed.

Lemma elem_of_registered_names g w d n :
  n ∈ dim_name <$> get_dim d (tbl (registered g w)) ↔
  n ∈ dim_name <$> get_dim d (tbl w) ∨ n ∈ candidates g d.
Proof.
  rewrite registered_rows, fmap_app, new_dim_rows_names, elem_of_app,
    missing_names_spec, elem_of_sorted_set.
  destruct (decide (n ∈ dim_name <$> get_dim d (tbl w))); tauto.
Qed.

Lemma NoDup_app_missing_names rows stg :
  NoDup (dim_name <$> rows) → NoDup stg →
  NoDup ((dim_name <$> rows) ++ missing_names rows stg).
Proof.
  intros Hr Hs. apply NoDup_app. split; [done|]. split.
  - intros n Hn [_ Hm]%missing_names_spec. done.
  - by apply NoDup_filter.
Qed.

Lemma NoDup_app_missing_pairs rows stg :
  NoDup (time_key <$> rows) → NoDup stg →
  NoDup ((time_key <$> rows) ++ missing_pairs rows stg).
Proof.
  intros Hr Hs. apply NoDup_app. split; [done|]. split.
  - intros n Hn [_ Hm]%missing_pairs_spec. done.
  - by apply NoDup_filter.
Qed.

Lemma dim_registered_unique table values w :
  NoDup (dim_name <$> get_dim table (tbl w)) →
  NoDup (dim_name <$> get_dim table (tbl (dim_registered table values w))).
Proof.
  intros Hnd. rewrite dim_registered_rows, fmap_app, new_dim_rows_names.
  apply NoDup_app_missing_names; [done|apply NoDup_sorted_set].
Qed.

Lemma time_registered_unique pairs w :
  NoDup (time_key <$> dim_time (tbl w)) →
  NoDup (time_key <$> dim_time (tbl (time_registered pairs w))).
Proof.
  intros Hnd. rewrite time_registered_rows, fmap_app, new_time_rows_keys.
  apply NoDup_app_missing_pairs; [done|apply NoDup_drop_duplicates].
Qed.

Lemma registered_unique g w :
  dimensions_unique (tbl w) → dimensions_unique (tbl (registered g w)).
Proof.
  intros [Hd Ht]. split.
  - intros d. rewrite registered_rows, fmap_app, new_dim_rows_names.
    apply NoDup_app_missing_names; [apply Hd|apply NoDup_sorted_set].
  - rewrite dim_time_registered, fmap_app, new_time_rows_keys.
    apply NoDup_app_missing_pairs; [done|apply NoDup_drop_duplicates].
Qed.

(** What [main] leaves: the tables it found, or the registered dimensions
    with the three merged fact tables. *)
Lemma main_cases g w :
  ((∃ err, (main g w).1 = Raise err) ∧ tbl (main g w).2 = tbl w) ∨
  ((main g w).1 = Ok tt ∧
   Forall (λ fr, any_na fr.2 = false)
     (guard_input (build_facts g (registered g w))) ∧
   ∃ e x i,
     insert_on_conflict energy_key_has_null []
       (energy_rows (energy_fact (build_facts g (registered g w))))
       (fact_energy_monthly (tbl w)) = Some e ∧
     insert_on_conflict emissions_key_has_null []
       (emissions_rows (emissions_fact (build_facts g (registered g w))))
       (fact_emissions_monthly (tbl w)) = Some x ∧
     insert_on_conflict intensity_key_has_null []
       (intensity_rows (intensity_fact (build_facts g (registered g w))))
       (fact_carbon_intensity (tbl w)) = Some i ∧
     (main g w).2 = intensity_upserted i (emissions_upserted x
                      (energy_upserted e (registered g w)))).
Proof.
  unfold main, engine_begin.
  destruct (load g w) as [[[]|err] w1] eqn:Hload; cbn [fst snd].
  - right. split; [done|].
    apply load_ok_inv in Hload as (Hg & e & x & i & He & Hx & Hi & ->).
    split; [done|]. by exists e, x, i.
  - left. split; [by exists err|done].
Qed.

Lemma main_dims g w d :
  get_dim d (tbl (main g w).2) = get_dim d (tbl w) ∨
  get_dim d (tbl (main g w).2) = get_dim d (tbl (registered g w)).
Proof.
  destruct (main_cases g w) as [[_ ->]|(_ & _ & e & x & i & _ & _ & _ & ->)].
  - by left.
  - right. apply registered_dims_kept.
Qed.

Lemma main_dim_time g w :
  dim_time (tbl (main g w).2) = dim_time (tbl w) ∨
  dim_time (tbl (main g w).2) = dim_time (tbl (registered g w)).
Proof.
  destruct (main_cases g w) as [[_ ->]|(_ & _ & e & x & i & _ & _ & _ & ->)].
  - by left.
  - by right.
Qed.

(** ** The unique constraints of the dimensions are kept *)

(** X2: registration never makes a second row for a name or for a
    year-month pair: a warehouse with one row per name in every dimension
    and one row per pair in [dim_time] is such a warehouse again after
    [upsert_dim_table], after [upsert_dim_time] and after [main], whether
    [main] returns or raises. *)
Theorem registration_keeps_dimensions_unique
    (table : dimension) (values : list string) (pairs : list (Z * Z))
    (g : marts) (w : warehouse) :
  dimensions_unique (tbl w) →
  dimensions_unique (tbl (upsert_dim_table table values w).2) ∧
  dimensions_unique (tbl (upsert_dim_time pairs w).2) ∧
  dimensions_unique (tbl (main g w).2).
Proof.
  intros Hw. pose proof Hw as [Hd Ht].
  rewrite upsert_dim_table_eq, upsert_dim_time_eq. cbn [snd].
  split; [|split].
  - split.
    + intros d. destruct (decide (d = table)) as [->|Hne].
      * by apply dim_registered_unique.
      * rewrite (proj1 (dim_registered_frame table values w)) by done.
        apply Hd.
    + by rewrite (proj1 (proj2 (dim_registered_frame table values w))).
  - split.
    + intros d. rewrite (proj1 (time_registered_frame pairs w)). apply Hd.
    + by apply time_registered_unique.
  - pose proof (registered_unique g w Hw) as [Hd' Ht']. split.
    + intros d. destruct (main_dims g w d) as [->| ->]; [apply Hd|apply Hd'].
    + destruct (main_dim_time g w) as [->| ->]; done.
Qed.

Lemma registration_keeps_dimensions_unique_witness :
  dimensions_unique
    (tbl (upsert_dim_table Region ["South"; "East"; "South"] north_south).2) ∧
  dimensions_unique (tbl (upsert_dim_time [(2024, 1); (2024, 1)] north_south).2) ∧
  dimensions_unique (tbl (main marts_january north_south).2).
Proof.
  apply (registration_keeps_dimensions_unique Region ["South"; "East"; "South"]
           [(2024, 1); (2024, 1)] marts_january north_south).
  split.
  - intros d. destruct d;
      apply (@bool_decide_unpack _ (NoDup_dec _)); vm_compute; exact I.
  - apply (@bool_decide_unpack _ (NoDup_dec _)). vm_compute. exact I.
Defined.

(** ** Registered names resolve, and keep their id *)

Lemma dim_map_app_old rows new n :
  n ∉ dim_name <$> new →
  dict_of_dim_rows (rows ++ new) !! n = dict_of_dim_rows rows !! n.
Proof.
  intros Hn. unfold dict_of_dim_rows. rewrite fold_left_app.
  by apply (dict_fold_notin dim_name dim_id).
Qed.

Lemma time_map_app_old rows new p :
  p ∉ time_key <$> new →
  dict_of_time_rows (rows ++ new) !! p = dict_of_time_rows rows !! p.
Proof.
  intros Hp. unfold dict_of_time_rows. rewrite fold_left_app.
  by apply (dict_fold_notin time_key time_id).
Qed.

Lemma dim_map_registered_old table values w n :
  n ∈ dim_name <$> get_dim table (tbl w) →
  fetch_dim_map table (dim_registered table values w) !! n =
  fetch_dim_map table w !! n.
Proof.
  intros Hn. unfold fetch_dim_map. rewrite dim_registered_rows.
  apply dim_map_app_old. rewrite new_dim_rows_names.
  intros [_ Hm]%missing_names_spec. done.
Qed.

Lemma time_map_registered_old pairs w p :
  p ∈ time_key <$> dim_time (tbl w) →
  fetch_time_map (time_registered pairs w) !! p = fetch_time_map w !! p.
Proof.
  intros Hp. unfold fetch_time_map. rewrite time_registered_rows.
  apply time_map_app_old. rewrite new_time_rows_keys.
  intros [_ Hm]%missing_pairs_spec. done.
Qed.

(** X3: registering and then fetching the map is a round trip: every
    candidate handed to [upsert_dim_table] is a key of the map
    [fetch_dim_map] returns afterwards, and the id it maps to is the id of a
    row of the dimension carrying that name; likewise for
    [upsert_dim_time] and [fetch_time_map]. *)
Theorem registered_candidates_resolve
    (table : dimension) (values : list string) (pairs : list (Z * Z))
    (w : warehouse) :
  (∀ n, n ∈ values →
     ∃ id, fetch_dim_map table (upsert_dim_table table values w).2 !! n = Some id ∧
           DimRow id n ∈ get_dim table (tbl (upsert_dim_table table values w).2)) ∧
  (∀ y m, (y, m) ∈ pairs →
     ∃ id, fetch_time_map (upsert_dim_time pairs w).2 !! (y, m) = Some id ∧
           TimeRow id y m ∈ dim_time (tbl (upsert_dim_time pairs w).2)).
Proof.
  rewrite upsert_dim_table_eq, upsert_dim_time_eq. cbn [snd]. split.
  - intros n Hn.
    destruct (proj2 (dim_map_is_Some
                       (get_dim table (tbl (dim_registered table values w))) n))
      as [id Hid]; [by apply dim_registered_covers|].
    exists id. split; [done|]. by apply dim_map_lookup.
  - intros y m Hp.
    destruct (proj2 (time_map_is_Some
                       (dim_time (tbl (time_registered pairs w))) (y, m)))
      as [id Hid].
    { rewrite time_registered_rows, fmap_app, new_time_rows_keys.
      rewrite elem_of_app, missing_pairs_spec, elem_of_drop_duplicates.
      destruct (decide ((y, m) ∈ time_key <$> dim_time (tbl w))); tauto. }
    exists id. split; [done|]. by apply (time_map_lookup _ (y, m)).
Qed.

(** X4: a name (a year-month pair) that has a row before a registration or
    before a whole load resolves to the same id afterwards: neither
    [upsert_dim_table], nor [upsert_dim_time], nor [main] changes what
    [fetch_dim_map] and [fetch_time_map] return for it. *)
Theorem registered_names_keep_their_id
    (table : dimension) (values : list string) (pairs : list (Z * Z))
    (g : marts) (w : warehouse) :
  (∀ n, n ∈ dim_name <$> get_dim table (tbl w) →
     fetch_dim_map table (upsert_dim_table table values w).2 !! n =
       fetch_dim_map table w !! n ∧
     fetch_dim_map table (main g w).2 !! n = fetch_dim_map table w !! n) ∧
  (∀ p, p ∈ time_key <$> dim_time (tbl w) →
     fetch_time_map (upsert_dim_time pairs w).2 !! p = fetch_time_map w !! p ∧
     fetch_time_map (main g w).2 !! p = fetch_time_map w !! p).
Proof.
  rewrite upsert_dim_table_eq, upsert_dim_time_eq. cbn [snd]. split.
  - intros n Hn. split; [by apply dim_map_registered_old|].
    unfold fetch_dim_map.
    destruct (main_dims g w table) as [->| ->]; [done|].
    rewrite registered_rows. apply dim_map_app_old.
    rewrite new_dim_rows_names. intros [_ Hm]%missing_names_spec. done.
  - intros p Hp. split; [by apply time_map_registered_old|].
    unfold fetch_time_map.
    destruct (main_dim_time g w) as [->| ->]; [done|].
    rewrite dim_time_registered. apply time_map_app_old.
    rewrite new_time_rows_keys. intros [_ Hm]%missing_pairs_spec. done.
Qed.

(** ** Which id columns can be missing *)

Lemma id_column_no_na {A} (rows : list dim_row) (name : A → string) (m : list A) :
  col_has_na (series_map (dict_of_dim_rows rows) (name <$> m)) = false ↔
  ∀ r, r ∈ m → name r ∈ dim_name <$> rows.
Proof.
  unfold series_map. rewrite <- list_fmap_compose, col_has_na_fmap.
  split; intros Hall r Hr; apply dim_map_is_Some, Hall, Hr.
Qed.

(** X5: [main] registers regions and energy sources from the energy mart
    and sectors from the emissions mart only.  So, in the frames built
    after steps 1 and 2, the [region_id] and [source_id] columns of
    [energy_fact] and the [sector_id] column of [emissions_fact] never hold
    a missing value, while the [region_id] column of [emissions_fact] (of
    [intensity_fact]) is free of missing values exactly when every region of
    the emissions mart (of the carbon-intensity mart) occurs in the energy
    mart or had a row in [dim_region] before the load. *)
Theorem unresolved_ids_are_foreign_regions (g : marts) (w : warehouse) :
  let f := build_facts g (register_dimensions g w).2 in
  col_has_na (ef_region_id (energy_fact f)) = false ∧
  col_has_na (ef_source_id (energy_fact f)) = false ∧
  col_has_na (xf_sector_id (emissions_fact f)) = false ∧
  (col_has_na (xf_region_id (emissions_fact f)) = false ↔
   ∀ r, r ∈ emis_m g →
        xm_region r ∈ dim_name <$> dim_region (tbl w) ∨
        xm_region r ∈ em_region <$> energy_m g) ∧
  (col_has_na (if_region_id (intensity_fact f)) = false ↔
   ∀ r, r ∈ intensity g →
        im_region r ∈ dim_name <$> dim_region (tbl w) ∨
        im_region r ∈ em_region <$> energy_m g).
Proof.
  intros f. subst f. rewrite register_dimensions_eq. cbn [snd].
  unfold build_facts, fetch_dim_map.
  cbn [energy_fact emissions_fact intensity_fact build_energy_fact
       build_emissions_fact build_intensity_fact ef_region_id ef_source_id
       xf_sector_id xf_region_id if_region_id].
  rewrite !id_column_no_na.
  split; [|split; [|split; [|split]]].
  - intros r Hr. apply (elem_of_registered_names g w Region). right.
    by apply list_elem_of_fmap_2.
  - intros r Hr. apply (elem_of_registered_names g w EnergySource). right.
    by apply list_elem_of_fmap_2.
  - intros r Hr. apply (elem_of_registered_names g w Sector). right.
    by apply list_elem_of_fmap_2.
  - split; intros Hall r Hr;
      apply (elem_of_registered_names g w Region), Hall, Hr.
  - split; intros Hall r Hr;
      apply (elem_of_registered_names g w Region), Hall, Hr.
Qed.

(** ** When the load returns and when it raises *)

Section merge_outcome.
Context {K V : Type} `{EqDecision K}.
Variable has_null : K → bool.

(** With complete keys the statement raises exactly when two staged rows
    share a key. *)
Lemma merge_None_iff (stg tbl : list (K * V)) :
  complete_keys has_null stg →
  insert_on_conflict has_null [] stg tbl = None ↔ ¬ NoDup stg.*1.
Proof.
  intros Hc. split.
  - intros Hnone Hnd.
    rewrite merge_complete in Hnone; [done|done|done|].
    intros r _ Hr. by apply elem_of_nil in Hr.
  - intros Hdup.
    destruct (insert_on_conflict has_null [] stg tbl) eqn:Hm; [|done].
    by apply merge_Some in Hm as (_ & Hnd & _).
Qed.

Lemma merge_Some_iff (stg tbl : list (K * V)) :
  complete_keys has_null stg →
  is_Some (insert_on_conflict has_null [] stg tbl) ↔ NoDup stg.*1.
Proof.
  intros Hc. split.
  - intros [tbl' Hm]. by apply merge_Some in Hm as (_ & Hnd & _).
  - intros Hnd. rewrite merge_complete; [by eexists|done|done|].
    intros r _ Hr. by apply elem_of_nil in Hr.
Qed.
End merge_outcome.

Lemma guard_passes_or_not f :
  Forall (λ fr, any_na fr.2 = false) (guard_input f) ∨
  Exists (λ fr, any_na fr.2 = true) (guard_input f).
Proof.
  unfold guard_input.
  destruct (any_na (energy_isna_any (energy_fact f))) eqn:He;
    [right; by apply Exists_cons_hd|].
  destruct (any_na (emissions_isna_any (emissions_fact f))) eqn:Hx;
    [right; by apply Exists_cons_tl, Exists_cons_hd|].
  destruct (any_na (intensity_isna_any (intensity_fact f))) eqn:Hi;
    [right; by do 2 apply Exists_cons_tl; apply Exists_cons_hd|].
  left. by repeat constructor.
Qed.

Lemma guard_not_both f :
  Forall (λ fr, any_na fr.2 = false) (guard_input f) →
  Exists (λ fr, any_na fr.2 = true) (guard_input f) → False.
Proof.
  intros Hall (fr & Hin & Hna)%Exists_exists.
  eapply Forall_forall in Hall; [|done]. congruence.
Qed.

(** The three merges of step 6, one after the other. *)
Lemma upsert_facts_eq f w :
  upsert_facts f w =
  match insert_on_conflict energy_key_has_null [] (energy_rows (energy_fact f))
          (fact_energy_monthly (tbl w)) with
  | None =>
      (Raise (CardinalityViolation "fact_energy_monthly"),
       staged_only "stg_fact_energy" (StgEnergy (energy_rows (energy_fact f))) w)
  | Some e =>
      match insert_on_conflict emissions_key_has_null []
              (emissions_rows (emissions_fact f))
              (fact_emissions_monthly (tbl w)) with
      | None =>
          (Raise (CardinalityViolation "fact_emissions_monthly"),
           staged_only "stg_fact_emissions"
             (StgEmissions (emissions_rows (emissions_fact f)))
             (energy_upserted e w))
      | Some x =>
          match insert_on_conflict intensity_key_has_null []
                  (intensity_rows (intensity_fact f))
                  (fact_carbon_intensity (tbl w)) with
          | None =>
              (Raise (CardinalityViolation "fact_carbon_intensity"),
               staged_only "stg_fact_intensity"
                 (StgIntensity (intensity_rows (intensity_fact f)))
                 (emissions_upserted x (energy_upserted e w)))
          | Some i =>
              (Ok tt,
               intensity_upserted i (emissions_upserted x (energy_upserted e w)))
          end
      end
  end.
Proof.
  unfold upsert_facts, mbind, Tx_bind, bind.
  rewrite upsert_fact_energy_eq.
  destruct (insert_on_conflict energy_key_has_null _ _ _) as [e|]; [|done].
  rewrite upsert_fact_emissions_eq, energy_upserted_emissions.
  destruct (insert_on_conflict emissions_key_has_null _ _ _) as [x|]; [|done].
  rewrite upsert_fact_intensity_eq, emissions_upserted_intensity.
  by destruct (insert_on_conflict intensity_key_has_null _ _ _) as [i|].
Qed.

Lemma load_after_guard g w :
  Forall (λ fr, any_na fr.2 = false)
    (guard_input (build_facts g (registered g w))) →
  load g w = upsert_facts (build_facts g (registered g w)) (registered g w).
Proof.
  intros Hg. rewrite load_eq. unfold mbind, Tx_bind, bind.
  by rewrite (fail_fast_ok _ _ Hg).
Qed.

(** The five ways a load can go. *)
Lemma main_result_cases g w :
  let f := build_facts g (registered g w) in
  let ke := (energy_rows (energy_fact f)).*1 in
  let kx := (emissions_rows (emissions_fact f)).*1 in
  let ki := (intensity_rows (intensity_fact f)).*1 in
  let ok := Forall (λ fr, any_na fr.2 = false) (guard_input f) in
  (Exists (λ fr, any_na fr.2 = true) (guard_input f) ∧
   ∃ msg, (main g w).1 = Raise (ValueError msg)) ∨
  (ok ∧ ¬ NoDup ke ∧
   (main g w).1 = Raise (CardinalityViolation "fact_energy_monthly")) ∨
  (ok ∧ NoDup ke ∧ ¬ NoDup kx ∧
   (main g w).1 = Raise (CardinalityViolation "fact_emissions_monthly")) ∨
  (ok ∧ NoDup ke ∧ NoDup kx ∧ ¬ NoDup ki ∧
   (main g w).1 = Raise (CardinalityViolation "fact_carbon_intensity")) ∨
  (ok ∧ NoDup ke ∧ NoDup kx ∧ NoDup ki ∧ (main g w).1 = Ok tt).
Proof.
  intros f ke kx ki ok. subst ok.
  destruct (guard_passes_or_not f) as [Hg|Hex].
  2:{ left. split; [done|].
      destruct (load_guard_raises g w Hex)
        as (before & name & flags & after & _ & _ & _ & Hr).
      eexists. unfold main, engine_begin. by rewrite Hr. }
  right.
  pose proof Hg as (Ge & Gx & Gi)%guard_passes_inv.
  apply energy_guard_complete in Ge.
  apply emissions_guard_complete in Gx.
  apply intensity_guard_complete in Gi.
  destruct (registered_facts g w) as (Hfe & Hfx & Hfi).
  unfold main, engine_begin.
  rewrite (load_after_guard g w Hg), upsert_facts_eq, Hfe, Hfx, Hfi.
  fold f.
  destruct (insert_on_conflict energy_key_has_null [] _ _) as [e|] eqn:He.
  2:{ left. split; [done|]. split; [|done].
      by apply (proj1 (merge_None_iff energy_key_has_null _
                         (fact_energy_monthly (tbl w)) Ge)). }
  assert (NoDup ke) as Hke.
  { apply (merge_Some_iff energy_key_has_null _ (fact_energy_monthly (tbl w)) Ge).
    rewrite He. by eexists. }
  right.
  destruct (insert_on_conflict emissions_key_has_null [] _ _) as [x|] eqn:Hx.
  2:{ left. split; [done|]. split; [done|]. split; [|done].
      by apply (proj1 (merge_None_iff emissions_key_has_null _
                         (fact_emissions_monthly (tbl w)) Gx)). }
  assert (NoDup kx) as Hkx.
  { apply (merge_Some_iff emissions_key_has_null _
             (fact_emissions_monthly (tbl w)) Gx).
    rewrite Hx. by eexists. }
  right.
  destruct (insert_on_conflict intensity_key_has_null [] _ _) as [i|] eqn:Hi.
  2:{ left. split; [done|]. split; [done|]. split; [done|]. split; [|done].
      by apply (proj1 (merge_None_iff intensity_key_has_null _
                         (fact_carbon_intensity (tbl w)) Gi)). }
  right. split; [done|]. split; [done|]. split; [done|]. split; [|done].
  apply (merge_Some_iff intensity_key_has_null _
           (fact_carbon_intensity (tbl w)) Gi).
  rewrite Hi. by eexists.
Qed.

(** X6: [main] returns exactly when no frame built after steps 1 and 2
    holds a missing value and no frame has two rows with the same key tuple.
    It raises the [ValueError] of the guard exactly when some frame holds a
    missing value; otherwise it raises the engine's error for the first fact
    table (energy, emissions, carbon intensity) whose frame has two rows
    with one key tuple. *)
Theorem main_returns_or_raises (g : marts) (w : warehouse) :
  let f := build_facts g (register_dimensions g w).2 in
  let ke := (energy_rows (energy_fact f)).*1 in
  let kx := (emissions_rows (emissions_fact f)).*1 in
  let ki := (intensity_rows (intensity_fact f)).*1 in
  let ok := Forall (λ fr, any_na fr.2 = false) (guard_input f) in
  ((main g w).1 = Ok tt ↔ ok ∧ NoDup ke ∧ NoDup kx ∧ NoDup ki) ∧
  ((∃ msg, (main g w).1 = Raise (ValueError msg)) ↔
   Exists (λ fr, any_na fr.2 = true) (guard_input f)) ∧
  (∀ t, (main g w).1 = Raise (CardinalityViolation t) ↔
     ok ∧
     ((t = "fact_energy_monthly" ∧ ¬ NoDup ke) ∨
      (t = "fact_emissions_monthly" ∧ NoDup ke ∧ ¬ NoDup kx) ∨
      (t = "fact_carbon_intensity" ∧ NoDup ke ∧ NoDup kx ∧ ¬ NoDup ki))).
Proof.
  intros f ke kx ki ok. subst ok ki kx ke f.
  rewrite register_dimensions_eq. cbn [snd].
  pose proof (main_result_cases g w) as Hcases. cbn zeta in Hcases.
  set (f := build_facts g (registered g w)) in *.
  set (ke := (energy_rows (energy_fact f)).*1) in *.
  set (kx := (emissions_rows (emissions_fact f)).*1) in *.
  set (ki := (intensity_rows (intensity_fact f)).*1) in *.
  set (ok := Forall (λ fr, any_na fr.2 = false) (guard_input f)) in *.
  assert (ok → Exists (λ fr, any_na fr.2 = true) (guard_input f) → False)
    as Hexcl by apply guard_not_both.
  destruct Hcases as [(Hex & msg & Hr)|[(Hok & Hke & Hr)|[(Hok & Hke & Hkx & Hr)
    |[(Hok & Hke & Hkx & Hki & Hr)|(Hok & Hke & Hkx & Hki & Hr)]]]];
    rewrite Hr; (split; [|split]).
  - split; [done|]. intros (Hok & _). by destruct Hexcl.
  - split; [done|]. intros _. by exists msg.
  - intros t. split; [done|]. intros (Hok & _). by destruct Hexcl.
  - split; [done|]. intros (_ & Hnd & _). done.
  - split; [by intros [? [=]]|]. intros Hex. by destruct Hexcl.
  - intros t. split.
    + intros [= <-]. split; [done|]. by left.
    + intros (_ & [[-> _]|[(_ & Hnd & _)|(_ & Hnd & _)]]); done.
  - split; [done|]. intros (_ & _ & Hnd & _). done.
  - split; [by intros [? [=]]|]. intros Hex. by destruct Hexcl.
  - intros t. split.
    + intros [= <-]. split; [done|]. right. by left.
    + intros (_ & [[_ Hnd]|[(-> & _)|(_ & _ & Hnd & _)]]); done.
  - split; [done|]. intros (_ & _ & _ & Hnd). done.
  - split; [by intros [? [=]]|]. intros Hex. by destruct Hexcl.
  - intros t. split.
    + intros [= <-]. split; [done|]. do 2 right. done.
    + intros (_ & [[_ Hnd]|[(_ & _ & Hnd)|(-> & _)]]); done.
  - done.
  - split; [by intros [? [=]]|]. intros Hex. by destruct Hexcl.
  - intros t. split; [done|].
    intros (_ & [[_ Hnd]|[(_ & _ & Hnd)|(_ & _ & _ & Hnd)]]); done.
Qed.

(** ** Two mart rows for one natural key *)

Lemma frame_keys_through_natural_keys g w :
  (∃ h, (energy_rows (energy_fact (build_facts g w))).*1 =
        h <$> (energy_natural_key <$> energy_m g)) ∧
  (∃ h, (emissions_rows (emissions_fact (build_facts g w))).*1 =
        h <$> (emissions_natural_key <$> emis_m g)) ∧
  (∃ h, (intensity_rows (intensity_fact (build_facts g w))).*1 =
        h <$> (intensity_natural_key <$> intensity g)).
Proof.
  unfold build_facts. cbn [energy_fact emissions_fact intensity_fact].
  rewrite energy_rows_build, emissions_rows_build, intensity_rows_build.
  split; [|split].
  - exists (λ k, (fetch_dim_map Region w !! k.1.1.1,
                  fetch_dim_map EnergySource w !! k.1.1.2,
                  fetch_time_map w !! (k.1.2, k.2))).
    rewrite <- !list_fmap_compose. by apply list_fmap_ext.
  - exists (λ k, (fetch_dim_map Region w !! k.1.1.1,
                  fetch_dim_map Sector w !! k.1.1.2,
                  fetch_time_map w !! (k.1.2, k.2))).
    rewrite <- !list_fmap_compose. by apply list_fmap_ext.
  - exists (λ k, (fetch_dim_map Region w !! k.1.1,
                  fetch_time_map w !! (k.1.2, k.2))).
    rewrite <- !list_fmap_compose. by apply list_fmap_ext.
Qed.

(** X7: a mart with two rows for one natural key cannot be loaded: [main]
    raises (the guard's error or the engine's refusal to write one row
    twice in a statement) and every table is as before. *)
Theorem duplicate_natural_key_is_refused (g : marts) (w : warehouse) :
  ¬ NoDup (energy_natural_key <$> energy_m g) ∨
  ¬ NoDup (emissions_natural_key <$> emis_m g) ∨
  ¬ NoDup (intensity_natural_key <$> intensity g) →
  (∃ err, (main g w).1 = Raise err) ∧ tbl (main g w).2 = tbl w.
Proof.
  intros Hdup.
  destruct (main_cases g w)
    as [?|(_ & Hg & e & x & i & He & Hx & Hi & _)]; [done|].
  exfalso.
  apply guard_passes_inv in Hg as (Ge & Gx & Gi).
  apply merge_Some in He as (_ & Ne & _); [|by apply energy_guard_complete].
  apply merge_Some in Hx as (_ & Nx & _); [|by apply emissions_guard_complete].
  apply merge_Some in Hi as (_ & Ni & _); [|by apply intensity_guard_complete].
  destruct (frame_keys_through_natural_keys g (registered g w))
    as ((he & Ke) & (hx & Kx) & (hi & Ki)).
  rewrite Ke in Ne. rewrite Kx in Nx. rewrite Ki in Ni.
  apply NoDup_fmap_1 in Ne, Nx, Ni. tauto.
Qed.

Lemma duplicate_natural_key_is_refused_witness :
  (∃ err, (main marts_duplicate_key empty_warehouse).1 = Raise err) ∧
  tbl (main marts_duplicate_key empty_warehouse).2 = tbl empty_warehouse.
Proof.
  apply (duplicate_natural_key_is_refused marts_duplicate_key empty_warehouse).
  right. left.
  apply (@bool_decide_unpack _ (not_dec (NoDup_dec _))). vm_compute. exact I.
Defined.

(** ** Fact rows a merge leaves alone *)

Section merge_frame.
Context {K V : Type} `{EqDecision K}.
Variable has_null : K → bool.

Local Abbreviation upsert := (upsert_row (V:=V) has_null).

Lemma upsert_row_keys (tbl : list (K * V)) (r : K * V) :
  (upsert tbl r).*1 = tbl.*1 ∨ (upsert tbl r).*1 = tbl.*1 ++ [r.1].
Proof.
  unfold upsert_row. destruct (has_null r.1) eqn:Hn.
  - right. by rewrite fmap_app.
  - destruct (decide (r.1 ∈ tbl.*1)) as [Hin|Hin].
    + left. rewrite <- list_fmap_compose. apply list_fmap_ext.
      intros i t _. simpl. by destruct (decide (t.1 = r.1)).
    + right. by rewrite fmap_app.
Qed.

(** A merge keeps the key column it found as a prefix: no row is deleted
    or moved. *)
Lemma fold_upsert_keys_prefix (stg tbl : list (K * V)) :
  ∃ added, (fold_left upsert stg tbl).*1 = tbl.*1 ++ added.
Proof.
  revert tbl. induction stg as [|r stg IH]; intros tbl; simpl.
  - exists []. by rewrite app_nil_r.
  - destruct (IH (upsert tbl r)) as (added & ->).
    destruct (upsert_row_keys tbl r) as [-> | ->]; [by exists added|].
    exists (r.1 :: added). by rewrite <- app_assoc.
Qed.

(** A merge leaves the rows of keys it does not stage as they are. *)
Lemma fold_upsert_others (stg tbl : list (K * V)) (t : K * V) :
  t ∈ tbl → t.1 ∉ stg.*1 → t ∈ fold_left upsert stg tbl.
Proof.
  revert tbl. induction stg as [|r stg IH]; intros tbl Ht Hk; [done|].
  rewrite fmap_cons, not_elem_of_cons in Hk. destruct Hk as [Hne Hk].
  simpl. apply IH; [|done]. by apply upsert_row_others.
Qed.

(** The key of a row of the merged table is a key the table had or a staged
    key. *)
Lemma fold_upsert_key_origin (stg tbl : list (K * V)) (k : K) :
  k ∈ (fold_left upsert stg tbl).*1 → k ∈ tbl.*1 ∨ k ∈ stg.*1.
Proof.
  revert tbl. induction stg as [|r stg IH]; intros tbl; simpl; [by left|].
  intros [Hk|Hk]%IH.
  - destruct (upsert_row_keys tbl r) as [Heq|Heq]; rewrite Heq in Hk.
    + by left.
    + apply elem_of_app in Hk as [Hk|Hk]; [by left|].
      apply list_elem_of_singleton in Hk. right. subst.
      apply elem_of_cons. by left.
  - right. apply elem_of_cons. by right.
Qed.
End merge_frame.

(** X8: no load deletes, moves or rewrites a fact row it has no row for:
    after [main], returned or raised, the key column of each fact table
    starts with the key column it had, and every row whose key tuple is not
    a key tuple of the frame built for its table is still there, with the
    same metrics. *)
Theorem load_keeps_other_fact_rows (g : marts) (w : warehouse) :
  let f := build_facts g (register_dimensions g w).2 in
  ((∃ added, (fact_energy_monthly (tbl (main g w).2)).*1 =
             (fact_energy_monthly (tbl w)).*1 ++ added) ∧
   ∀ t, t ∈ fact_energy_monthly (tbl w) →
        t.1 ∉ (energy_rows (energy_fact f)).*1 →
        t ∈ fact_energy_monthly (tbl (main g w).2)) ∧
  ((∃ added, (fact_emissions_monthly (tbl (main g w).2)).*1 =
             (fact_emissions_monthly (tbl w)).*1 ++ added) ∧
   ∀ t, t ∈ fact_emissions_monthly (tbl w) →
        t.1 ∉ (emissions_rows (emissions_fact f)).*1 →
        t ∈ fact_emissions_monthly (tbl (main g w).2)) ∧
  ((∃ added, (fact_carbon_intensity (tbl (main g w).2)).*1 =
             (fact_carbon_intensity (tbl w)).*1 ++ added) ∧
   ∀ t, t ∈ fact_carbon_intensity (tbl w) →
        t.1 ∉ (intensity_rows (intensity_fact f)).*1 →
        t ∈ fact_carbon_intensity (tbl (main g w).2)).
Proof.
  intros f. subst f. rewrite register_dimensions_eq. cbn [snd].
  destruct (main_cases g w)
    as [[_ ->]|(_ & Hg & e & x & i & He & Hx & Hi & ->)].
  { repeat split; try done; exists []; by rewrite app_nil_r. }
  apply guard_passes_inv in Hg as (Ge & Gx & Gi).
  apply merge_Some in He as (-> & _ & _); [|by apply energy_guard_complete].
  apply merge_Some in Hx as (-> & _ & _); [|by apply emissions_guard_complete].
  apply merge_Some in Hi as (-> & _ & _); [|by apply intensity_guard_complete].
  cbn [intensity_upserted emissions_upserted energy_upserted tbl
       set_staging set_fact_intensity set_fact_emissions set_fact_energy
       fact_energy_monthly fact_emissions_monthly fact_carbon_intensity].
  split; [|split]; (split; [apply fold_upsert_keys_prefix|]);
    intros t Ht Hk; by apply fold_upsert_others.
Qed.

(** ** The unique constraints of the fact tables are kept *)

(** X9: a load never makes a second fact row for a key tuple: fact tables
    with one row per key tuple are such tables again after [main], whether
    it returns or raises. *)
Theorem load_keeps_fact_keys_unique (g : marts) (w : warehouse) :
  fact_keys_unique (tbl w) → fact_keys_unique (tbl (main g w).2).
Proof.
  intros (Ne & Nx & Ni).
  destruct (main_cases g w)
    as [[_ ->]|(_ & Hg & e & x & i & He & Hx & Hi & ->)]; [done|].
  apply guard_passes_inv in Hg as (Ge & Gx & Gi).
  apply energy_guard_complete in Ge.
  apply emissions_guard_complete in Gx.
  apply intensity_guard_complete in Gi.
  apply merge_Some in He as (-> & _ & _); [|done].
  apply merge_Some in Hx as (-> & _ & _); [|done].
  apply merge_Some in Hi as (-> & _ & _); [|done].
  unfold fact_keys_unique.
  cbn [intensity_upserted emissions_upserted energy_upserted tbl
       set_staging set_fact_intensity set_fact_emissions set_fact_energy
       fact_energy_monthly fact_emissions_monthly fact_carbon_intensity].
  split; [|split]; by apply fold_upsert_NoDup.
Qed.

Lemma load_keeps_fact_keys_unique_witness :
  fact_keys_unique (tbl (main marts_january empty_warehouse).2).
Proof.
  apply (load_keeps_fact_keys_unique marts_january empty_warehouse).
  unfold fact_keys_unique, empty_warehouse. cbn.
  split; [|split]; apply NoDup_nil; done.
Defined.

(** ** Referential integrity *)

Lemma ref_ok_mono (ids ids' : list Z) (cell : option Z) :
  (∀ id, id ∈ ids → id ∈ ids') → ref_ok ids cell → ref_ok ids' cell.
Proof. intros Hsub Hok id Hid. by apply Hsub, Hok. Qed.

Lemma ref_ok_dim_map rows n : ref_ok (dim_id <$> rows) (dict_of_dim_rows rows !! n).
Proof.
  intros id Hid%dim_map_lookup.
  by apply (list_elem_of_fmap_2 dim_id) in Hid.
Qed.

Lemma ref_ok_time_map rows p :
  ref_ok (time_id <$> rows) (dict_of_time_rows rows !! p).
Proof.
  intros id Hid%time_map_lookup.
  by apply (list_elem_of_fmap_2 time_id) in Hid.
Qed.

Lemma registered_dim_ids_grow g w d id :
  id ∈ dim_id <$> get_dim d (tbl w) →
  id ∈ dim_id <$> get_dim d (tbl (registered g w)).
Proof.
  intros Hid. rewrite registered_rows, fmap_app, elem_of_app. by left.
Qed.

Lemma registered_time_ids_grow g w id :
  id ∈ time_id <$> dim_time (tbl w) →
  id ∈ time_id <$> dim_time (tbl (registered g w)).
Proof.
  intros Hid. rewrite dim_time_registered, fmap_app, elem_of_app. by left.
Qed.

(** X10: a load keeps referential integrity: when every foreign key held
    by a fact row is the id of a row of its dimension before [main], the
    same is true after [main], whether it returns or raises: the rows it
    merges carry ids read from the dimension tables, and no dimension row is
    removed. *)
Theorem load_keeps_references (g : marts) (w : warehouse) :
  references_resolve (tbl w) → references_resolve (tbl (main g w).2).
Proof.
  intros (Re & Rx & Ri).
  destruct (main_cases g w)
    as [[_ ->]|(_ & Hg & e & x & i & He & Hx & Hi & ->)]; [done|].
  apply guard_passes_inv in Hg as (Ge & Gx & Gi).
  apply merge_Some in He as (-> & _ & _); [|by apply energy_guard_complete].
  apply merge_Some in Hx as (-> & _ & _); [|by apply emissions_guard_complete].
  apply merge_Some in Hi as (-> & _ & _); [|by apply intensity_guard_complete].
  unfold references_resolve.
  cbn [intensity_upserted emissions_upserted energy_upserted tbl
       set_staging set_fact_intensity set_fact_emissions set_fact_energy
       fact_energy_monthly fact_emissions_monthly fact_carbon_intensity
       dim_region dim_energy_source dim_sector dim_time].
  pose proof (registered_dim_ids_grow g w Region) as Gr.
  pose proof (registered_dim_ids_grow g w EnergySource) as Gs.
  pose proof (registered_dim_ids_grow g w Sector) as Gc.
  pose proof (registered_time_ids_grow g w) as Gt.
  cbn [get_dim] in Gr, Gs, Gc.
  unfold build_facts. cbn [energy_fact emissions_fact intensity_fact].
  rewrite energy_rows_build, emissions_rows_build, intensity_rows_build.
  unfold fetch_dim_map, fetch_time_map. cbn [get_dim].
  split; [|split].
  - intros r Hr. apply (list_elem_of_fmap_2 fst) in Hr.
    apply fold_upsert_key_origin in Hr
      as [(r0 & -> & Hr0)%list_elem_of_fmap|Hr].
    + destruct (Re r0 Hr0) as (H1 & H2 & H3).
      split; [|split]; eapply ref_ok_mono; eauto.
    + rewrite <- list_fmap_compose in Hr.
      apply list_elem_of_fmap in Hr as (m0 & -> & _). cbn.
      split; [|split];
        [apply ref_ok_dim_map|apply ref_ok_dim_map|apply ref_ok_time_map].
  - intros r Hr. apply (list_elem_of_fmap_2 fst) in Hr.
    apply fold_upsert_key_origin in Hr
      as [(r0 & -> & Hr0)%list_elem_of_fmap|Hr].
    + destruct (Rx r0 Hr0) as (H1 & H2 & H3).
      split; [|split]; eapply ref_ok_mono; eauto.
    + rewrite <- list_fmap_compose in Hr.
      apply list_elem_of_fmap in Hr as (m0 & -> & _). cbn.
      split; [|split];
        [apply ref_ok_dim_map|apply ref_ok_dim_map|apply ref_ok_time_map].
  - intros r Hr. apply (list_elem_of_fmap_2 fst) in Hr.
    apply fold_upsert_key_origin in Hr
      as [(r0 & -> & Hr0)%list_elem_of_fmap|Hr].
    + destruct (Ri r0 Hr0) as (H1 & H2).
      split; eapply ref_ok_mono; eauto.
    + rewrite <- list_fmap_compose in Hr.
      apply list_elem_of_fmap in Hr as (m0 & -> & _). cbn.
      split; [apply ref_ok_dim_map|apply ref_ok_time_map].
Qed.

Lemma load_keeps_references_witness :
  references_resolve (tbl (main marts_january empty_warehouse).2).
Proof.
  apply (load_keeps_references marts_january empty_warehouse).
  unfold references_resolve, empty_warehouse. cbn.
  split; [|split]; intros r Hr; by apply elem_of_nil in Hr.
Defined.

(** ** Empty marts *)

(** X11: with three empty marts [main] returns and leaves the four
    dimension tables, the three fact tables and the sequences as they were,
    whatever the warehouse holds; no staging table of a fact upsert is
    left. *)
Theorem empty_marts_change_nothing (w : warehouse) :
  (main (Marts [] [] []) w).1 = Ok tt ∧
  seqs (main (Marts [] [] []) w).2 = seqs w ∧
  (∀ d, get_dim d (tbl (main (Marts [] [] []) w).2) = get_dim d (tbl w)) ∧
  dim_time (tbl (main (Marts [] [] []) w).2) = dim_time (tbl w) ∧
  fact_energy_monthly (tbl (main (Marts [] [] []) w).2) =
    fact_energy_monthly (tbl w) ∧
  fact_emissions_monthly (tbl (main (Marts [] [] []) w).2) =
    fact_emissions_monthly (tbl w) ∧
  fact_carbon_intensity (tbl (main (Marts [] [] []) w).2) =
    fact_carbon_intensity (tbl w) ∧
  ∀ s, s ∈ fact_staging_names →
       staging (tbl (main (Marts [] [] []) w).2) !! s = None.
Proof.
  assert (registered (Marts [] [] []) w = w) as Hreg by reflexivity.
  assert (load (Marts [] [] []) w =
          (Ok tt, intensity_upserted (fact_carbon_intensity (tbl w))
                    (emissions_upserted (fact_emissions_monthly (tbl w))
                       (energy_upserted (fact_energy_monthly (tbl w)) w))))
    as Hload.
  { rewrite <- Hreg at 5. apply load_ok_intro; rewrite ?Hreg; try done.
    by repeat constructor. }
  unfold main, engine_begin. rewrite Hload. cbn [fst snd].
  split; [done|]. split; [done|]. split; [by intros []|].
  split; [done|]. split; [done|]. split; [done|]. split; [done|].
  intros s Hs. by apply facts_upserted_staging.
Qed.

(** * Properties of the GOLD step *)

(** The carbon-intensity mart of the example tables: North has no energy
    in January, and the ratio of South is the binary64 quotient of 430 and
    1800, which prints as 0.2388888888888889. *)
Example gold_example_intensity :
  carbon_intensity left_to_right silver_energy_example silver_emissions_example =
  [IntensityMartRow "North" 2024 1 (cell 0) (cell 120) None;
   IntensityMartRow "South" 2024 1 (cell 1800) (cell 430)
     (cell 0x1.e93e93e93e93fp-3)].
Proof. vm_compute. reflexivity. Qed.

(** ** Grouping *)

Section groupby_properties.
Context {R K : Type} `{EqDecision K}.
Variable key : R → K.
Variable key_le : relation K.
Context `{∀ x y, Decision (key_le x y)}.

Lemma elem_of_group_keys (rows : list R) (k : K) :
  k ∈ group_keys key key_le rows ↔ k ∈ key <$> rows.
Proof.
  unfold group_keys. by rewrite merge_sort_Permutation, elem_of_remove_dups.
Qed.

Lemma NoDup_group_keys (rows : list R) : NoDup (group_keys key key_le rows).
Proof.
  unfold group_keys. rewrite merge_sort_Permutation. apply NoDup_remove_dups.
Qed.

(** An aggregation that writes the key of its group into its row gives one
    row per group key. *)
Lemma groupby_agg_keys {A} (agg : K → list R → A) (proj : A → K)
    (rows : list R) :
  (∀ k grp, proj (agg k grp) = k) →
  proj <$> groupby_agg key key_le agg rows = group_keys key key_le rows.
Proof.
  intros Hproj. unfold groupby_agg. rewrite <- list_fmap_compose.
  rewrite <- (list_fmap_id (group_keys key key_le rows)) at 2.
  apply list_fmap_ext. intros i k _. apply Hproj.
Qed.

Lemma elem_of_groupby_agg {A} (agg : K → list R → A) (rows : list R) (a : A) :
  a ∈ groupby_agg key key_le agg rows ↔
  ∃ k, k ∈ key <$> rows ∧ a = agg k (group key rows k).
Proof.
  unfold groupby_agg. rewrite list_elem_of_fmap.
  split; intros (k & Hk & Ha); exists k; split; try done;
    by apply elem_of_group_keys.
Qed.

Lemma group_cons (r : R) (rows : list R) (k : K) :
  group key (r :: rows) k =
  if decide (key r = k) then r :: group key rows k else group key rows k.
Proof. unfold group. by rewrite filter_cons. Qed.

Lemma group_nonempty (rows : list R) (k : K) :
  k ∈ key <$> rows → (0 < length (group key rows k))%nat.
Proof.
  intros (r & -> & Hr)%list_elem_of_fmap.
  induction rows as [|r0 rows IH]; [by apply elem_of_nil in Hr|].
  rewrite group_cons. destruct (decide (key r0 = key r)); [simpl; lia|].
  apply elem_of_cons in Hr as [->|Hr]; [done|by apply IH].
Qed.

Lemma indicator_sum (ks : list K) (k0 : K) :
  NoDup ks →
  sum_list_with (λ k, if decide (k0 = k) then 1%nat else 0%nat) ks =
  if decide (k0 ∈ ks) then 1%nat else 0%nat.
Proof.
  induction 1 as [|k ks Hk Hnd IH]; [done|]. simpl. rewrite IH.
  destruct (decide (k0 = k)) as [->|Hne].
  - rewrite decide_False by done. by rewrite decide_True by left.
  - destruct (decide (k0 ∈ ks)) as [Hin|Hin].
    + by rewrite decide_True by by right.
    + rewrite decide_False; [done|]. by intros [?|?]%elem_of_cons.
Qed.

(** Every row is in exactly one group. *)
Lemma group_sizes_sum (rows : list R) (ks : list K) :
  NoDup ks → (∀ r, r ∈ rows → key r ∈ ks) →
  sum_list_with (λ k, length (group key rows k)) ks = length rows.
Proof.
  intros Hnd. induction rows as [|r rows IH]; intros Hall.
  - clear Hnd Hall. induction ks as [|k ks IHk]; [done|]. simpl. exact IHk.
  - assert (sum_list_with (λ k, length (group key rows k)) ks = length rows)
      as IH' by (apply IH; intros r' Hr'; apply Hall; by right).
    assert (sum_list_with (λ k, length (group key (r :: rows) k)) ks =
            sum_list_with (λ k, if decide (key r = k) then 1%nat else 0%nat) ks +
            sum_list_with (λ k, length (group key rows k)) ks)%nat as ->.
    { clear. induction ks as [|k ks IHk]; [done|]. simpl. rewrite IHk.
      rewrite group_cons. destruct (decide (key r = k)); simpl; lia. }
    rewrite IH', indicator_sum by done.
    rewrite decide_True by (apply Hall; by left). simpl. lia.
Qed.

Lemma group_keys_sizes_sum (rows : list R) :
  sum_list_with (λ k, length (group key rows k)) (group_keys key key_le rows) =
  length rows.
Proof.
  apply group_sizes_sum; [apply NoDup_group_keys|].
  intros r Hr. apply elem_of_group_keys. by apply list_elem_of_fmap_2.
Qed.
End groupby_properties.

Lemma z_sum_of_nat {A} (f : A → nat) (l : list A) :
  z_sum ((λ a, Z.of_nat (f a)) <$> l) = Z.of_nat (sum_list_with f l).
Proof.
  unfold z_sum. induction l as [|a l IH]; csimpl; [done|]. rewrite IH. lia.
Qed.

(** ** The inner merge *)

Section merge_inner_properties.
Context {K A B : Type} `{EqDecision K}.

Lemma elem_of_merge_inner (left : list (K * A)) (right : list (K * B))
    (m : K * A * B) :
  m ∈ merge_inner left right ↔ (m.1.1, m.1.2) ∈ left ∧ (m.1.1, m.2) ∈ right.
Proof.
  unfold merge_inner. rewrite list_elem_of_bind. split.
  - intros (l & Hm & Hl).
    apply list_elem_of_fmap in Hm as (r & -> & Hr).
    apply list_elem_of_filter in Hr as [Hk Hr].
    destruct l as [k a], r as [k' b]. simpl in *. by subst.
  - intros [Hl Hr]. destruct m as [[k a] b]. simpl in *.
    exists (k, a). split; [|done]. apply list_elem_of_fmap.
    exists (k, b). split; [done|]. by apply list_elem_of_filter.
Qed.

Lemma merge_inner_keys (left : list (K * A)) (right : list (K * B)) (k : K) :
  k ∈ (λ m, m.1.1) <$> merge_inner left right ↔ k ∈ left.*1 ∧ k ∈ right.*1.
Proof.
  rewrite !list_elem_of_fmap. split.
  - intros (m & -> & [Hl Hr]%elem_of_merge_inner).
    split; [by exists (m.1.1, m.1.2)|by exists (m.1.1, m.2)].
  - intros [([k1 a] & -> & Hl) ([k2 b] & Hk & Hr)]. simpl in *. subst.
    exists (k2, a, b). split; [done|]. by apply elem_of_merge_inner.
Qed.

Lemma filter_key_unique (right : list (K * B)) (k : K) :
  NoDup right.*1 → (length (filter (λ r, r.1 = k) right) ≤ 1)%nat.
Proof.
  induction right as [|r right IH]; [simpl; lia|].
  rewrite fmap_cons. intros [Hr Hnd]%NoDup_cons.
  rewrite filter_cons. destruct (decide (r.1 = k)) as [<-|]; [|by apply IH].
  assert (filter (λ r0, r0.1 = r.1) right = []) as ->; [|simpl; lia].
  destruct (filter (λ r0, r0.1 = r.1) right) as [|r0 l] eqn:Hf; [done|].
  exfalso. apply Hr.
  assert (r0 ∈ filter (λ r0, r0.1 = r.1) right) as [Hk Hin]%list_elem_of_filter
    by (rewrite Hf; by left).
  rewrite <- Hk. by apply list_elem_of_fmap_2.
Qed.

(** Frames with one row per key merge into a frame with one row per key. *)
Lemma merge_inner_NoDup (left : list (K * A)) (right : list (K * B)) :
  NoDup left.*1 → NoDup right.*1 →
  NoDup ((λ m, m.1.1) <$> merge_inner left right).
Proof.
  intros Hl Hr. induction left as [|l left IH]; [constructor|].
  rewrite fmap_cons in Hl. apply NoDup_cons in Hl as [Hl0 Hl].
  unfold merge_inner. rewrite bind_cons, fmap_app. apply NoDup_app.
  split; [|split; [|by apply IH]].
  - rewrite <- list_fmap_compose.
    pose proof (filter_key_unique right l.1 Hr) as Hlen.
    destruct (filter (λ r, r.1 = l.1) right) as [|r0 [|r1 rest]];
      [constructor|apply NoDup_singleton|simpl in Hlen; lia].
  - intros k Hk Hk'. apply Hl0.
    apply (merge_inner_keys left right) in Hk' as [Hk' _].
    rewrite <- list_fmap_compose in Hk.
    apply list_elem_of_fmap in Hk as (r & -> & _). done.
Qed.
End merge_inner_properties.

(** ** The marts have one row per natural key *)

Lemma energy_monthly_keys fl se :
  energy_natural_key <$> energy_monthly fl se =
  group_keys energy_group_key key4_le se.
Proof.
  unfold energy_monthly. apply groupby_agg_keys.
  by intros [[[a b] c] d] grp.
Qed.

Lemma emissions_monthly_keys fl sx :
  emissions_natural_key <$> emissions_monthly fl sx =
  group_keys emissions_group_key key4_le sx.
Proof.
  unfold emissions_monthly. apply groupby_agg_keys.
  by intros [[[a b] c] d] grp.
Qed.

Lemma energy_totals_keys fl se :
  (energy_totals fl se).*1 = group_keys energy_total_key key3_le se.
Proof. unfold energy_totals. by apply groupby_agg_keys. Qed.

Lemma emissions_totals_keys fl sx :
  (emissions_totals fl sx).*1 = group_keys emissions_total_key key3_le sx.
Proof. unfold emissions_totals. by apply groupby_agg_keys. Qed.

Lemma carbon_intensity_keys fl se sx :
  intensity_natural_key <$> carbon_intensity fl se sx =
  (λ m, m.1.1) <$> merge_inner (energy_totals fl se) (emissions_totals fl sx).
Proof.
  unfold carbon_intensity. rewrite <- list_fmap_compose.
  apply list_fmap_ext. by intros i [[[[a b] c] e] co] _.
Qed.

(** The marts of the GOLD step have one row per natural key. *)
Lemma gold_natural_keys_unique fl se sx :
  NoDup (energy_natural_key <$> energy_m (gold fl se sx)) ∧
  NoDup (emissions_natural_key <$> emis_m (gold fl se sx)) ∧
  NoDup (intensity_natural_key <$> intensity (gold fl se sx)).
Proof.
  cbn [gold energy_m emis_m intensity].
  rewrite energy_monthly_keys, emissions_monthly_keys, carbon_intensity_keys.
  split; [apply NoDup_group_keys|]. split; [apply NoDup_group_keys|].
  apply merge_inner_NoDup.
  - rewrite energy_totals_keys. apply NoDup_group_keys.
  - rewrite emissions_totals_keys. apply NoDup_group_keys.
Qed.

(** X12: the GOLD step writes one row per group: [energy_monthly] has
    exactly one row for every (region, energy source, year, month) of the
    SILVER energy table and no other row, [emissions_monthly] likewise for
    (region, sector, year, month), and [carbon_intensity] has exactly one
    row for every (region, year, month) that occurs in both SILVER tables
    (the inner merge drops the others). *)
Theorem gold_has_one_row_per_group
    (fl : reductions)
    (se : list energy_silver_row) (sx : list emissions_silver_row) :
  (NoDup (energy_natural_key <$> energy_monthly fl se) ∧
   ∀ k, k ∈ energy_natural_key <$> energy_monthly fl se ↔
        k ∈ energy_group_key <$> se) ∧
  (NoDup (emissions_natural_key <$> emissions_monthly fl sx) ∧
   ∀ k, k ∈ emissions_natural_key <$> emissions_monthly fl sx ↔
        k ∈ emissions_group_key <$> sx) ∧
  (NoDup (intensity_natural_key <$> carbon_intensity fl se sx) ∧
   ∀ k, k ∈ intensity_natural_key <$> carbon_intensity fl se sx ↔
        k ∈ energy_total_key <$> se ∧ k ∈ emissions_total_key <$> sx).
Proof.
  destruct (gold_natural_keys_unique fl se sx) as (Ne & Nx & Ni).
  cbn [gold energy_m emis_m intensity] in Ne, Nx, Ni.
  split; [|split]; (split; [done|]); intros k.
  - rewrite energy_monthly_keys. apply elem_of_group_keys.
  - rewrite emissions_monthly_keys. apply elem_of_group_keys.
  - rewrite carbon_intensity_keys, merge_inner_keys.
    rewrite energy_totals_keys, emissions_totals_keys.
    by rewrite !elem_of_group_keys.
Qed.

(** ** Record counts *)

(** X13: the [records] column counts every SILVER row once: the count of
    a mart row is the number of SILVER rows of its group, it is at least 1,
    and the counts of [energy_monthly] ([emissions_monthly]) add up to the
    number of rows of the SILVER energy (emissions) table. *)
Theorem records_count_every_row_once
    (fl : reductions)
    (se : list energy_silver_row) (sx : list emissions_silver_row) :
  (∀ r, r ∈ energy_monthly fl se →
     em_records r =
       Z.of_nat (length (filter (λ s, energy_group_key s = energy_natural_key r) se)) ∧
     (1 ≤ em_records r)%Z) ∧
  z_sum (em_records <$> energy_monthly fl se) = Z.of_nat (length se) ∧
  (∀ r, r ∈ emissions_monthly fl sx →
     xm_records r =
       Z.of_nat (length (filter (λ s, emissions_group_key s = emissions_natural_key r) sx)) ∧
     (1 ≤ xm_records r)%Z) ∧
  z_sum (xm_records <$> emissions_monthly fl sx) = Z.of_nat (length sx).
Proof.
  split; [|split; [|split]].
  - intros r (k & Hk & ->)%elem_of_groupby_agg.
    destruct k as [[[a b] c] d]. unfold energy_natural_key.
    cbn [em_records em_region em_energy_source em_year em_month fst snd].
    unfold agg_size. split; [done|].
    pose proof (group_nonempty energy_group_key se _ Hk). unfold group in *. lia.
  - unfold energy_monthly, groupby_agg. rewrite <- list_fmap_compose.
    unfold compose. cbn [em_records]. unfold agg_size.
    by rewrite z_sum_of_nat, group_keys_sizes_sum.
  - intros r (k & Hk & ->)%elem_of_groupby_agg.
    destruct k as [[[a b] c] d]. unfold emissions_natural_key.
    cbn [xm_records xm_region xm_sector xm_year xm_month fst snd].
    unfold agg_size. split; [done|].
    pose proof (group_nonempty emissions_group_key sx _ Hk). unfold group in *.
    lia.
  - unfold emissions_monthly, groupby_agg. rewrite <- list_fmap_compose.
    unfold compose. cbn [xm_records]. unfold agg_size.
    by rewrite z_sum_of_nat, group_keys_sizes_sum.
Qed.

(** ** A group without energy *)

(** X14: a (region, year, month) group whose energy total is zero (as the
    reductions computed it, [0.0] or [-0.0]) stops the whole load.  The
    GOLD step gives its carbon-intensity row a missing [co2_per_mwh]
    instead of dividing by zero, and [main], run on the marts of the GOLD
    step, raises the [ValueError] of its guard and leaves every table as it
    was, whatever else the marts hold. *)
Theorem zero_energy_group_blocks_the_load
    (fl : reductions)
    (se : list energy_silver_row) (sx : list emissions_silver_row)
    (w : warehouse) (r : intensity_mart_row) (energy : f64) :
  r ∈ carbon_intensity fl se sx →
  im_total_energy_mwh r = Some energy →
  PrimFloat.eqb (f64_val energy) 0 = true →
  im_co2_per_mwh r = None ∧
  (∃ msg, (main (gold fl se sx) w).1 = Raise (ValueError msg)) ∧
  tbl (main (gold fl se sx) w).2 = tbl w.
Proof.
  intros Hr He Hz.
  assert (im_co2_per_mwh r = None) as Hna.
  { unfold carbon_intensity in Hr.
    apply list_elem_of_fmap in Hr as ([[k e] c] & -> & _).
    cbn [carbon_intensity_row im_total_energy_mwh im_co2_per_mwh fst snd]
      in He |- *.
    rewrite He. by apply co2_per_mwh_zero_energy. }
  split; [done|].
  assert (existsb (λ fr, any_na fr.2)
            (guard_input (build_facts (gold fl se sx)
                            (registered (gold fl se sx) w))) = true) as Hex.
  { unfold guard_input. cbn [existsb snd]. rewrite !orb_true_iff.
    right. right. left.
    unfold any_na, intensity_isna_any. cbn [existsb snd].
    rewrite !orb_true_iff. do 4 right. left.
    cbn [intensity_fact build_facts build_intensity_fact if_co2_per_mwh
         gold intensity].
    apply existsb_exists. exists None. split; [|done].
    apply list_elem_of_In. rewrite <- Hna. by apply list_elem_of_fmap_2. }
  destruct (main_guard_raises (gold fl se sx) w Hex) as [Hraise Htbl].
  split; [|done]. eexists. exact Hraise.
Qed.

Lemma zero_energy_group_blocks_the_load_witness :
  im_co2_per_mwh (IntensityMartRow "North" 2024 1 (cell 0) (cell 120) None) =
    None ∧
  (∃ msg,
     (main (gold left_to_right silver_energy_example silver_emissions_example)
        empty_warehouse).1 = Raise (ValueError msg)) ∧
  tbl (main (gold left_to_right silver_energy_example silver_emissions_example)
         empty_warehouse).2 = tbl empty_warehouse.
Proof.
  apply (zero_energy_group_blocks_the_load left_to_right silver_energy_example
           silver_emissions_example empty_warehouse
           (IntensityMartRow "North" 2024 1 (cell 0) (cell 120) None)
           (F64 0 eq_refl)).
  - vm_compute. by left.
  - reflexivity.
  - reflexivity.
Defined.

(** * From the GOLD step to the warehouse *)

(** ** Primary keys after registration *)

Lemma new_time_rows_ids seq pairs i r :
  new_time_rows seq pairs !! i = Some r → time_id r = seq + Z.of_nat i.
Proof.
  unfold new_time_rows. rewrite list_lookup_imap.
  destruct (pairs !! i); simpl; [|done]. by intros [= <-].
Qed.

Lemma NoDup_app_fresh_ids (old new : list Z) (seq : Z) :
  NoDup old → Forall (λ id, id < seq) old →
  (∀ i id, new !! i = Some id → id = seq + Z.of_nat i) →
  NoDup (old ++ new).
Proof.
  intros Hnd Hlt Hnew. apply NoDup_app. split; [done|]. split.
  - intros id Hold (i & Hi)%list_elem_of_lookup.
    eapply Forall_forall in Hlt; [|done]. apply Hnew in Hi. lia.
  - apply NoDup_alt. intros i j id Hi Hj.
    apply Hnew in Hi, Hj. lia.
Qed.

Lemma registered_dim_ids_unique g w d :
  primary_keys_ok w → NoDup (dim_id <$> get_dim d (tbl (registered g w))).
Proof.
  intros [Hd _]. destruct (Hd d) as [Hnd Hlt].
  rewrite registered_rows, fmap_app.
  apply (NoDup_app_fresh_ids _ _ (get_seq d (seqs w))); [done|done|].
  intros i id. rewrite list_lookup_fmap.
  destruct (new_dim_rows _ _ !! i) as [r|] eqn:Hr; [|done].
  intros [= <-]. by apply new_dim_rows_ids in Hr.
Qed.

Lemma registered_time_ids_unique g w :
  primary_keys_ok w → NoDup (time_id <$> dim_time (tbl (registered g w))).
Proof.
  intros (_ & Hnd & Hlt).
  rewrite dim_time_registered, fmap_app.
  apply (NoDup_app_fresh_ids _ _ (time_id_seq (seqs w))); [done|done|].
  intros i id. rewrite list_lookup_fmap.
  destruct (new_time_rows _ _ !! i) as [r|] eqn:Hr; [|done].
  intros [= <-]. by apply new_time_rows_ids in Hr.
Qed.

(** ** Distinct names get distinct ids *)

Lemma NoDup_fmap_eq {A B} (f : A → B) (l : list A) (x y : A) :
  NoDup (f <$> l) → x ∈ l → y ∈ l → f x = f y → x = y.
Proof.
  induction l as [|a l IH]; intros Hnd Hx Hy Hf.
  { by apply elem_of_nil in Hx. }
  rewrite fmap_cons in Hnd. apply NoDup_cons in Hnd as [Ha Hnd].
  apply elem_of_cons in Hx as [->|Hx], Hy as [->|Hy]; [done| | |by apply IH].
  - exfalso. apply Ha. rewrite Hf. by apply list_elem_of_fmap_2.
  - exfalso. apply Ha. rewrite <- Hf. by apply list_elem_of_fmap_2.
Qed.

Lemma dim_map_inj rows n1 n2 id :
  NoDup (dim_id <$> rows) →
  dict_of_dim_rows rows !! n1 = Some id →
  dict_of_dim_rows rows !! n2 = Some id → n1 = n2.
Proof.
  intros Hnd H1%dim_map_lookup H2%dim_map_lookup.
  by pose proof (NoDup_fmap_eq dim_id rows _ _ Hnd H1 H2 eq_refl) as [= ->].
Qed.

Lemma time_map_inj rows p1 p2 id :
  NoDup (time_id <$> rows) →
  dict_of_time_rows rows !! p1 = Some id →
  dict_of_time_rows rows !! p2 = Some id → p1 = p2.
Proof.
  intros Hnd H1%time_map_lookup H2%time_map_lookup.
  pose proof (NoDup_fmap_eq time_id rows _ _ Hnd H1 H2 eq_refl) as [= Hy Hm].
  destruct p1, p2. simpl in *. by subst.
Qed.

Lemma lookups_inj {K} `{Countable K} (m : gmap K Z) (k1 k2 : K) :
  (∀ id, m !! k1 = Some id → m !! k2 = Some id → k1 = k2) →
  isna (m !! k1) = false → m !! k1 = m !! k2 → k1 = k2.
Proof.
  intros Hinj Hna Heq. destruct (m !! k1) as [id|] eqn:H1; [|done].
  by apply (Hinj id).
Qed.

(** With unique ids, frames without missing ids have one row per key tuple
    whenever the marts have one row per natural key. *)
Lemma frame_keys_unique g w :
  (∀ d, NoDup (dim_id <$> get_dim d (tbl w))) →
  NoDup (time_id <$> dim_time (tbl w)) →
  Forall (λ fr, any_na fr.2 = false) (guard_input (build_facts g w)) →
  NoDup (energy_natural_key <$> energy_m g) →
  NoDup (emissions_natural_key <$> emis_m g) →
  NoDup (intensity_natural_key <$> intensity g) →
  NoDup (energy_rows (energy_fact (build_facts g w))).*1 ∧
  NoDup (emissions_rows (emissions_fact (build_facts g w))).*1 ∧
  NoDup (intensity_rows (intensity_fact (build_facts g w))).*1.
Proof.
  intros Hd Ht (Ge & Gx & Gi)%guard_passes_inv Ne Nx Ni.
  apply energy_guard_complete in Ge.
  apply emissions_guard_complete in Gx.
  apply intensity_guard_complete in Gi.
  unfold build_facts in Ge, Gx, Gi |- *.
  cbn [energy_fact emissions_fact intensity_fact] in Ge, Gx, Gi |- *.
  rewrite energy_rows_build in Ge. rewrite emissions_rows_build in Gx.
  rewrite intensity_rows_build in Gi.
  rewrite energy_rows_build, emissions_rows_build, intensity_rows_build.
  unfold complete_keys in Ge, Gx, Gi.
  rewrite Forall_fmap in Ge. rewrite Forall_fmap in Gx.
  rewrite Forall_fmap in Gi.
  rewrite <- !list_fmap_compose.
  pose proof (λ n1 n2 id, dim_map_inj _ n1 n2 id (Hd Region)) as Ir.
  pose proof (λ n1 n2 id, dim_map_inj _ n1 n2 id (Hd EnergySource)) as Is.
  pose proof (λ n1 n2 id, dim_map_inj _ n1 n2 id (Hd Sector)) as Ic.
  pose proof (λ p1 p2 id, time_map_inj _ p1 p2 id Ht) as It.
  split; [|split].
  - apply NoDup_fmap_2_strong; [|by apply NoDup_fmap_1 in Ne].
    intros r1 r2 H1 H2 Hk.
    apply (NoDup_fmap_eq energy_natural_key _ _ _ Ne H1 H2).
    eapply Forall_forall in Ge; [|exact H1].
    unfold compose, energy_fact_row, energy_key_has_null in Ge, Hk.
    cbn [fst snd] in Ge, Hk. apply orb_false_iff in Ge as [Ge G3].
    apply orb_false_iff in Ge as [G1 G2]. injection Hk as K1 K2 K3.
    apply (lookups_inj _ _ _ (Ir _ _)) in K1; [|done].
    apply (lookups_inj _ _ _ (Is _ _)) in K2; [|done].
    apply (lookups_inj _ _ _ (It _ _)) in K3; [|done].
    injection K3 as K3 K4. unfold energy_natural_key. congruence.
  - apply NoDup_fmap_2_strong; [|by apply NoDup_fmap_1 in Nx].
    intros r1 r2 H1 H2 Hk.
    apply (NoDup_fmap_eq emissions_natural_key _ _ _ Nx H1 H2).
    eapply Forall_forall in Gx; [|exact H1].
    unfold compose, emissions_fact_row, emissions_key_has_null in Gx, Hk.
    cbn [fst snd] in Gx, Hk. apply orb_false_iff in Gx as [Gx G3].
    apply orb_false_iff in Gx as [G1 G2]. injection Hk as K1 K2 K3.
    apply (lookups_inj _ _ _ (Ir _ _)) in K1; [|done].
    apply (lookups_inj _ _ _ (Ic _ _)) in K2; [|done].
    apply (lookups_inj _ _ _ (It _ _)) in K3; [|done].
    injection K3 as K3 K4. unfold emissions_natural_key. congruence.
  - apply NoDup_fmap_2_strong; [|by apply NoDup_fmap_1 in Ni].
    intros r1 r2 H1 H2 Hk.
    apply (NoDup_fmap_eq intensity_natural_key _ _ _ Ni H1 H2).
    eapply Forall_forall in Gi; [|exact H1].
    unfold compose, intensity_fact_row, intensity_key_has_null in Gi, Hk.
    cbn [fst snd] in Gi, Hk. apply orb_false_iff in Gi as [G1 G2].
    injection Hk as K1 K2.
    apply (lookups_inj _ _ _ (Ir _ _)) in K1; [|done].
    apply (lookups_inj _ _ _ (It _ _)) in K2; [|done].
    injection K2 as K2 K3. unfold intensity_natural_key. congruence.
Qed.

(** X15: the marts the GOLD step writes never make a merge of the loader
    raise, whatever its reductions round to.  On a warehouse whose
    dimension ids are unique and were drawn from the sequences, [main] on
    the output of [gold] returns exactly when the guard finds no missing
    value, and it never raises the engine's refusal to write one row twice:
    one row per natural key becomes one row per key tuple. *)
Theorem gold_marts_never_conflict
    (fl : reductions)
    (se : list energy_silver_row) (sx : list emissions_silver_row)
    (w : warehouse) :
  primary_keys_ok w →
  ((main (gold fl se sx) w).1 = Ok tt ↔
   Forall (λ fr, any_na fr.2 = false)
     (guard_input (build_facts (gold fl se sx)
                     (register_dimensions (gold fl se sx) w).2))) ∧
  ∀ t, (main (gold fl se sx) w).1 ≠ Raise (CardinalityViolation t).
Proof.
  intros Hpk. rewrite register_dimensions_eq. cbn [snd].
  destruct (gold_natural_keys_unique fl se sx) as (Ne & Nx & Ni).
  pose proof (λ Hg, frame_keys_unique (gold fl se sx) (registered (gold fl se sx) w)
                (λ d, registered_dim_ids_unique _ w d Hpk)
                (registered_time_ids_unique _ w Hpk) Hg Ne Nx Ni) as Hkeys.
  pose proof (main_result_cases (gold fl se sx) w) as Hcases. cbn zeta in Hcases.
  destruct Hcases as [(Hex & msg & Hr)|[(Hok & Hke & Hr)|[(Hok & Hke & Hkx & Hr)
    |[(Hok & Hke & Hkx & Hki & Hr)|(Hok & Hke & Hkx & Hki & Hr)]]]];
    rewrite Hr.
  - split; [|done]. split; [done|].
    intros Hok. by destruct (guard_not_both _ Hok Hex).
  - by destruct (Hkeys Hok) as (? & ? & ?).
  - by destruct (Hkeys Hok) as (? & ? & ?).
  - by destruct (Hkeys Hok) as (? & ? & ?).
  - done.
Qed.

Lemma gold_marts_never_conflict_witness :
  (main (gold left_to_right silver_energy_loadable silver_emissions_loadable)
     empty_warehouse).1 = Ok tt ∧
  ((main (gold left_to_right silver_energy_loadable silver_emissions_loadable)
      empty_warehouse).1 = Ok tt ↔
   Forall (λ fr, any_na fr.2 = false)
     (guard_input
        (build_facts
           (gold left_to_right silver_energy_loadable silver_emissions_loadable)
           (register_dimensions
              (gold left_to_right silver_energy_loadable
                 silver_emissions_loadable)
              empty_warehouse).2))) ∧
  ∀ t, (main (gold left_to_right silver_energy_loadable
                silver_emissions_loadable) empty_warehouse).1 ≠
       Raise (CardinalityViolation t).
Proof.
  split; [vm_compute; reflexivity|].
  apply (gold_marts_never_conflict left_to_right silver_energy_loadable
           silver_emissions_loadable empty_warehouse).
  unfold primary_keys_ok, empty_warehouse. cbn.
  split; [intros d; destruct d; split; constructor|].
  split; constructor.
Defined.

(** * More on the load *)

(** ** What a load that returned has stored *)

(** X16: after a load that returned, every mart row is in its fact table:
    all its natural keys resolved to ids, the fact table has its key tuple,
    and every fact row with that key tuple carries exactly the metrics of
    the mart row. *)
Theorem returned_load_stored_the_marts (g : marts) (w w1 : warehouse) :
  main g w = (Ok tt, w1) →
  (∀ r, r ∈ energy_m g →
     energy_key_has_null
       (energy_fact_row (fetch_dim_map Region w1)
          (fetch_dim_map EnergySource w1) (fetch_time_map w1) r).1 = false ∧
     holds (fact_energy_monthly (tbl w1))
       (energy_fact_row (fetch_dim_map Region w1)
          (fetch_dim_map EnergySource w1) (fetch_time_map w1) r)) ∧
  (∀ r, r ∈ emis_m g →
     emissions_key_has_null
       (emissions_fact_row (fetch_dim_map Region w1)
          (fetch_dim_map Sector w1) (fetch_time_map w1) r).1 = false ∧
     holds (fact_emissions_monthly (tbl w1))
       (emissions_fact_row (fetch_dim_map Region w1)
          (fetch_dim_map Sector w1) (fetch_time_map w1) r)) ∧
  (∀ r, r ∈ intensity g →
     intensity_key_has_null
       (intensity_fact_row (fetch_dim_map Region w1) (fetch_time_map w1) r).1 =
       false ∧
     holds (fact_carbon_intensity (tbl w1))
       (intensity_fact_row (fetch_dim_map Region w1) (fetch_time_map w1) r)).
Proof.
  intros (Hg & e & x & i & He & Hx & Hi & ->)%main_ok_inv%load_ok_inv.
  apply guard_passes_inv in Hg as (Ge & Gx & Gi).
  apply energy_guard_complete in Ge.
  apply emissions_guard_complete in Gx.
  apply intensity_guard_complete in Gi.
  apply merge_Some in He as (-> & Ne & _); [|done].
  apply merge_Some in Hx as (-> & Nx & _); [|done].
  apply merge_Some in Hi as (-> & Ni & _); [|done].
  assert (∀ d e x i,
            fetch_dim_map d (intensity_upserted i (emissions_upserted x
                               (energy_upserted e (registered g w)))) =
            fetch_dim_map d (registered g w))
    as Md by (intros; unfold fetch_dim_map; by rewrite registered_dims_kept).
  assert (∀ e x i,
            fetch_time_map (intensity_upserted i (emissions_upserted x
                              (energy_upserted e (registered g w)))) =
            fetch_time_map (registered g w))
    as Mt by reflexivity.
  rewrite !Md, !Mt. clear Md Mt.
  set (R := registered g w) in *.
  cbn [intensity_upserted emissions_upserted energy_upserted tbl
       set_staging set_fact_intensity set_fact_emissions set_fact_energy
       fact_energy_monthly fact_emissions_monthly fact_carbon_intensity].
  unfold build_facts in Ge, Gx, Gi, Ne, Nx, Ni |- *.
  cbn [energy_fact emissions_fact intensity_fact] in Ge, Gx, Gi, Ne, Nx, Ni |- *.
  rewrite energy_rows_build in Ge, Ne |- *.
  rewrite emissions_rows_build in Gx, Nx |- *.
  rewrite intensity_rows_build in Gi, Ni |- *.
  split; [|split]; intros r Hr.
  - apply (list_elem_of_fmap_2 (energy_fact_row (fetch_dim_map Region R)
             (fetch_dim_map EnergySource R) (fetch_time_map R))) in Hr.
    split; [by eapply Forall_forall in Ge|].
    by apply (fold_upsert_holds energy_key_has_null).
  - apply (list_elem_of_fmap_2 (emissions_fact_row (fetch_dim_map Region R)
             (fetch_dim_map Sector R) (fetch_time_map R))) in Hr.
    split; [by eapply Forall_forall in Gx|].
    by apply (fold_upsert_holds emissions_key_has_null).
  - apply (list_elem_of_fmap_2 (intensity_fact_row (fetch_dim_map Region R)
             (fetch_time_map R))) in Hr.
    split; [by eapply Forall_forall in Gi|].
    by apply (fold_upsert_holds intensity_key_has_null).
Qed.

Lemma returned_load_stored_the_marts_witness :
  main marts_january empty_warehouse =
    (Ok tt, (main marts_january empty_warehouse).2) ∧
  holds (fact_carbon_intensity (tbl (main marts_january empty_warehouse).2))
    (intensity_fact_row
       (fetch_dim_map Region (main marts_january empty_warehouse).2)
       (fetch_time_map (main marts_january empty_warehouse).2)
       (IntensityMartRow "North" 2024 1 (cell 1240) (cell 217)
          (co2_per_mwh (cell 217) (cell 1240)))).
Proof.
  assert (main marts_january empty_warehouse =
            (Ok tt, (main marts_january empty_warehouse).2)) as Hret
    by (vm_compute; reflexivity).
  split; [exact Hret|].
  refine (proj2 (proj2 (proj2 (returned_load_stored_the_marts marts_january
                                 empty_warehouse _ Hret)) _ _)).
  apply list_elem_of_here.
Defined.

(** ** No staging table is left behind *)

Lemma registered_absent g w s :
  staging (tbl w) !! s = None → staging (tbl (registered g w)) !! s = None.
Proof.
  intros Hs. unfold registered.
  by apply time_registered_absent; do 3 apply dim_registered_absent.
Qed.

(** X17: every step drops the staging table it creates: on a warehouse
    without staging tables, [upsert_dim_table], [upsert_dim_time], each of
    the three fact upserts that returns, and [main] (returned or raised)
    leave a warehouse without staging tables. *)
Theorem no_staging_table_is_left
    (table : dimension) (values : list string) (pairs : list (Z * Z))
    (ef : energy_frame) (xf : emissions_frame) (nf : intensity_frame)
    (g : marts) (w : warehouse) :
  staging (tbl w) = ∅ →
  staging (tbl (upsert_dim_table table values w).2) = ∅ ∧
  staging (tbl (upsert_dim_time pairs w).2) = ∅ ∧
  ((upsert_fact_energy ef w).1 = Ok tt →
   staging (tbl (upsert_fact_energy ef w).2) = ∅) ∧
  ((upsert_fact_emissions xf w).1 = Ok tt →
   staging (tbl (upsert_fact_emissions xf w).2) = ∅) ∧
  ((upsert_fact_intensity nf w).1 = Ok tt →
   staging (tbl (upsert_fact_intensity nf w).2) = ∅) ∧
  staging (tbl (main g w).2) = ∅.
Proof.
  intros Hw.
  assert (∀ s, staging (tbl w) !! s = None) as Habs
    by (intros s; by rewrite Hw, lookup_empty).
  rewrite upsert_dim_table_eq, upsert_dim_time_eq. cbn [snd].
  split; [|split; [|split; [|split; [|split]]]].
  - apply map_empty. intros s. by apply dim_registered_absent.
  - apply map_empty. intros s. by apply time_registered_absent.
  - rewrite upsert_fact_energy_eq.
    destruct (insert_on_conflict _ _ _ _); [|done]. intros _.
    apply map_empty. intros s. cbn. apply lookup_delete_None. by right.
  - rewrite upsert_fact_emissions_eq.
    destruct (insert_on_conflict _ _ _ _); [|done]. intros _.
    apply map_empty. intros s. cbn. apply lookup_delete_None. by right.
  - rewrite upsert_fact_intensity_eq.
    destruct (insert_on_conflict _ _ _ _); [|done]. intros _.
    apply map_empty. intros s. cbn. apply lookup_delete_None. by right.
  - destruct (main_cases g w)
      as [[_ ->]|(_ & _ & e & x & i & _ & _ & _ & ->)]; [done|].
    apply map_empty. intros s.
    by apply facts_upserted_absent, registered_absent.
Qed.

Lemma no_staging_table_is_left_witness :
  staging (tbl (upsert_dim_table Region ["East"] empty_warehouse).2) = ∅ ∧
  staging (tbl (upsert_dim_time [(2024, 1)] empty_warehouse).2) = ∅ ∧
  ((upsert_fact_energy (EnergyFrame [] [] [] [] [] [] []) empty_warehouse).1 =
     Ok tt →
   staging (tbl (upsert_fact_energy (EnergyFrame [] [] [] [] [] [] [])
                   empty_warehouse).2) = ∅) ∧
  ((upsert_fact_emissions (EmissionsFrame [] [] [] [] [] []) empty_warehouse).1 =
     Ok tt →
   staging (tbl (upsert_fact_emissions (EmissionsFrame [] [] [] [] [] [])
                   empty_warehouse).2) = ∅) ∧
  ((upsert_fact_intensity (IntensityFrame [] [] [] [] []) empty_warehouse).1 =
     Ok tt →
   staging (tbl (upsert_fact_intensity (IntensityFrame [] [] [] [] [])
                   empty_warehouse).2) = ∅) ∧
  staging (tbl (main marts_january empty_warehouse).2) = ∅.
Proof.
  apply (no_staging_table_is_left Region ["East"] [(2024, 1)]
           (EnergyFrame [] [] [] [] [] [] []) (EmissionsFrame [] [] [] [] [] [])
           (IntensityFrame [] [] [] [] []) marts_january empty_warehouse).
  reflexivity.
Defined.

(** ** Surrogate ids stay distinct *)

Lemma load_seqs g w : seqs (load g w).2 = seqs (registered g w).
Proof.
  destruct (guard_passes_or_not (build_facts g (registered g w))) as [Hg|Hex].
  - rewrite (load_after_guard g w Hg), upsert_facts_eq.
    destruct (insert_on_conflict energy_key_has_null _ _ _); [|reflexivity].
    destruct (insert_on_conflict emissions_key_has_null _ _ _); [|reflexivity].
    destruct (insert_on_conflict intensity_key_has_null _ _ _); reflexivity.
  - destruct (load_guard_raises g w Hex)
      as (before & name & flags & after & _ & _ & _ & ->).
    reflexivity.
Qed.

(** A rollback does not give back the sequence values the run has taken. *)
Lemma main_seqs g w : seqs (main g w).2 = seqs (registered g w).
Proof.
  rewrite <- load_seqs. unfold main, engine_begin.
  by destruct (load g w) as [[[]|err] w1].
Qed.

Lemma fresh_ids_below (old new : list Z) (seq : Z) :
  Forall (λ id, id < seq) old →
  (∀ i id, new !! i = Some id → id = seq + Z.of_nat i) →
  Forall (λ id, id < seq + Z.of_nat (length new)) (old ++ new).
Proof.
  intros Hlt Hnew. apply Forall_app. split.
  - eapply Forall_impl; [done|]. intros id Hid. simpl in *. lia.
  - apply Forall_lookup. intros i id Hi.
    pose proof (lookup_lt_Some _ _ _ Hi). apply Hnew in Hi. lia.
Qed.

Lemma new_dim_rows_fresh seq names i id :
  (dim_id <$> new_dim_rows seq names) !! i = Some id → id = seq + Z.of_nat i.
Proof.
  rewrite list_lookup_fmap.
  destruct (new_dim_rows _ _ !! i) as [r|] eqn:Hr; [|done].
  intros [= <-]. by apply new_dim_rows_ids in Hr.
Qed.

Lemma new_time_rows_fresh seq pairs i id :
  (time_id <$> new_time_rows seq pairs) !! i = Some id → id = seq + Z.of_nat i.
Proof.
  rewrite list_lookup_fmap.
  destruct (new_time_rows _ _ !! i) as [r|] eqn:Hr; [|done].
  intros [= <-]. by apply new_time_rows_ids in Hr.
Qed.

Lemma new_dim_rows_length seq names : length (new_dim_rows seq names) = length names.
Proof. unfold new_dim_rows. apply length_imap. Qed.

Lemma new_time_rows_length seq pairs :
  length (new_time_rows seq pairs) = length pairs.
Proof. unfold new_time_rows. apply length_imap. Qed.

Lemma dim_registered_seq table values w :
  get_seq table (seqs (dim_registered table values w)) =
  get_seq table (seqs w) +
  Z.of_nat (length (missing_names (get_dim table (tbl w))
                      (sorted (py_set values)))).
Proof.
  unfold dim_registered.
  destruct (decide (sorted (py_set values) = [])) as [->|Hne].
  - unfold missing_names. simpl. lia.
  - by destruct table.
Qed.

Lemma dim_registered_seq_other table values w d :
  d ≠ table → get_seq d (seqs (dim_registered table values w)) = get_seq d (seqs w).
Proof.
  intros Hne. unfold dim_registered.
  destruct (decide (sorted (py_set values) = [])); [done|].
  by destruct table, d.
Qed.

Lemma time_registered_seq pairs w :
  (∀ d, get_seq d (seqs (time_registered pairs w)) = get_seq d (seqs w)) ∧
  time_id_seq (seqs (time_registered pairs w)) =
  time_id_seq (seqs w) +
  Z.of_nat (length (missing_pairs (dim_time (tbl w)) (drop_duplicates pairs))).
Proof.
  unfold time_registered.
  destruct (decide (pairs = [])) as [->|Hne].
  - split; [done|]. unfold missing_pairs. simpl. lia.
  - split; [by intros []|done].
Qed.

Lemma dim_registered_keys_ok table values w :
  primary_keys_ok w → primary_keys_ok (dim_registered table values w).
Proof.
  intros (Hd & Hnd & Hlt). split; [|split].
  - intros d. destruct (Hd d) as [Hnd' Hlt'].
    destruct (decide (d = table)) as [->|Hne].
    + rewrite dim_registered_rows, dim_registered_seq, fmap_app.
      rewrite <- (new_dim_rows_length (get_seq table (seqs w))).
      rewrite <- (length_fmap dim_id). split.
      * eapply NoDup_app_fresh_ids; [done|done|]. apply new_dim_rows_fresh.
      * apply fresh_ids_below; [done|]. apply new_dim_rows_fresh.
    + rewrite (proj1 (dim_registered_frame table values w)) by done.
      by rewrite dim_registered_seq_other.
  - by rewrite (proj1 (proj2 (dim_registered_frame table values w))).
  - rewrite (proj1 (proj2 (dim_registered_frame table values w))).
    by rewrite dim_registered_time_seq.
Qed.

Lemma time_registered_keys_ok pairs w :
  primary_keys_ok w → primary_keys_ok (time_registered pairs w).
Proof.
  intros (Hd & Hnd & Hlt).
  destruct (time_registered_seq pairs w) as [Hs Hts].
  split; [|split].
  - intros d. rewrite (proj1 (time_registered_frame pairs w)), Hs. apply Hd.
  - rewrite time_registered_rows, fmap_app.
    eapply NoDup_app_fresh_ids; [done|done|]. apply new_time_rows_fresh.
  - rewrite time_registered_rows, Hts, fmap_app.
    rewrite <- (new_time_rows_length (time_id_seq (seqs w))).
    rewrite <- (length_fmap time_id).
    apply fresh_ids_below; [done|]. apply new_time_rows_fresh.
Qed.

Lemma registered_keys_ok g w : primary_keys_ok w → primary_keys_ok (registered g w).
Proof.
  intros Hw. unfold registered.
  by apply time_registered_keys_ok; do 3 apply dim_registered_keys_ok.
Qed.

Lemma registered_seq_mono g w :
  (∀ d, (get_seq d (seqs w) ≤ get_seq d (seqs (registered g w)))%Z) ∧
  (time_id_seq (seqs w) ≤ time_id_seq (seqs (registered g w)))%Z.
Proof.
  unfold registered.
  set (w1 := dim_registered Region _ w).
  set (w2 := dim_registered EnergySource _ w1).
  set (w3 := dim_registered Sector _ w2).
  assert (∀ table values w d,
            (get_seq d (seqs w) ≤
             get_seq d (seqs (dim_registered table values w)))%Z)
    as Hstep.
  { intros table values w0 d. destruct (decide (d = table)) as [->|Hne].
    - rewrite dim_registered_seq. lia.
    - by rewrite dim_registered_seq_other. }
  destruct (time_registered_seq (year_months g) w3) as [Hs Hts]. split.
  - intros d. rewrite Hs.
    pose proof (Hstep Region (em_region <$> energy_m g) w d) as H1.
    pose proof (Hstep EnergySource (em_energy_source <$> energy_m g) w1 d) as H2.
    pose proof (Hstep Sector (xm_sector <$> emis_m g) w2 d) as H3.
    fold w1 in H1. fold w2 in H2. fold w3 in H3. lia.
  - rewrite Hts. subst w3 w2 w1. rewrite !dim_registered_time_seq. lia.
Qed.

(** X18: a warehouse whose surrogate ids are distinct within each
    dimension table and below the table's sequence is such a warehouse again
    after [upsert_dim_table], after [upsert_dim_time] and after [main],
    whether [main] returns or raises: the ids given to new rows are the next
    sequence values, and a run that is rolled back keeps the values it has
    taken. *)
Theorem registration_keeps_ids_distinct
    (table : dimension) (values : list string) (pairs : list (Z * Z))
    (g : marts) (w : warehouse) :
  primary_keys_ok w →
  primary_keys_ok (upsert_dim_table table values w).2 ∧
  primary_keys_ok (upsert_dim_time pairs w).2 ∧
  primary_keys_ok (main g w).2.
Proof.
  intros Hw. rewrite upsert_dim_table_eq, upsert_dim_time_eq. cbn [snd].
  split; [by apply dim_registered_keys_ok|].
  split; [by apply time_registered_keys_ok|].
  pose proof (registered_keys_ok g w Hw) as (Hd' & Hnd' & Hlt').
  destruct Hw as (Hd & Hnd & Hlt).
  destruct (registered_seq_mono g w) as [Hm Hmt].
  unfold primary_keys_ok. rewrite main_seqs. split; [|split].
  - intros d. destruct (main_dims g w d) as [->| ->]; [|apply Hd'].
    destruct (Hd d) as [Hn Hl]. split; [done|].
    eapply Forall_impl; [done|]. intros id Hid. simpl in *.
    specialize (Hm d). lia.
  - destruct (main_dim_time g w) as [->| ->]; done.
  - destruct (main_dim_time g w) as [->| ->]; [|done].
    eapply Forall_impl; [done|]. intros id Hid. simpl in *. lia.
Qed.

Lemma registration_keeps_ids_distinct_witness :
  primary_keys_ok (upsert_dim_table Region ["South"; "East"; "South"] north_south).2 ∧
  primary_keys_ok (upsert_dim_time [(2024, 1); (2024, 1)] north_south).2 ∧
  primary_keys_ok (main marts_unregistered_region north_south).2.
Proof.
  apply (registration_keeps_ids_distinct Region ["South"; "East"; "South"]
           [(2024, 1); (2024, 1)] marts_unregistered_region north_south).
  split; [|split].
  - intros d. split.
    + destruct d; apply (@bool_decide_unpack _ (NoDup_dec _)); vm_compute; exact I.
    + destruct d; apply (@bool_decide_unpack _ (Forall_dec _ _)); vm_compute;
        exact I.
  - apply (@bool_decide_unpack _ (NoDup_dec _)). vm_compute. exact I.
  - apply (@bool_decide_unpack _ (Forall_dec _ _)). vm_compute. exact I.
Defined.

(** ** The order in which the year-month pairs are listed *)

Lemma same_elements_nil {A} (l1 l2 : list A) :
  (∀ x, x ∈ l1 ↔ x ∈ l2) → l1 = [] → l2 = [].
Proof.
  intros Hsame ->. destruct l2 as [|x l2]; [done|].
  exfalso. eapply elem_of_nil, Hsame. by left.
Qed.

Lemma sequences_ext (s s' : sequences) :
  (∀ d, get_seq d s = get_seq d s') → time_id_seq s = time_id_seq s' → s = s'.
Proof.
  intros Hd Ht.
  pose proof (Hd Region). pose proof (Hd EnergySource). pose proof (Hd Sector).
  destruct s, s'. cbn in *. congruence.
Qed.

(** The ids of new rows are the next values of the sequence, whatever the
    rows hold. *)
Lemma new_time_rows_id_column (first : Z) (pairs : list (Z * Z)) :
  time_id <$> new_time_rows first pairs =
  (λ i, first + Z.of_nat i) <$> seq 0 (length pairs).
Proof.
  unfold new_time_rows. rewrite fmap_imap.
  rewrite <- (imap_seq_0 pairs (λ i, first + Z.of_nat i)).
  by apply imap_ext.
Qed.

Lemma missing_pairs_same_elements rows (p1 p2 : list (Z * Z)) :
  (∀ p, p ∈ p1 ↔ p ∈ p2) →
  missing_pairs rows (drop_duplicates p1) ≡ₚ
  missing_pairs rows (drop_duplicates p2).
Proof.
  intros Hsame. apply NoDup_Permutation.
  - apply NoDup_filter, NoDup_drop_duplicates.
  - apply NoDup_filter, NoDup_drop_duplicates.
  - intros p. rewrite !missing_pairs_spec, !elem_of_drop_duplicates.
    by rewrite Hsame.
Qed.

(** X19: [main] hands [upsert_dim_time] the pairs of a Python set, in the
    order the set happens to be listed in.  That order (and any repetition)
    decides nothing but which of the new ids each new pair gets: two lists
    with the same pairs leave the same ids in [dim_time], the same pairs up
    to the order of the new rows, the same sequences and the same other
    tables. *)
Theorem time_registration_ignores_order
    (pairs1 pairs2 : list (Z * Z)) (w : warehouse) :
  (∀ p, p ∈ pairs1 ↔ p ∈ pairs2) →
  time_id <$> dim_time (tbl (upsert_dim_time pairs1 w).2) =
    time_id <$> dim_time (tbl (upsert_dim_time pairs2 w).2) ∧
  time_key <$> dim_time (tbl (upsert_dim_time pairs1 w).2) ≡ₚ
    time_key <$> dim_time (tbl (upsert_dim_time pairs2 w).2) ∧
  take (length (dim_time (tbl w))) (dim_time (tbl (upsert_dim_time pairs1 w).2)) =
    take (length (dim_time (tbl w))) (dim_time (tbl (upsert_dim_time pairs2 w).2)) ∧
  seqs (upsert_dim_time pairs1 w).2 = seqs (upsert_dim_time pairs2 w).2 ∧
  (∀ d, get_dim d (tbl (upsert_dim_time pairs1 w).2) =
        get_dim d (tbl (upsert_dim_time pairs2 w).2)) ∧
  fact_energy_monthly (tbl (upsert_dim_time pairs1 w).2) =
    fact_energy_monthly (tbl (upsert_dim_time pairs2 w).2) ∧
  fact_emissions_monthly (tbl (upsert_dim_time pairs1 w).2) =
    fact_emissions_monthly (tbl (upsert_dim_time pairs2 w).2) ∧
  fact_carbon_intensity (tbl (upsert_dim_time pairs1 w).2) =
    fact_carbon_intensity (tbl (upsert_dim_time pairs2 w).2) ∧
  staging (tbl (upsert_dim_time pairs1 w).2) =
    staging (tbl (upsert_dim_time pairs2 w).2).
Proof.
  intros Hsame. rewrite !upsert_dim_time_eq. cbn [snd].
  pose proof (missing_pairs_same_elements (dim_time (tbl w)) _ _ Hsame) as Hperm.
  destruct (time_registered_frame pairs1 w) as (Hd1 & He1 & Hx1 & Hi1).
  destruct (time_registered_frame pairs2 w) as (Hd2 & He2 & Hx2 & Hi2).
  destruct (time_registered_seq pairs1 w) as [Hs1 Ht1].
  destruct (time_registered_seq pairs2 w) as [Hs2 Ht2].
  rewrite !time_registered_rows, !fmap_app.
  rewrite !new_time_rows_id_column, !new_time_rows_keys.
  rewrite !take_app_length.
  rewrite (Permutation_length Hperm).
  split; [done|]. split; [by rewrite Hperm|]. split; [done|]. split.
  { apply sequences_ext; [intros d; by rewrite Hs1, Hs2|].
    by rewrite Ht1, Ht2, (Permutation_length Hperm). }
  split; [intros d; by rewrite Hd1, Hd2|].
  split; [by rewrite He1, He2|]. split; [by rewrite Hx1, Hx2|].
  split; [by rewrite Hi1, Hi2|].
  unfold time_registered.
  destruct (decide (pairs1 = [])) as [E1|N1], (decide (pairs2 = [])) as [E2|N2];
    [done| | |done].
  - exfalso. apply N2. by apply (same_elements_nil pairs1).
  - exfalso. apply N1. apply (same_elements_nil pairs2); [|done].
    intros p. by rewrite Hsame.
Qed.

Lemma time_registration_ignores_order_witness :
  time_id <$> dim_time
    (tbl (upsert_dim_time [(2024, 2); (2024, 1)] empty_warehouse).2) =
    time_id <$> dim_time
      (tbl (upsert_dim_time [(2024, 1); (2024, 2); (2024, 1)] empty_warehouse).2) ∧
  time_key <$> dim_time
    (tbl (upsert_dim_time [(2024, 2); (2024, 1)] empty_warehouse).2) ≡ₚ
    time_key <$> dim_time
      (tbl (upsert_dim_time [(2024, 1); (2024, 2); (2024, 1)] empty_warehouse).2) ∧
  seqs (upsert_dim_time [(2024, 2); (2024, 1)] empty_warehouse).2 =
    seqs (upsert_dim_time [(2024, 1); (2024, 2); (2024, 1)] empty_warehouse).2.
Proof.
  assert (∀ p : Z * Z,
            p ∈ [(2024, 2); (2024, 1)] ↔ p ∈ [(2024, 1); (2024, 2); (2024, 1)])
    as Hsame.
  { intros p. rewrite !elem_of_cons, !elem_of_nil. tauto. }
  destruct (time_registration_ignores_order [(2024, 2); (2024, 1)]
              [(2024, 1); (2024, 2); (2024, 1)] empty_warehouse Hsame)
    as (Hids & Hkeys & _ & Hseqs & _).
  exact (conj Hids (conj Hkeys Hseqs)).
Defined.
